(** * MessMeter: rating aggregation, voting, menu publishing and the
    facility directory

  A shallow embedding of the parts of the MessMeter backend that keep the
  denormalised rating aggregates, the helpfulness-vote ledger, the daily
  menu status and the facility/mess directory, together with the
  properties the written specification states about them, and further
  properties of the same code: the statistics of a daily menu, the
  entries of a meal, the availability of an item and the lock on sign-in
  after repeated failures.

  Modelling conventions.
  - A JavaScript [Number] is an exact rational ([Qc]); the rounding of
    IEEE-754 doubles is not represented.  [x / 0] is [0] in [Qc] while
    JavaScript yields [NaN] or [Infinity]; statements that divide by a
    stored count carry the hypothesis that the count is positive.
    What is stated of a stored average in this arithmetic holds of the
    code up to the rounding of doubles.  Module [Doubles] has
    [updateRatings] on binary64 values, and the statement about the
    aggregate of a menu item after a sequence of submissions is made
    there.
  - Counters that start at the schema default [0] and only ever receive
    [+= 1] are integers ([Z]) and are injected into [Qc] where the code
    multiplies or divides by them.
  - A Mongo collection is a finite map from ids to documents, or a list
    of documents where the code scans it with a query.
  - [await], the request/response objects and the [try]/[catch] wrappers
    become functions from the stored state to a response and a new state.
  - Document fields that none of the embedded functions reads or writes
    (photos, review text, nutritional data, ...) are left out. *)

From Stdlib Require Import ZArith QArith Qcanon Qround Lia Ascii String.
From Stdlib Require Floats Uint63.
From stdpp Require Import base option list numbers strings pretty gmap.

Local Open Scope Z_scope.

(** ** JavaScript values *)

Module JS.

Abbreviation number := Qc.

(** Integer literal as a [Number]. *)
Definition num (z : Z) : number := Qc_of_Z z.

Arguments num : simpl never.

(** [Math.round]: the nearest integer, halves towards +infinity. *)
Definition Math_round (x : number) : number :=
  num (Qfloor (this (x + num 1 / num 2)%Qc)).

(** [Math.min]. *)
Definition Math_min (x y : number) : number :=
  if decide (x ≤ y)%Qc then x else y.

(** A value that is an integer between [lo] and [hi]
    (express-validator's [isInt({min, max})] on a numeric body field). *)
Definition isInt (lo hi : Z) (x : number) : bool :=
  bool_decide (Qden (this x) = 1%positive) &&
  bool_decide (num lo ≤ x)%Qc && bool_decide (x ≤ num hi)%Qc.

(** A Mongoose [min]/[max] validator on a [Number] path. *)
Definition in_range (lo hi : Z) (x : number) : bool :=
  bool_decide (num lo ≤ x)%Qc && bool_decide (x ≤ num hi)%Qc.

(** Sum of a list of numbers and the arithmetic mean. *)
Definition sum (l : list number) : number := foldr Qcplus 0%Qc l.

Definition mean (l : list number) : number :=
  (sum l / num (Z.of_nat (length l)))%Qc.

(** [String.prototype.toLowerCase] on the ASCII letters; other bytes are
    kept (the non-ASCII case mappings of JavaScript are not modelled). *)
Definition lower_ascii (c : ascii) : ascii :=
  let n := N_of_ascii c in
  if bool_decide (65 ≤ n ≤ 90)%N then ascii_of_N (n + 32) else c.

Fixpoint toLowerCase (s : string) : string :=
  match s with
  | EmptyString => EmptyString
  | String c s' => String (lower_ascii c) (toLowerCase s')
  end.

(** The class [\s] restricted to ASCII: tab, line feed, vertical tab,
    form feed, carriage return and space. *)
Definition is_space (c : ascii) : bool :=
  let n := N_of_ascii c in
  bool_decide (9 ≤ n ≤ 13)%N || bool_decide (n = 32)%N.

(** [s.replace(/\s+/g, "_")]: every maximal run of white space becomes
    one underscore.  [in_run] records that the previous character was
    white space. *)
Fixpoint replace_spaces_from (in_run : bool) (s : string) : string :=
  match s with
  | EmptyString => EmptyString
  | String c s' =>
      if is_space c
      then (if in_run then replace_spaces_from true s'
            else String "_" (replace_spaces_from true s'))
      else String c (replace_spaces_from false s')
  end.

Definition replace_spaces (s : string) : string :=
  replace_spaces_from false s.

(** The template [`${n}`] for a non-negative integer. *)
Definition string_of_int (n : Z) : string := pretty n.

End JS.

(** ** Catalog: [backend/models/MenuItem.js] *)

Module Catalog.
Import JS.

(** [categoryRatings.<category>] of a menu item. *)
Record CategoryData := mkCategoryData {
  average : number;
  count : Z
}.

Record CategoryRatings := mkCategoryRatings {
  taste : CategoryData;
  quantity : CategoryData;
  freshness : CategoryData;
  value : CategoryData
}.

Record MenuItem := mkMenuItem {
  name : string;
  facilityId : string;
  totalRatings : Z;
  averageRating : number;
  categoryRatings : CategoryRatings;
  isActive : bool;
  popularityScore : number
}.

(** The argument of [updateRatings]; a category may be [undefined]. *)
Record NewRating := mkNewRating {
  nr_overall : number;
  nr_taste : option number;
  nr_quantity : option number;
  nr_freshness : option number;
  nr_value : option number
}.

(** Body of the [forEach] callback of [updateRatings]. *)
Definition updateCategory (categoryData : CategoryData)
    (newValue : option number) : CategoryData :=
  match newValue with
  | Some v =>
      let totalCategoryScore :=
        (average categoryData * num (count categoryData) + v)%Qc in
      let count' := count categoryData + 1 in
      mkCategoryData (totalCategoryScore / num count')%Qc count'
  | None => categoryData
  end.

(** [menuItemSchema.methods.updateRatings]. *)
Definition updateRatings (this : MenuItem) (newRating : NewRating)
    : MenuItem :=
  let totalScore :=
    (averageRating this * num (totalRatings this) + nr_overall newRating)%Qc in
  let totalRatings' := totalRatings this + 1 in
  let averageRating' := (totalScore / num totalRatings')%Qc in
  let c := categoryRatings this in
  mkMenuItem (name this) (facilityId this) totalRatings' averageRating'
    (mkCategoryRatings
       (updateCategory (taste c) (nr_taste newRating))
       (updateCategory (quantity c) (nr_quantity newRating))
       (updateCategory (freshness c) (nr_freshness newRating))
       (updateCategory (value c) (nr_value newRating)))
    (isActive this) (popularityScore this).

(** The [pre("save")] hook: the popularity score follows the aggregate
    when the aggregate was modified. *)
Definition preSave (stored this : MenuItem) : MenuItem :=
  if bool_decide (totalRatings stored = totalRatings this) &&
     bool_decide (averageRating stored = averageRating this)
  then this
  else
    mkMenuItem (name this) (facilityId this) (totalRatings this)
      (averageRating this) (categoryRatings this) (isActive this)
      (averageRating this * (num 7 / num 10) +
       Math_min (num (totalRatings this) / num 100) (num 1) *
         (num 3 / num 10))%Qc.

(** A menu item as the schema defaults create it. *)
Definition emptyCategory : CategoryData := mkCategoryData 0%Qc 0.

Definition newMenuItem (n f : string) : MenuItem :=
  mkMenuItem n f 0 0%Qc
    (mkCategoryRatings emptyCategory emptyCategory emptyCategory
       emptyCategory)
    true 0%Qc.

End Catalog.

(** ** Principals: [backend/models/User.js], [backend/middleware/auth.js] *)

Module Identity.

Abbreviation ObjectId := N.

Inductive Role := student | mess_admin.

Inductive FacilityType := college | hostel.

Inductive MessType := college_mess | hostel_mess.

#[global] Instance Role_eq_dec : EqDecision Role.
Proof. solve_decision. Defined.

#[global] Instance FacilityType_eq_dec : EqDecision FacilityType.
Proof. solve_decision. Defined.

#[global] Instance MessType_eq_dec : EqDecision MessType.
Proof. solve_decision. Defined.

(** [selectedFacility] / [adminFacility] of a user document. *)
Record FacilityRef := mkFacilityRef {
  facilityId : option string;
  facilityType : option FacilityType
}.

Record User := mkUser {
  id : ObjectId;
  role : Role;
  selectedFacility : option FacilityRef;
  adminFacility : option FacilityRef
}.

(** [ref?.facilityId] and [ref?.facilityType]. *)
Definition facilityId_of (ref : option FacilityRef) : option string :=
  ref ≫= facilityId.

Definition facilityType_of (ref : option FacilityRef) : option FacilityType :=
  ref ≫= facilityType.

(** [authenticate] decorates [req.user] with [facilityId] and [messType]. *)
Definition req_facilityId (u : User) : option string :=
  match role u with
  | mess_admin => facilityId_of (adminFacility u)
  | student => facilityId_of (selectedFacility u)
  end.

Definition req_messType (u : User) : MessType :=
  match role u with
  | mess_admin =>
      if decide (facilityType_of (adminFacility u) = Some hostel)
      then hostel_mess else college_mess
  | student =>
      if decide (facilityType_of (selectedFacility u) = Some hostel)
      then hostel_mess else college_mess
  end.

(** [authorize(...roles)]. *)
Definition authorize (roles : list Role) (u : User) : bool :=
  bool_decide (role u ∈ roles).

End Identity.

(** ** Scheduling: [backend/models/DailyMenu.js] and the publish handler of
    [backend/controllers/menu.js] *)

Module Scheduling.
Import JS Identity.

Inductive Status := draft | published | active | completed | cancelled.

#[global] Instance Status_eq_dec : EqDecision Status.
Proof. solve_decision. Defined.

Inductive PreparationStatus := not_started | in_progress | ready | served_out.

Record MenuEntry := mkMenuEntry {
  item : ObjectId;
  isAvailable : bool;
  preparationStatus : PreparationStatus
}.

Record CategoryAverages := mkCategoryAverages {
  taste : number;
  quantity : number;
  freshness : number;
  value : number
}.

Record RatingStats := mkRatingStats {
  totalRatings : Z;
  averageRating : number;
  categoryAverages : CategoryAverages;
  participationRate : number
}.

Record DailyMenu := mkDailyMenu {
  date : Z;
  mealType : string;
  facilityId : string;
  messType : MessType;
  menuItems : list MenuEntry;
  totalItems : Z;
  expectedStudents : option number;
  ratingStats : RatingStats;
  status : Status;
  lastModifiedBy : option ObjectId
}.

Definition set_ratingStats (rs : RatingStats) (m : DailyMenu) : DailyMenu :=
  mkDailyMenu (date m) (mealType m) (facilityId m) (messType m) (menuItems m)
    (totalItems m) (expectedStudents m) rs (status m) (lastModifiedBy m).

Definition set_status (s : Status) (by_ : ObjectId) (m : DailyMenu)
    : DailyMenu :=
  mkDailyMenu (date m) (mealType m) (facilityId m) (messType m) (menuItems m)
    (totalItems m) (expectedStudents m) (ratingStats m) s (Some by_).

(** The [pre("save")] hook: [totalItems] counts the available entries.
    The cuisine and dietary summaries need populated items and are not
    touched by the handlers below. *)
Definition preSave (m : DailyMenu) : DailyMenu :=
  mkDailyMenu (date m) (mealType m) (facilityId m) (messType m) (menuItems m)
    (Z.of_nat (length (filter (fun e => isAvailable e = true) (menuItems m))))
    (expectedStudents m) (ratingStats m) (status m) (lastModifiedBy m).

(** [dailyMenuSchema.methods.updateParticipationRate]. *)
Definition updateParticipationRate (m : DailyMenu) : DailyMenu :=
  match expectedStudents m with
  | Some e =>
      if decide (0 < e)%Qc then
        let rs := ratingStats m in
        set_ratingStats
          (mkRatingStats (totalRatings rs) (averageRating rs)
             (categoryAverages rs)
             (Math_round (num (totalRatings rs) / e * num 100)%Qc)) m
      else m
  | None => m
  end.

(** Replies of [publishDailyMenu]. *)
Inductive Response :=
| Published (m : DailyMenu)          (* 200 *)
| DailyMenuNotFound                  (* 404 *)
| AlreadyPublished                   (* 400 "Menu is already published" *)
| CannotPublishWithoutItems.         (* 400 *)

(** [DailyMenu.findOne({ _id, facilityId, messType })]. *)
Definition findOne (menus : gmap ObjectId DailyMenu) (id : ObjectId)
    (fid : option string) (mt : MessType) : option DailyMenu :=
  match menus !! id with
  | Some m =>
      if bool_decide (fid = Some (facilityId m)) &&
         bool_decide (messType m = mt)
      then Some m else None
  | None => None
  end.

(** [publishDailyMenu]. *)
Definition publishDailyMenu (user : User) (id : ObjectId)
    (menus : gmap ObjectId DailyMenu)
    : Response * gmap ObjectId DailyMenu :=
  match findOne menus id (req_facilityId user) (req_messType user) with
  | None => (DailyMenuNotFound, menus)
  | Some dailyMenu =>
      if bool_decide (status dailyMenu = published) ||
         bool_decide (status dailyMenu = active)
      then (AlreadyPublished, menus)
      else if bool_decide (length (menuItems dailyMenu) = 0%nat)
      then (CannotPublishWithoutItems, menus)
      else
        let dailyMenu' :=
          preSave (set_status published (Identity.id user) dailyMenu) in
        (Published dailyMenu', <[id := dailyMenu']> menus)
  end.

End Scheduling.

(** ** Feedback: [backend/models/Rating.js], [backend/controllers/rating.js],
    [backend/middleware/timeRestriction.js] and the rating routes *)

Module Feedback.
Import JS Identity.

Record CategoryRatings := mkCategoryRatings {
  taste : number;
  quantity : number;
  freshness : number;
  value : number
}.

(** One entry of [helpfulVotes.voters]. *)
Record Voter := mkVoter {
  user : ObjectId;
  vote : string;
  votedAt : Z
}.

Record HelpfulVotes := mkHelpfulVotes {
  upvotes : Z;
  downvotes : Z;
  voters : list Voter
}.

Record Rating := mkRating {
  _id : ObjectId;
  student : ObjectId;
  menuItem : ObjectId;
  dailyMenu : ObjectId;
  overallRating : number;
  categoryRatings : CategoryRatings;
  mealType : string;
  mealDate : Z;
  facilityId : option string;
  messType : MessType;
  helpfulVotes : HelpfulVotes;
  isActive : bool;
  createdAt : Z
}.

Definition set_helpfulVotes (h : HelpfulVotes) (r : Rating) : Rating :=
  mkRating (_id r) (student r) (menuItem r) (dailyMenu r) (overallRating r)
    (categoryRatings r) (mealType r) (mealDate r) (facilityId r) (messType r)
    h (isActive r) (createdAt r).

Definition set_categoryRatings (c : CategoryRatings) (r : Rating) : Rating :=
  mkRating (_id r) (student r) (menuItem r) (dailyMenu r) (overallRating r)
    c (mealType r) (mealDate r) (facilityId r) (messType r)
    (helpfulVotes r) (isActive r) (createdAt r).

Definition set_overallRating (o : number) (r : Rating) : Rating :=
  mkRating (_id r) (student r) (menuItem r) (dailyMenu r) o
    (categoryRatings r) (mealType r) (mealDate r) (facilityId r) (messType r)
    (helpfulVotes r) (isActive r) (createdAt r).

Definition set_isActive (b : bool) (r : Rating) : Rating :=
  mkRating (_id r) (student r) (menuItem r) (dailyMenu r) (overallRating r)
    (categoryRatings r) (mealType r) (mealDate r) (facilityId r) (messType r)
    (helpfulVotes r) b (createdAt r).

#[global] Instance CategoryRatings_eq_dec : EqDecision CategoryRatings.
Proof. solve_decision. Defined.

(** [Math.round((taste + quantity + freshness + value) / 4)]. *)
Definition roundedMean (c : CategoryRatings) : number :=
  Math_round ((taste c + quantity c + freshness c + value c) / num 4)%Qc.

(** The virtual [helpfulnessScore]. *)
Definition helpfulnessScore (r : Rating) : number :=
  let total := upvotes (helpfulVotes r) + downvotes (helpfulVotes r) in
  if bool_decide (total = 0) then 0%Qc
  else (num (upvotes (helpfulVotes r)) / num total * num 100)%Qc.

(** The [pre("save")] hook.  [stored] is the persisted version of the
    document ([None] for a new one, whose set paths all count as
    modified); [isModified] compares against it. *)
Definition preSave (stored : option Rating) (r : Rating) : Rating :=
  match stored with
  | None => r
  | Some old =>
      if bool_decide (categoryRatings r ≠ categoryRatings old) &&
         bool_decide (overallRating r = overallRating old)
      then set_overallRating (roundedMean (categoryRatings r)) r
      else r
  end.

(** The schema validators of the paths a request can set:
    [min 1]/[max 5] on the five ratings, the [mealType] enum and the
    required [facilityId]. *)
Definition mealTypeEnum : list string :=
  ["breakfast"; "lunch"; "dinner"; "snack"].

Definition validateRatings (r : Rating) : bool :=
  in_range 1 5 (overallRating r) &&
  in_range 1 5 (taste (categoryRatings r)) &&
  in_range 1 5 (quantity (categoryRatings r)) &&
  in_range 1 5 (freshness (categoryRatings r)) &&
  in_range 1 5 (value (categoryRatings r)).

Definition validate (r : Rating) : bool :=
  validateRatings r &&
  bool_decide (mealType r ∈ mealTypeEnum) &&
  match facilityId r with
  | Some f => bool_decide (f ≠ "")
  | None => false
  end.

(** [ratingSchema.methods.addHelpfulVote]; [now] is [new Date()]. *)
Definition addHelpfulVote (now : Z) (this : Rating) (userId : ObjectId)
    (voteType : string) : Rating :=
  let voters0 :=
    filter (fun voter => user voter ≠ userId) (voters (helpfulVotes this)) in
  let voters1 := voters0 ++ [mkVoter userId voteType now] in
  let upvotes' := Z.of_nat (length (filter (fun v => vote v = "up") voters1)) in
  let downvotes' :=
    Z.of_nat (length (filter (fun v => vote v = "down") voters1)) in
  set_helpfulVotes (mkHelpfulVotes upvotes' downvotes' voters1) this.

(** *** The stored state *)

Record Db := mkDb {
  ratings : list Rating;
  menuItems : gmap ObjectId Catalog.MenuItem;
  dailyMenus : gmap ObjectId Scheduling.DailyMenu
}.

(** What a handler reads from its surroundings: the clock
    ([Date.now()], milliseconds), the offset of local time from UTC in
    minutes, and the [ObjectId] the driver hands to a new document. *)
Record Env := mkEnv {
  now : Z;
  tzOffset : Z;
  newId : ObjectId
}.

(** [new Date().getHours()] and [getMinutes()]. *)
Definition getHours (env : Env) : Z :=
  ((now env + tzOffset env * 60000) / 3600000) mod 24.

Definition getMinutes (env : Env) : Z :=
  ((now env + tzOffset env * 60000) / 60000) mod 60.

(** [Rating.findOne({ student, menuItem, mealDate, mealType })]. *)
Definition findExisting (db : Db) (studentId menuItemId : ObjectId)
    (mealDate_ : Z) (mealType_ : string) : option Rating :=
  List.find
    (fun r =>
       bool_decide (student r = studentId) &&
       bool_decide (menuItem r = menuItemId) &&
       bool_decide (mealDate r = mealDate_) &&
       bool_decide (mealType r = mealType_))
    (ratings db).

(** [Rating.findById(ratingId)]. *)
Definition findById (db : Db) (ratingId : ObjectId) : option Rating :=
  List.find (fun r => bool_decide (_id r = ratingId)) (ratings db).

(** [Rating.findOne({ _id: ratingId, student: studentId })]. *)
Definition findOwn (db : Db) (ratingId studentId : ObjectId)
    : option Rating :=
  List.find
    (fun r => bool_decide (_id r = ratingId) &&
              bool_decide (student r = studentId))
    (ratings db).

(** [rating.save()] of a loaded document: the stored version with the
    same [_id] is replaced. *)
Definition saveRating (r : Rating) (db : Db) : Db :=
  mkDb
    (List.map (fun x => if bool_decide (_id x = _id r) then r else x)
       (ratings db))
    (menuItems db) (dailyMenus db).

(** [menuItem.save()]: the hook runs against the stored version. *)
Definition saveMenuItem (k : ObjectId) (stored m : Catalog.MenuItem)
    (db : Db) : Db :=
  mkDb (ratings db) (<[k := Catalog.preSave stored m]> (menuItems db))
    (dailyMenus db).

Definition saveDailyMenu (k : ObjectId) (m : Scheduling.DailyMenu)
    (db : Db) : Db :=
  mkDb (ratings db) (menuItems db)
    (<[k := Scheduling.preSave m]> (dailyMenus db)).

(** *** Requests and replies *)

(** Body of [POST /api/ratings]. *)
Record SubmitBody := mkSubmitBody {
  b_menuItemId : ObjectId;
  b_dailyMenuId : ObjectId;
  b_overallRating : number;
  b_categoryRatings : CategoryRatings;
  b_mealType : string;
  b_mealDate : Z;
  b_facilityId : option string
}.

(** Body of [PUT /api/ratings/:ratingId]. *)
Record UpdateBody := mkUpdateBody {
  u_categoryRatings : option CategoryRatings
}.

Inductive Response :=
| Created (r : Rating)               (* 201 *)
| AlreadyRated                       (* 400 "You have already rated this meal today" *)
| MenuItemNotFound                   (* 404 *)
| DailyMenuNotFound                  (* 404 *)
| ValidationError                    (* 400 "Validation error: ..." *)
| InvalidMealType                    (* 400 "Invalid meal type. ..." *)
| OutsideMealWindow                  (* 400 "You can only review ..." *)
| RoleNotAuthorized                  (* 403 *)
| InvalidVoteType                    (* 400 *)
| RatingNotFound                     (* 404 *)
| CannotVoteOwnRating                (* 400 "Cannot vote on your own rating" *)
| VoteRecorded (up down : Z) (score : number)  (* 200 *)
| NotFoundOrNotAuthorized            (* 404 *)
| UpdateWindowExpired                (* 400 *)
| RatingUpdated (r : Rating)         (* 200 *)
| DeleteWindowExpired                (* 400 *)
| RatingDeleted                      (* 200 *)
| ServerError.                       (* 500 *)

Definition httpStatus (r : Response) : Z :=
  match r with
  | Created _ => 201
  | VoteRecorded _ _ _ | RatingUpdated _ | RatingDeleted => 200
  | MenuItemNotFound | DailyMenuNotFound | RatingNotFound
  | NotFoundOrNotAuthorized => 404
  | RoleNotAuthorized => 403
  | ServerError => 500
  | _ => 400
  end.

(** The replies read in the vocabulary of the written specification
    (section 7): which member of its error taxonomy a reply stands for.
    The status codes above are the ones the handlers send. *)
Inductive ErrorKind :=
| NotFound | Conflict | InvalidState | Forbidden | ValidationFailed
| Unavailable.

Definition errorKind (r : Response) : option ErrorKind :=
  match r with
  | Created _ | VoteRecorded _ _ _ | RatingUpdated _ | RatingDeleted => None
  | AlreadyRated => Some Conflict
  | MenuItemNotFound | DailyMenuNotFound | RatingNotFound
  | NotFoundOrNotAuthorized => Some NotFound
  | OutsideMealWindow | UpdateWindowExpired | DeleteWindowExpired =>
      Some InvalidState
  | RoleNotAuthorized | CannotVoteOwnRating => Some Forbidden
  | ValidationError | InvalidMealType | InvalidVoteType =>
      Some ValidationFailed
  | ServerError => Some Unavailable
  end.

(** *** [validateMealTime] *)

(** The table [mealTimes], indexed by the lower-cased meal type. *)
Definition mealTimes (key : string) : option (Z * Z) :=
  if bool_decide (key = "breakfast") then Some (8, 11)
  else if bool_decide (key = "lunch") then Some (12, 16)
  else if bool_decide (key = "dinner") then Some (19, 23)
  else None.

(** [None] stands for [next()]. *)
Definition validateMealTime (env : Env) (body : SubmitBody)
    : option Response :=
  let currentTime := (num (getHours env) + num (getMinutes env) / num 60)%Qc in
  if bool_decide (b_mealType body = "") then Some InvalidMealType
  else
    match mealTimes (toLowerCase (b_mealType body)) with
    | None => Some InvalidMealType
    | Some (start, end_) =>
        if bool_decide (currentTime < num start)%Qc ||
           bool_decide (num end_ < currentTime)%Qc
        then Some OutsideMealWindow
        else None
    end.

(** *** [validateRating] and [validateVote] (express-validator chains) *)

Definition validateRating (body : SubmitBody) : bool :=
  isInt 1 5 (b_overallRating body) &&
  isInt 1 5 (taste (b_categoryRatings body)) &&
  isInt 1 5 (quantity (b_categoryRatings body)) &&
  isInt 1 5 (freshness (b_categoryRatings body)) &&
  isInt 1 5 (value (b_categoryRatings body)) &&
  bool_decide (b_mealType body ∈ mealTypeEnum) &&
  match b_facilityId body with
  | Some f => bool_decide (f ≠ "")
  | None => true
  end.

Definition validateVote (voteType : string) : bool :=
  bool_decide (voteType ∈ ["up"; "down"]).

(** *** [submitRating] *)

(** A string operand of [||]: the empty string is falsy. *)
Definition truthy (s : option string) : option string :=
  match s with
  | Some f => if bool_decide (f = "") then None else Some f
  | None => None
  end.

(** One step of the running mean kept in [dailyMenu.ratingStats]:
    [total] is the count after the increment. *)
Definition runningMean (old : number) (total : Z) (x : number) : number :=
  ((old * num (total - 1) + x) / num total)%Qc.

Definition updateRatingStats (overall : number) (c : CategoryRatings)
    (m : Scheduling.DailyMenu) : Scheduling.DailyMenu :=
  let rs := Scheduling.ratingStats m in
  let total := Scheduling.totalRatings rs + 1 in
  let ca := Scheduling.categoryAverages rs in
  Scheduling.set_ratingStats
    (Scheduling.mkRatingStats total
       (runningMean (Scheduling.averageRating rs) total overall)
       (Scheduling.mkCategoryAverages
          (runningMean (Scheduling.taste ca) total (taste c))
          (runningMean (Scheduling.quantity ca) total (quantity c))
          (runningMean (Scheduling.freshness ca) total (freshness c))
          (runningMean (Scheduling.value ca) total (value c)))
       (Scheduling.participationRate rs))
    m.

(** [const facilityId = ...] and [const messType = ...]. *)
Definition resolveFacilityId (reqUser : User) (body : SubmitBody)
    : option string :=
  truthy (facilityId_of (adminFacility reqUser)) ∪
  truthy (facilityId_of (selectedFacility reqUser)) ∪
  b_facilityId body.

Definition resolveMessType (reqUser : User) : MessType :=
  if decide (facilityType_of (adminFacility reqUser) = Some college)
  then college_mess else hostel_mess.

(** The document handed to [Rating.create]; the vote ledger, [isActive]
    and [createdAt] are the schema defaults. *)
Definition ratingDocument (env : Env) (reqUser : User) (body : SubmitBody)
    : Rating :=
  mkRating (newId env) (Identity.id reqUser) (b_menuItemId body)
    (b_dailyMenuId body) (b_overallRating body) (b_categoryRatings body)
    (b_mealType body) (b_mealDate body) (resolveFacilityId reqUser body)
    (resolveMessType reqUser) (mkHelpfulVotes 0 0 []) true (now env).

(** The object passed to [menuItem.updateRatings]. *)
Definition ratingArgument (b : SubmitBody) : Catalog.NewRating :=
  let c := b_categoryRatings b in
  Catalog.mkNewRating (b_overallRating b) (Some (taste c)) (Some (quantity c))
    (Some (freshness c)) (Some (value c)).

Definition submitRating (env : Env) (reqUser : User) (body : SubmitBody)
    (db : Db) : Response * Db :=
  let studentId := Identity.id reqUser in
  match findExisting db studentId (b_menuItemId body) (b_mealDate body)
          (b_mealType body) with
  | Some _ => (AlreadyRated, db)
  | None =>
      match menuItems db !! b_menuItemId body with
      | None => (MenuItemNotFound, db)
      | Some menuItem_ =>
          match dailyMenus db !! b_dailyMenuId body with
          | None => (DailyMenuNotFound, db)
          | Some dailyMenu_ =>
              let doc := ratingDocument env reqUser body in
              if negb (validate doc) then (ValidationError, db)
              else
                let rating := preSave None doc in
                let db1 :=
                  mkDb (ratings db ++ [rating]) (menuItems db)
                    (dailyMenus db) in
                let menuItem' :=
                  Catalog.updateRatings menuItem_ (ratingArgument body) in
                let db2 :=
                  saveMenuItem (b_menuItemId body) menuItem_ menuItem' db1 in
                let dailyMenu' :=
                  Scheduling.updateParticipationRate
                    (updateRatingStats (b_overallRating body)
                       (b_categoryRatings body) dailyMenu_) in
                let db3 := saveDailyMenu (b_dailyMenuId body) dailyMenu' db2 in
                (Created rating, db3)
          end
      end
  end.

(** [POST /api/ratings]: [authorize("student")], [validateMealTime],
    [validateRating], [submitRating]. *)
Definition post_rating (env : Env) (reqUser : User) (body : SubmitBody)
    (db : Db) : Response * Db :=
  if negb (authorize [Identity.student] reqUser) then (RoleNotAuthorized, db)
  else
    match validateMealTime env body with
    | Some reply => (reply, db)
    | None =>
        if negb (validateRating body) then (ValidationError, db)
        else submitRating env reqUser body db
    end.

(** *** [voteOnRating] *)

Definition voteOnRating (env : Env) (reqUser : User) (ratingId : ObjectId)
    (voteType : string) (db : Db) : Response * Db :=
  let userId := Identity.id reqUser in
  if negb (bool_decide (voteType ∈ ["up"; "down"])) then (InvalidVoteType, db)
  else
    match findById db ratingId with
    | None => (RatingNotFound, db)
    | Some rating =>
        if bool_decide (student rating = userId)
        then (CannotVoteOwnRating, db)
        else
          let rating' :=
            preSave (Some rating)
              (addHelpfulVote (now env) rating userId voteType) in
          (VoteRecorded (upvotes (helpfulVotes rating'))
             (downvotes (helpfulVotes rating')) (helpfulnessScore rating'),
           saveRating rating' db)
    end.

(** [POST /api/ratings/:ratingId/vote]. *)
Definition post_vote (env : Env) (reqUser : User) (ratingId : ObjectId)
    (voteType : string) (db : Db) : Response * Db :=
  if negb (authorize [Identity.student] reqUser) then (RoleNotAuthorized, db)
  else if negb (validateVote voteType) then (ValidationError, db)
  else voteOnRating env reqUser ratingId voteType db.

(** *** [updateRating] *)

(** [(Date.now() - rating.createdAt.getTime()) / (1000 * 60 * 60)]. *)
Definition hoursSinceRating (env : Env) (r : Rating) : number :=
  (num (now env - createdAt r) / num (1000 * 60 * 60))%Qc.

(** Replacement of one contribution in a stored average. *)
Definition replaceInAverage (avg : number) (cnt : Z) (oldValue newValue : number)
    : number :=
  ((avg * num cnt - oldValue + newValue) / num cnt)%Qc.

Definition replaceCategory (d : Catalog.CategoryData)
    (oldValue newValue : number) : Catalog.CategoryData :=
  Catalog.mkCategoryData
    (replaceInAverage (Catalog.average d) (Catalog.count d) oldValue newValue)
    (Catalog.count d).

(** The correction [updateRating] applies to the loaded menu item. *)
Definition correctMenuItem (m : Catalog.MenuItem) (oldOverall : number)
    (oldC : CategoryRatings) (newOverall : number) (newC : CategoryRatings)
    : Catalog.MenuItem :=
  let c := Catalog.categoryRatings m in
  Catalog.mkMenuItem (Catalog.name m) (Catalog.facilityId m)
    (Catalog.totalRatings m)
    (replaceInAverage (Catalog.averageRating m) (Catalog.totalRatings m)
       oldOverall newOverall)
    (Catalog.mkCategoryRatings
       (replaceCategory (Catalog.taste c) (taste oldC) (taste newC))
       (replaceCategory (Catalog.quantity c) (quantity oldC) (quantity newC))
       (replaceCategory (Catalog.freshness c) (freshness oldC)
          (freshness newC))
       (replaceCategory (Catalog.value c) (value oldC) (value newC)))
    (Catalog.isActive m) (Catalog.popularityScore m).

Definition updateRating (env : Env) (reqUser : User) (ratingId : ObjectId)
    (body : UpdateBody) (db : Db) : Response * Db :=
  let studentId := Identity.id reqUser in
  match findOwn db ratingId studentId with
  | None => (NotFoundOrNotAuthorized, db)
  | Some rating =>
      if bool_decide (num 24 < hoursSinceRating env rating)%Qc
      then (UpdateWindowExpired, db)
      else
        let oldOverallRating := overallRating rating in
        let oldCategoryRatings := categoryRatings rating in
        match u_categoryRatings body with
        | None =>
            (* nothing this model represents is modified *)
            let rating' := preSave (Some rating) rating in
            (RatingUpdated rating', saveRating rating' db)
        | Some c =>
            let rating1 :=
              set_overallRating (roundedMean c) (set_categoryRatings c rating) in
            if negb (validateRatings rating1) then (ServerError, db)
            else
              let rating' := preSave (Some rating) rating1 in
              let db1 := saveRating rating' db in
              match menuItems db1 !! menuItem rating' with
              | None => (RatingUpdated rating', db1)
              | Some menuItem_ =>
                  let menuItem' :=
                    correctMenuItem menuItem_ oldOverallRating
                      oldCategoryRatings (overallRating rating')
                      (categoryRatings rating') in
                  (RatingUpdated rating',
                   saveMenuItem (menuItem rating') menuItem_ menuItem' db1)
              end
        end
  end.

(** [PUT /api/ratings/:ratingId]. *)
Definition put_rating (env : Env) (reqUser : User) (ratingId : ObjectId)
    (body : UpdateBody) (db : Db) : Response * Db :=
  if negb (authorize [Identity.student] reqUser) then (RoleNotAuthorized, db)
  else updateRating env reqUser ratingId body db.

(** *** [deleteRating] *)

Definition deleteRating (env : Env) (reqUser : User) (ratingId : ObjectId)
    (db : Db) : Response * Db :=
  let studentId := Identity.id reqUser in
  match findOwn db ratingId studentId with
  | None => (NotFoundOrNotAuthorized, db)
  | Some rating =>
      if bool_decide (num 1 < hoursSinceRating env rating)%Qc
      then (DeleteWindowExpired, db)
      else
        let rating' := preSave (Some rating) (set_isActive false rating) in
        (RatingDeleted, saveRating rating' db)
  end.

(** [DELETE /api/ratings/:ratingId]. *)
Definition delete_rating (env : Env) (reqUser : User) (ratingId : ObjectId)
    (db : Db) : Response * Db :=
  if negb (authorize [Identity.student] reqUser) then (RoleNotAuthorized, db)
  else deleteRating env reqUser ratingId db.

(** *** Traces of requests *)

Inductive Request :=
| SubmitRating (body : SubmitBody)
| UpdateRating (ratingId : ObjectId) (body : UpdateBody)
| DeleteRating (ratingId : ObjectId)
| VoteOnRating (ratingId : ObjectId) (voteType : string).

(** One authenticated request served to completion. *)
Definition serve (env : Env) (reqUser : User) (rq : Request) (db : Db)
    : Response * Db :=
  match rq with
  | SubmitRating body => post_rating env reqUser body db
  | UpdateRating ratingId body => put_rating env reqUser ratingId body db
  | DeleteRating ratingId => delete_rating env reqUser ratingId db
  | VoteOnRating ratingId voteType => post_vote env reqUser ratingId voteType db
  end.

(** Requests served one after the other; the replies are returned in
    order. *)
Fixpoint serveAll (trace : list (Env * User * Request)) (db : Db)
    : list Response * Db :=
  match trace with
  | [] => ([], db)
  | (env, reqUser, rq) :: rest =>
      let '(reply, db1) := serve env reqUser rq db in
      let '(replies, db2) := serveAll rest db1 in
      (reply :: replies, db2)
  end.

(** [Rating.find({ menuItem: itemId, isActive: true })]: the ratings of
    an item that were not soft-deleted. *)
Definition activeRatingsOf (db : Db) (itemId : ObjectId) : list Rating :=
  List.filter
    (fun r => bool_decide (menuItem r = itemId) && isActive r)
    (ratings db).

(** *** Vocabulary for the statements about submissions *)

Definition isCreated (r : Response) : bool :=
  match r with
  | Created _ => true
  | _ => false
  end.

(** A trace made of submissions only. *)
Definition submissions (trace : list (Env * User * SubmitBody))
    : list (Env * User * Request) :=
  List.map (fun '(env, u, b) => (env, u, SubmitRating b)) trace.

(** The bodies of the submissions for [itemId] that were answered with
    201, in order. *)
Fixpoint acceptedFor (itemId : ObjectId)
    (trace : list (Env * User * SubmitBody)) (replies : list Response)
    : list SubmitBody :=
  match trace, replies with
  | (_, _, b) :: trace', reply :: replies' =>
      (if isCreated reply && bool_decide (b_menuItemId b = itemId)
       then [b] else []) ++ acceptedFor itemId trace' replies'
  | _, _ => []
  end.

(** A category aggregate that is the mean of [vals], and a menu item
    whose whole aggregate is the mean of the submitted [bodies]. *)
Definition categoryIsMeanOf (vals : list number) (d : Catalog.CategoryData)
    : Prop :=
  Catalog.count d = Z.of_nat (length vals) ∧ Catalog.average d = mean vals.

Definition aggregateIsMeanOf (bodies : list SubmitBody)
    (m : Catalog.MenuItem) : Prop :=
  Catalog.totalRatings m = Z.of_nat (length bodies) ∧
  Catalog.averageRating m = mean (List.map b_overallRating bodies) ∧
  categoryIsMeanOf (List.map (fun b => taste (b_categoryRatings b)) bodies)
    (Catalog.taste (Catalog.categoryRatings m)) ∧
  categoryIsMeanOf (List.map (fun b => quantity (b_categoryRatings b)) bodies)
    (Catalog.quantity (Catalog.categoryRatings m)) ∧
  categoryIsMeanOf (List.map (fun b => freshness (b_categoryRatings b)) bodies)
    (Catalog.freshness (Catalog.categoryRatings m)) ∧
  categoryIsMeanOf (List.map (fun b => value (b_categoryRatings b)) bodies)
    (Catalog.value (Catalog.categoryRatings m)).

(** *** Vocabulary for the statements about votes *)

(** Entries of a ledger with a given vote, entries of a rating's ledger
    by a given user, and a rating whose counters agree with a ledger that
    holds each user at most once. *)
Definition countVotes (kind : string) (ledger : list Voter) : Z :=
  Z.of_nat (length (filter (fun v => vote v = kind) ledger)).

Definition votesBy (userId : ObjectId) (r : Rating) : list Voter :=
  filter (fun v => user v = userId) (voters (helpfulVotes r)).

Definition ledgerConsistent (r : Rating) : Prop :=
  upvotes (helpfulVotes r) = countVotes "up" (voters (helpfulVotes r)) ∧
  downvotes (helpfulVotes r) = countVotes "down" (voters (helpfulVotes r)) ∧
  NoDup (List.map user (voters (helpfulVotes r))).

(** Votes by one user on one rating, as a trace. *)
Definition votesOf (reqUser : User) (ratingId : ObjectId)
    (votes : list (Env * string)) : list (Env * User * Request) :=
  List.map (fun '(env, v) => (env, reqUser, VoteOnRating ratingId v)) votes.

End Feedback.



(** ** Directory: [backend/models/Facility.js],
    [backend/controllers/facility.js] and the facility branch of
    [register] in [backend/controllers/auth.js] *)

Module Directory.
Import JS Identity.

(** An element of [facility.messes].  [messId] is [None] while the
    object has no such property; the schema marks the path as required. *)
Record Mess := mkMess {
  name : string;
  messId : option string;
  description : option string;
  capacity : option Z;
  isActive : bool;
  createdAt : Z
}.

Record Facility := mkFacility {
  _id : ObjectId;
  f_name : string;
  type : FacilityType;
  messes : list Mess;
  f_isActive : bool;
  createdBy : option ObjectId
}.

Definition set_messes (ms : list Mess) (f : Facility) : Facility :=
  mkFacility (_id f) (f_name f) (type f) ms (f_isActive f) (createdBy f).

(** The argument of [addMess]: the descriptive fields its callers pass;
    [isActive] is left to the schema default. *)
Record MessData := mkMessData {
  md_name : string;
  md_description : option string;
  md_capacity : option Z
}.

(** [name.toLowerCase().replace(/\s+/g, "_")]. *)
Definition slug (s : string) : string := replace_spaces (toLowerCase s).

(** The template that builds a mess id from the two names and
    [Date.now()]. *)
Definition generateMessId (facilityName messName : string) (now : Z)
    : string :=
  slug facilityName +:+ "_" +:+ slug messName +:+ "_" +:+ string_of_int now.

(** The callback of [this.messes.find] in [addMess]. *)
Definition sameNameActive (messName : string) (mess : Mess) : bool :=
  bool_decide (toLowerCase (name mess) = toLowerCase messName) &&
  isActive mess.

(** [facilitySchema.methods.addMess]; [inl] is the thrown [Error]. *)
Definition addMess (now : Z) (this : Facility) (messData : MessData)
    : string + (string * Facility) :=
  let messId_ := generateMessId (f_name this) (md_name messData) now in
  match List.find (sameNameActive (md_name messData)) (messes this) with
  | Some _ => inl "Mess with this name already exists in this facility"
  | None =>
      inr (messId_,
           set_messes
             (messes this ++
              [mkMess (md_name messData) (Some messId_)
                 (md_description messData) (md_capacity messData) true now])
             this)
  end.

(** A mess of [f] that is active and carries [messName] up to the case
    of letters. *)
Definition nameTaken (f : Facility) (messName : string) : Prop :=
  ∃ mess, mess ∈ messes f ∧ isActive mess = true ∧
          toLowerCase (name mess) = toLowerCase messName.

(** *** The collection and Mongoose's [create] / [save] *)

(** Why a write was refused: a schema validator, or a unique index
    (driver error code 11000). *)
Inductive WriteError := ValidationFailure | DuplicateKey.

(** The [required] validators of the schema: the facility name, and the
    [name] and [messId] of every mess. *)
Definition validMess (m : Mess) : bool :=
  bool_decide (name m ≠ "") &&
  match messId m with
  | Some i => bool_decide (i ≠ "")
  | None => false
  end.

Definition validate (f : Facility) : bool :=
  bool_decide (f_name f ≠ "") && forallb validMess (messes f).

(** The unique indexes on [name] and on [messes.messId], checked against
    the other documents of the collection. *)
Definition messIds (f : Facility) : list string :=
  omap messId (messes f).

Definition clashes (f other : Facility) : bool :=
  bool_decide (f_name other = f_name f) ||
  existsb (fun i => bool_decide (i ∈ messIds other)) (messIds f).

Definition others (f : Facility) (coll : list Facility) : list Facility :=
  List.filter (fun g => negb (bool_decide (_id g = _id f))) coll.

Definition checkWrite (f : Facility) (coll : list Facility)
    : option WriteError :=
  if negb (validate f) then Some ValidationFailure
  else if existsb (clashes f) (others f coll) then Some DuplicateKey
  else None.

(** [Facility.create(doc)]. *)
Definition create (f : Facility) (coll : list Facility)
    : WriteError + list Facility :=
  match checkWrite f coll with
  | Some e => inl e
  | None => inr (coll ++ [f])
  end.

(** [facility.save()] of a loaded document. *)
Definition save (f : Facility) (coll : list Facility)
    : WriteError + list Facility :=
  match checkWrite f coll with
  | Some e => inl e
  | None =>
      inr (List.map (fun g => if bool_decide (_id g = _id f) then f else g)
             coll)
  end.

(** [Facility.findOne({ name })]. *)
Definition findByName (coll : list Facility) (n : string) : option Facility :=
  List.find (fun f => bool_decide (f_name f = n)) coll.

(** *** The controllers *)

Inductive Response :=
| FacilityCreated (f : Facility)     (* 201 *)
| FacilityAlreadyExists              (* 400 "Facility with this name already exists" *)
| CouldNotCreateFacility             (* 500 *)
| FacilityNotFound                   (* 404 *)
| MessAlreadyExists                  (* 400 "Mess with this name already exists in this facility" *)
| MessAdded (f : Facility)           (* 201 *)
| CouldNotAddMess                    (* 500 *)
| Registered (f : Facility) (messId_ : string)  (* the facility branch of register went through *)
| RegistrationRejected (message : string)      (* 400 *)
| RegistrationFailed.                (* 500 *)

(** Body of [POST /api/facilities]. *)
Record CreateBody := mkCreateBody {
  cb_name : string;
  cb_type : FacilityType;
  cb_messName : string
}.

(** [createFacility]; [now] is the clock behind the [createdAt] default,
    [newId] the id of the new document. *)
Definition createFacility (now : Z) (newId : ObjectId) (reqUser : User)
    (body : CreateBody) (coll : list Facility)
    : Response * list Facility :=
  match findByName coll (cb_name body) with
  | Some _ => (FacilityAlreadyExists, coll)
  | None =>
      let doc :=
        mkFacility newId (cb_name body) (cb_type body)
          [mkMess (cb_messName body) None
             (Some ("Main mess for " +:+ cb_name body)) (Some 200) true now]
          true (Some (Identity.id reqUser)) in
      match create doc coll with
      | inr coll' => (FacilityCreated doc, coll')
      | inl DuplicateKey => (FacilityAlreadyExists, coll)
      | inl ValidationFailure => (CouldNotCreateFacility, coll)
      end
  end.

(** Body of [POST /api/facilities/add-mess]. *)
Record AddMessBody := mkAddMessBody {
  am_facilityName : string;
  am_messName : string;
  am_description : option string;
  am_capacity : option Z
}.

(** [description || `${messName} at ${facilityName}`] and
    [capacity || 150]. *)
Definition descriptionOrDefault (body : AddMessBody) : string :=
  match am_description body with
  | Some d =>
      if bool_decide (d = "")
      then am_messName body +:+ " at " +:+ am_facilityName body else d
  | None => am_messName body +:+ " at " +:+ am_facilityName body
  end.

Definition capacityOrDefault (body : AddMessBody) : Z :=
  match am_capacity body with
  | Some c => if bool_decide (c = 0) then 150 else c
  | None => 150
  end.

(** [addMessToFacility]. *)
Definition addMessToFacility (now : Z) (body : AddMessBody)
    (coll : list Facility) : Response * list Facility :=
  match findByName coll (am_facilityName body) with
  | None => (FacilityNotFound, coll)
  | Some facility =>
      match List.find (fun mess => bool_decide (name mess = am_messName body))
              (messes facility) with
      | Some _ => (MessAlreadyExists, coll)
      | None =>
          let facility' :=
            set_messes
              (messes facility ++
               [mkMess (am_messName body) None
                  (Some (descriptionOrDefault body))
                  (Some (capacityOrDefault body)) true now])
              facility in
          match save facility' coll with
          | inr coll' => (MessAdded facility', coll')
          | inl _ => (CouldNotAddMess, coll)
          end
      end
  end.

(** The branch of [register] taken by a mess admin who names a facility,
    its type and a mess.  The lookup
    [{ name: { $regex: new RegExp(`^${facilityName}$`, "i") }, isActive: true }]
    is a case-insensitive comparison of the whole name (for names free of
    regular-expression metacharacters). *)
Definition findByNameIgnoreCase (coll : list Facility) (n : string)
    : option Facility :=
  List.find
    (fun f => bool_decide (toLowerCase (f_name f) = toLowerCase n) &&
              f_isActive f)
    coll.

Definition registerFacility (now : Z) (newId : ObjectId) (adminName : string)
    (facilityName : string) (facilityType : FacilityType) (messName : string)
    (coll : list Facility) : Response * list Facility :=
  let description_ := Some (messName +:+ " - Managed by " +:+ adminName) in
  match findByNameIgnoreCase coll facilityName with
  | Some existingFacility =>
      match addMess now existingFacility
              (mkMessData messName description_ None) with
      | inl message => (RegistrationRejected message, coll)
      | inr (messId_, facility) =>
          match save facility coll with
          | inr coll' => (Registered facility messId_, coll')
          | inl ValidationFailure =>
              (RegistrationRejected "Validation failed", coll)
          | inl DuplicateKey => (RegistrationRejected "E11000", coll)
          end
      end
  | None =>
      let messId_ := generateMessId facilityName messName now in
      let doc :=
        mkFacility newId facilityName facilityType
          [mkMess messName (Some messId_) description_ None true now]
          true None in
      match create doc coll with
      | inr coll' => (Registered doc messId_, coll')
      | inl _ => (RegistrationFailed, coll)
      end
  end.

End Directory.

(** ** Sample data

    Facility "SJ Hall" (a college) serves item X at lunch on one day. *)

Module Example.
Import JS Identity Feedback.

Definition hall : FacilityRef := mkFacilityRef (Some "sjhall") (Some college).

Definition alice : User := mkUser 101 Identity.student (Some hall) None.

Definition bob : User := mkUser 102 Identity.student (Some hall) None.

Definition lunchMenu : Scheduling.DailyMenu :=
  Scheduling.mkDailyMenu 0 "lunch" "sjhall" college_mess
    [Scheduling.mkMenuEntry 1 true Scheduling.ready] 1 (Some (num 50))
    (Scheduling.mkRatingStats 0 0%Qc
       (Scheduling.mkCategoryAverages 0%Qc 0%Qc 0%Qc 0%Qc) 0%Qc)
    Scheduling.published None.

Definition db0 : Db :=
  mkDb [] {[ 1%N := Catalog.newMenuItem "X" "sjhall" ]} {[ 7%N := lunchMenu ]}.

(** 13:00, 13:05 and 17:00 local time on the first day of the epoch;
    the argument is the id given to a document created then. *)
Definition at1300 (i : ObjectId) : Env := mkEnv 46800000 0 i.

Definition at1305 (i : ObjectId) : Env := mkEnv 47100000 0 i.

Definition at1700 (i : ObjectId) : Env := mkEnv 61200000 0 i.

Definition first : SubmitBody :=
  mkSubmitBody 1 7 (num 4) (mkCategoryRatings (num 4) (num 5) (num 3) (num 4))
    "lunch" 0 None.

Definition second : SubmitBody :=
  mkSubmitBody 1 7 (num 2) (mkCategoryRatings (num 2) (num 2) (num 1) (num 3))
    "lunch" 0 None.

Definition trace : list (Env * User * SubmitBody) :=
  [(at1300 1000, alice, first); (at1305 1001, bob, second)].

(** A rating for an item nobody created. *)
Definition missingItem : SubmitBody :=
  mkSubmitBody 99 7 (num 4) (mkCategoryRatings (num 4) (num 5) (num 3) (num 4))
    "lunch" 0 None.

(** Alice's rating as stored, and the states after her submission and
    after both submissions. *)
Definition firstRating : Rating := ratingDocument (at1300 1000) alice first.

Definition db1 : Db := snd (submitRating (at1300 1000) alice first db0).

Definition db2 : Db := snd (serveAll (submissions trace) db0).

(** Alice changes her mind at 13:05: the categories become 5, 5, 4, 4. *)
Definition revised : CategoryRatings :=
  mkCategoryRatings (num 5) (num 5) (num 4) (num 4).

Definition edit : Response * Db :=
  updateRating (at1305 0) alice 1000 (mkUpdateBody (Some revised)) db1.

(** Bob votes on Alice's rating: up at 13:05, down at 17:00. *)
Definition bobVotes : list (Env * string) :=
  [(at1305 0, "up"); (at1700 0, "down")].

Definition afterVotes : list Response * Db :=
  serveAll (votesOf bob 1000 bobVotes) db1.

(** Bob withdraws his rating at 13:30, within the hour. *)
Definition at1330 (i : ObjectId) : Env := mkEnv 48600000 0 i.

Definition withdrawal : Response * Db := deleteRating (at1330 0) bob 1001 db2.

(** The menu item as it stands after Alice's submission. *)
Definition itemAfterFirst : Catalog.MenuItem :=
  Catalog.preSave (Catalog.newMenuItem "X" "sjhall")
    (Catalog.updateRatings (Catalog.newMenuItem "X" "sjhall")
       (ratingArgument first)).

(** The admin of the mess, and the lunch menu in other states of its
    life. *)
Definition admin : User := mkUser 1 mess_admin None (Some hall).

Definition lunchMenuIn (s : Scheduling.Status)
    (entries : list Scheduling.MenuEntry) : Scheduling.DailyMenu :=
  Scheduling.mkDailyMenu 0 "lunch" "sjhall" college_mess entries
    (Z.of_nat (length entries)) (Some (num 50))
    (Scheduling.mkRatingStats 0 0%Qc
       (Scheduling.mkCategoryAverages 0%Qc 0%Qc 0%Qc 0%Qc) 0%Qc)
    s None.

Definition itemX : Scheduling.MenuEntry :=
  Scheduling.mkMenuEntry 1 true Scheduling.ready.

Definition draftMenu : Scheduling.DailyMenu := lunchMenuIn Scheduling.draft [itemX].

Definition completedMenu : Scheduling.DailyMenu :=
  lunchMenuIn Scheduling.completed [itemX].

End Example.

Module DirectoryExample.
Import Identity Directory.

Definition sjMess : Mess :=
  mkMess "SJ Mess" (Some "sj_hall_sj_mess_1700000000000") None (Some 200) true
    1700000000000.

Definition sjHall : Facility :=
  mkFacility 1 "SJ Hall" college [sjMess] true None.

Definition northHall : Facility :=
  mkFacility 2 "North Hall" hostel [] true None.

(** The same mess name in another spelling. *)
Definition sameName : MessData := mkMessData "sj mess" None None.

Definition admin : User :=
  mkUser 1 mess_admin None (Some (mkFacilityRef (Some "1") (Some college))).

Definition newHall : CreateBody := mkCreateBody "SJ Hall" college "SJ Mess".

End DirectoryExample.

(** ** Arrays of subdocuments *)

Module Arrays.

(** [array.find(p)] followed by assignments to fields of the element
    found: the first element that satisfies [p] is replaced by its new
    version. *)
Fixpoint replaceFirst {A} (p : A → bool) (x' : A) (l : list A) : list A :=
  match l with
  | [] => []
  | x :: rest => if p x then x' :: rest else x :: replaceFirst p x' rest
  end.

End Arrays.

(** ** The statistics of a daily menu and the summary of an item's
    ratings: [submitRating] and [getMenuItemRatings] of
    [backend/controllers/rating.js] *)

Module Statistics.
Import JS Identity Feedback.

(** The bodies of the submissions for the daily menu [menuId] that were
    answered with 201, in order. *)
Fixpoint acceptedOn (menuId : ObjectId)
    (trace : list (Env * User * SubmitBody)) (replies : list Response)
    : list SubmitBody :=
  match trace, replies with
  | (_, _, b) :: trace', reply :: replies' =>
      (if isCreated reply && bool_decide (b_dailyMenuId b = menuId)
       then [b] else []) ++ acceptedOn menuId trace' replies'
  | _, _ => []
  end.

(** [ratingStats] counts [bodies] and, once there is one, holds their
    means. *)
Definition statsAreMeanOf (bodies : list SubmitBody)
    (rs : Scheduling.RatingStats) : Prop :=
  Scheduling.totalRatings rs = Z.of_nat (length bodies) ∧
  (bodies ≠ [] →
   Scheduling.averageRating rs = mean (List.map b_overallRating bodies) ∧
   Scheduling.taste (Scheduling.categoryAverages rs) =
     mean (List.map (fun b => taste (b_categoryRatings b)) bodies) ∧
   Scheduling.quantity (Scheduling.categoryAverages rs) =
     mean (List.map (fun b => quantity (b_categoryRatings b)) bodies) ∧
   Scheduling.freshness (Scheduling.categoryAverages rs) =
     mean (List.map (fun b => freshness (b_categoryRatings b)) bodies) ∧
   Scheduling.value (Scheduling.categoryAverages rs) =
     mean (List.map (fun b => value (b_categoryRatings b)) bodies)).

(** The element that [Rating.aggregate] returns in [getMenuItemRatings]. *)
Record Summary := mkSummary {
  totalRatings : Z;
  averageOverall : number;
  averageTaste : number;
  averageQuantity : number;
  averageFreshness : number;
  averageValue : number;
  ratingDistribution : list number
}.

(** The [$match] stage: the item's ratings that are active, narrowed by
    the [mealDate] and [facilityId] of the query string when they are
    given (an empty [facilityId] is falsy and does not narrow). *)
Definition matched (db : Db) (menuItemId : ObjectId) (mealDate_ : option Z)
    (facilityId_ : option string) : list Rating :=
  List.filter
    (fun r =>
       bool_decide (menuItem r = menuItemId) && isActive r &&
       match mealDate_ with
       | Some d => bool_decide (mealDate r = d)
       | None => true
       end &&
       match truthy facilityId_ with
       | Some f => bool_decide (facilityId r = Some f)
       | None => true
       end)
    (ratings db).

(** The [$group] stage and [ratingSummary[0] || null]. *)
Definition ratingSummary (db : Db) (menuItemId : ObjectId)
    (mealDate_ : option Z) (facilityId_ : option string) : option Summary :=
  match matched db menuItemId mealDate_ facilityId_ with
  | [] => None
  | rs =>
      Some
        (mkSummary (Z.of_nat (length rs))
           (mean (List.map overallRating rs))
           (mean (List.map (fun r => taste (categoryRatings r)) rs))
           (mean (List.map (fun r => quantity (categoryRatings r)) rs))
           (mean (List.map (fun r => freshness (categoryRatings r)) rs))
           (mean (List.map (fun r => value (categoryRatings r)) rs))
           (List.map overallRating rs))
  end.

(** The score the [pre("save")] hook of a menu item derives from its
    aggregate. *)
Definition popularityOf (m : Catalog.MenuItem) : number :=
  (Catalog.averageRating m * (num 7 / num 10) +
   Math_min (num (Catalog.totalRatings m) / num 100) (num 1) *
     (num 3 / num 10))%Qc.

(** A ledger whose entries all carry one of the two vote types. *)
Definition votesValid (r : Rating) : Prop :=
  Forall (fun v => vote v = "up" ∨ vote v = "down") (voters (helpfulVotes r)).

End Statistics.


(** ** The stored ratings along a trace *)

Module Ledgers.
Import JS Identity Feedback.

(** The ids the driver hands to the ratings a trace submits. *)
Definition newIds (trace : list (Env * User * Request)) : list ObjectId :=
  flat_map
    (fun '(env, _, rq) =>
       match rq with
       | SubmitRating _ => [newId env]
       | _ => []
       end)
    trace.

(** What [submitRating] looks a rating up by: the student, the item, the
    meal date and the meal type. *)
Definition mealKey (r : Rating) : ObjectId * ObjectId * Z * string :=
  (student r, menuItem r, mealDate r, mealType r).

(** The replies with status 201 among [replies]. *)
Definition created (replies : list Response) : list Response :=
  List.filter isCreated replies.

End Ledgers.

(** ** Names as they are stored and looked up

    The schemas of [backend/models/Facility.js] declare the facility name
    and the mess name with [trim: true]: Mongoose stores
    [String.prototype.trim] of the value it is given.  [register] looks a
    facility up with [new RegExp(`^${facilityName}$`, "i")], so the name
    is read as a regular expression.  [Directory.addMess] and
    [Directory.findByNameIgnoreCase] store and compare names as given;
    they stand for the code on the names described here, for which the
    setter changes nothing and the expression matches its own text. *)

Module Names.
Import JS.

(** Every character is an ASCII character. *)
Fixpoint ascii_only (s : string) : bool :=
  match s with
  | EmptyString => true
  | String c s' => bool_decide (N_of_ascii c < 128)%N && ascii_only s'
  end.

(** [String.prototype.trimStart], [trimEnd] and [trim] on ASCII white
    space. *)
Fixpoint trimStart (s : string) : string :=
  match s with
  | EmptyString => EmptyString
  | String c s' => if is_space c then trimStart s' else s
  end.

Fixpoint trimEnd (s : string) : string :=
  match s with
  | EmptyString => EmptyString
  | String c s' =>
      match trimEnd s' with
      | EmptyString => if is_space c then EmptyString else String c EmptyString
      | rest => String c rest
      end
  end.

Definition trim (s : string) : string := trimEnd (trimStart s).

(** A name the [trim] setter stores as it is given: ASCII only (so that
    no other white space of Unicode is involved) and without white space
    at either end. *)
Definition storedAsGiven (s : string) : bool :=
  ascii_only s && bool_decide (trim s = s).




End Names.

(** ** More of the directory: the remaining methods of
    [backend/models/Facility.js] and [updateMess] of
    [backend/controllers/facility.js] *)

Module Messes.
Import JS Arrays Identity Directory.

(** The virtual [activeMessesCount]. *)
Definition activeMessesCount (f : Facility) : Z :=
  Z.of_nat (length (List.filter isActive (messes f))).

(** The active messes of a facility carry pairwise different names, up
    to the case of letters: the rule [addMess] enforces. *)
Definition uniqueActiveNames (f : Facility) : Prop :=
  NoDup (List.map (fun m => toLowerCase (name m))
           (List.filter isActive (messes f))).

Definition hasMessId (messId_ : string) (m : Mess) : bool :=
  bool_decide (messId m = Some messId_).

Definition set_isActive (b : bool) (m : Mess) : Mess :=
  mkMess (name m) (messId m) (description m) (capacity m) b (createdAt m).

(** [facilitySchema.methods.deactivateMess]; [inl] is the thrown
    [Error], [inr] the returned mess with the facility as it is left. *)
Definition deactivateMess (this : Facility) (messId_ : string)
    : string + (Mess * Facility) :=
  match List.find (hasMessId messId_) (messes this) with
  | None => inl "Mess not found"
  | Some mess =>
      let mess' := set_isActive false mess in
      inr (mess',
           set_messes (replaceFirst (hasMessId messId_) mess' (messes this))
             this)
  end.

(** [Facility.findById]. *)
Definition findById (coll : list Facility) (facilityId_ : ObjectId)
    : option Facility :=
  List.find (fun f => bool_decide (_id f = facilityId_)) coll.

(** [facilitySchema.statics.isMessNameUnique]; [excludeMessId] is [None]
    for [null], and an empty string is as falsy as [null]. *)
Definition isMessNameUnique (coll : list Facility) (facilityId_ : ObjectId)
    (messName : string) (excludeMessId : option string) : bool :=
  match findById coll facilityId_ with
  | None => false
  | Some facility =>
      match
        List.find
          (fun mess =>
             bool_decide (toLowerCase (name mess) = toLowerCase messName) &&
             isActive mess &&
             match Feedback.truthy excludeMessId with
             | Some e => negb (bool_decide (messId mess = Some e))
             | None => true
             end)
          (messes facility)
      with
      | Some _ => false
      | None => true
      end
  end.

(** The [updates] object of [PUT /api/facilities/mess]: a key that is
    absent or [undefined] is [None]. *)
Record MessUpdates := mkMessUpdates {
  up_name : option string;
  up_messId : option string;
  up_description : option string;
  up_capacity : option Z;
  up_isActive : option bool;
  up_createdAt : option Z
}.

(** The [forEach] over [Object.keys(updates)]. *)
Definition applyUpdates (updates : MessUpdates) (m : Mess) : Mess :=
  mkMess
    (default (name m) (up_name updates))
    (match up_messId updates with Some i => Some i | None => messId m end)
    (match up_description updates with
     | Some d => Some d
     | None => description m
     end)
    (match up_capacity updates with Some c => Some c | None => capacity m end)
    (default (isActive m) (up_isActive updates))
    (default (createdAt m) (up_createdAt updates)).


Inductive UpdateResponse :=
| NoSuchFacility                     (* 404 "Facility not found" *)
| NoSuchMess                         (* 404 "Mess not found" *)
| MessUpdated (mess : Mess)          (* 200 *)
| CouldNotUpdateMess.                (* 500 *)



End Messes.

Module MessesExample.
Import Identity Directory Messes.



End MessesExample.

(** ** Preparing a meal: the entry methods and [completionPercentage] of
    [backend/models/DailyMenu.js] *)

Module Preparation.
Import JS Arrays Identity.

(** An element of [dailyMenu.menuItems] with the fields the two methods
    set. *)
Record Entry := mkEntry {
  item : ObjectId;
  isAvailable : bool;
  servingSize : option string;
  specialNotes : option string;
  estimatedQuantity : option number;
  costPerServing : option number;
  preparationStatus : Scheduling.PreparationStatus;
  actualReady : option Z;             (* preparationTime.actualReady *)
  addedAt : Z
}.

(** The [options] argument of [addMenuItem]. *)
Record Options := mkOptions {
  o_isAvailable : option bool;
  o_servingSize : option string;
  o_specialNotes : option string;
  o_estimatedQuantity : option number;
  o_costPerServing : option number
}.

Definition hasItem (itemId : ObjectId) (e : Entry) : bool :=
  bool_decide (item e = itemId).

(** [dailyMenuSchema.methods.addMenuItem] on [this.menuItems]; [inl] is
    the thrown [Error], [now] the clock behind the [addedAt] default. *)
Definition addMenuItem (now : Z) (menuItems : list Entry) (itemId : ObjectId)
    (options : Options) : string + list Entry :=
  match List.find (hasItem itemId) menuItems with
  | Some _ => inl "Menu item already exists in this meal"
  | None =>
      inr (menuItems ++
           [mkEntry itemId
              (negb (bool_decide (o_isAvailable options = Some false)))
              (o_servingSize options) (o_specialNotes options)
              (o_estimatedQuantity options) (o_costPerServing options)
              Scheduling.not_started None now])
  end.

(** [dailyMenuSchema.methods.updateItemStatus]; [notes] defaults to the
    empty string, which is falsy. *)
Definition updateItemStatus (now : Z) (menuItems : list Entry)
    (itemId : ObjectId) (status : Scheduling.PreparationStatus)
    (notes : string) : string + list Entry :=
  match List.find (hasItem itemId) menuItems with
  | None => inl "Menu item not found"
  | Some menuItem =>
      let menuItem' :=
        mkEntry (item menuItem) (isAvailable menuItem) (servingSize menuItem)
          (if bool_decide (notes = "") then specialNotes menuItem
           else Some notes)
          (estimatedQuantity menuItem) (costPerServing menuItem) status
          (match status with
           | Scheduling.ready => Some now
           | _ => actualReady menuItem
           end)
          (addedAt menuItem) in
      inr (replaceFirst (hasItem itemId) menuItem' menuItems)
  end.

(** The callback of the [filter] in [completionPercentage]. *)
Definition isDone (e : Entry) : bool :=
  match preparationStatus e with
  | Scheduling.ready | Scheduling.served_out => true
  | _ => false
  end.

(** The virtual [completionPercentage]. *)
Definition completionPercentage (menuItems : list Entry) : number :=
  if bool_decide (length menuItems = 0%nat) then 0%Qc
  else
    let readyItems := length (List.filter isDone menuItems) in
    Math_round
      (num (Z.of_nat readyItems) / num (Z.of_nat (length menuItems))
       * num 100)%Qc.

End Preparation.

(** ** Availability of a menu item: [checkAvailability] of
    [backend/models/MenuItem.js] *)

Module Availability.

(** [menuItem.availability]. *)
Record Availability := mkAvailability {
  isAvailable : bool;
  reason : option string;
  estimatedAvailableAt : option Z
}.

(** [menuItemSchema.methods.checkAvailability]: the value returned and
    [this.availability] as the call leaves it; [isActive] is
    [this.isActive], [now] is [new Date()]. *)
Definition checkAvailability (now : Z) (isActive : bool) (a : Availability)
    : bool * Availability :=
  if negb isActive then (false, a)
  else if negb (isAvailable a) then
    match estimatedAvailableAt a with
    | Some t =>
        if bool_decide (t ≤ now) then (true, mkAvailability true None None)
        else (isAvailable a, a)
    | None => (isAvailable a, a)
    end
  else (isAvailable a, a).

End Availability.

(** ** Signing in: [login] of [backend/controllers/auth.js] with the lock
    methods of [backend/models/User.js] *)

Module Login.
Import JS Identity.

(** The fields of a user document that [login] reads or writes.
    [password] is the stored hash; [loginAttempts] is [0] while the path
    is unset (the schema default). *)
Record Account := mkAccount {
  _id : ObjectId;
  email : string;
  password : string;
  isActive : bool;
  loginAttempts : Z;
  lockUntil : option Z;
  lastLogin : option Z
}.

(** The virtual [isLocked]; [now] is [Date.now()]. *)
Definition isLocked (now : Z) (a : Account) : bool :=
  match lockUntil a with
  | Some t => bool_decide (now < t)
  | None => false
  end.

(** The clock readings of one call of [login], in the order in which the
    code takes them.  [login] reads [Date.now()] once, in the [isLocked]
    that guards the password check.  After [await comparePassword],
    [incLoginAttempts] reads it three more times: in its test for a lock
    that has run out, in the [isLocked] it evaluates before locking, and
    for the new [lockUntil].  On success [new Date()] is read for
    [lastLogin]. *)
Record Clock := mkClock {
  atLockTest : Z;
  atExpiryTest : Z;
  atRelockTest : Z;
  atLockStart : Z;
  atSignIn : Z
}.

(** Later readings are not earlier. *)
Definition inOrder (c : Clock) : Prop :=
  atLockTest c ≤ atExpiryTest c ∧ atExpiryTest c ≤ atRelockTest c ∧
  atRelockTest c ≤ atLockStart c ∧ atLockTest c ≤ atSignIn c.

(** All readings of a call within one millisecond. *)
Definition instant (now : Z) : Clock := mkClock now now now now now.

(** The document after the [updateOne] of [incLoginAttempts]. *)
Definition incLoginAttempts (c : Clock) (a : Account) : Account :=
  let expired :=
    match lockUntil a with
    | Some t => bool_decide (t < atExpiryTest c)
    | None => false
    end in
  if expired then
    mkAccount (_id a) (email a) (password a) (isActive a) 1 None (lastLogin a)
  else
    mkAccount (_id a) (email a) (password a) (isActive a)
      (loginAttempts a + 1)
      (if bool_decide (5 ≤ loginAttempts a + 1) &&
          negb (isLocked (atRelockTest c) a)
       then Some (atLockStart c + 2 * 60 * 60 * 1000) else lockUntil a)
      (lastLogin a).

(** The document after the [updateOne] of [resetLoginAttempts]. *)
Definition resetLoginAttempts (a : Account) : Account :=
  mkAccount (_id a) (email a) (password a) (isActive a) 0 None (lastLogin a).

Definition set_lastLogin (t : Z) (a : Account) : Account :=
  mkAccount (_id a) (email a) (password a) (isActive a) (loginAttempts a)
    (lockUntil a) (Some t).

Inductive Response :=
| MissingCredentials                 (* 400 "Please provide email and password" *)
| InvalidCredentials                 (* 401 "Invalid credentials" *)
| AccountLocked                      (* 423 *)
| AccountDeactivated                 (* 401 "Account has been deactivated" *)
| LoginSuccessful.                   (* 200 *)

Record Credentials := mkCredentials {
  c_email : string;
  c_password : string
}.

(** [User.findOne({ email })].  Stored addresses are compared as they
    are; the lower-casing and trimming that the schema asks for when a
    query is cast are not represented, so a request is taken to spell
    the address the way it is stored. *)
Definition findByEmail (users : list Account) (e : string) : option Account :=
  List.find (fun a => bool_decide (email a = e)) users.

(** A write to the document with the id of [a]. *)
Definition store (a : Account) (users : list Account) : list Account :=
  List.map (fun x => if bool_decide (_id x = _id a) then a else x) users.

Section WithHash.

(** [bcrypt.compare(candidate, hash)]. *)
Variable bcrypt_compare : string → string → bool.

(** [userSchema.methods.comparePassword]. *)
Definition comparePassword (a : Account) (candidatePassword : string) : bool :=
  if bool_decide (password a = "") then false
  else bcrypt_compare candidatePassword (password a).

(** [login]; an absent or empty field of the body is the empty string. *)
Definition login (c : Clock) (body : Credentials) (users : list Account)
    : Response * list Account :=
  if bool_decide (c_email body = "") || bool_decide (c_password body = "")
  then (MissingCredentials, users)
  else
    match findByEmail users (c_email body) with
    | None => (InvalidCredentials, users)
    | Some user =>
        if isLocked (atLockTest c) user then (AccountLocked, users)
        else if negb (isActive user) then (AccountDeactivated, users)
        else if negb (comparePassword user (c_password body))
        then (InvalidCredentials, store (incLoginAttempts c user) users)
        else
          let user1 :=
            if bool_decide (0 < loginAttempts user)
            then resetLoginAttempts user else user in
          (LoginSuccessful, store (set_lastLogin (atSignIn c) user1) users)
    end.

(** Sign-in attempts served one after the other. *)
Fixpoint loginAll (attempts : list (Clock * Credentials))
    (users : list Account) : list Response * list Account :=
  match attempts with
  | [] => ([], users)
  | (c, body) :: rest =>
      let '(reply, users1) := login c body users in
      let '(replies, users2) := loginAll rest users1 in
      (reply :: replies, users2)
  end.

End WithHash.

End Login.

Module LoginExample.
Import Login.

(** A hash function for the examples: the password itself. *)
Definition plain (candidate hash : string) : bool :=
  bool_decide (candidate = hash).

Definition asha : Account :=
  mkAccount 1 "asha@example.org" "correct horse" true 0 None None.

Definition wrong : Credentials := mkCredentials "asha@example.org" "guess".

Definition right : Credentials :=
  mkCredentials "asha@example.org" "correct horse".

End LoginExample.


(** ** Editing a daily menu: [updateDailyMenu] of
    [backend/controllers/menu.js] *)

Module MenuUpdates.
Import JS Identity Scheduling.

(** The fields of the body that [DailyMenu] above carries; [None] is
    [undefined].  The handler copies [servingTime], [specialOccasion],
    [announcements], [chefDetails], [budgetInfo] and [qualityChecks] in
    the same way; the record of a daily menu used here does not hold
    them. *)
Record UpdateBody := mkUpdateBody {
  ub_menuItems : option (list MenuEntry);
  ub_expectedStudents : option number;
  ub_status : option Status
}.

Inductive UpdateResponse :=
| MenuNotFound                       (* 404 "Daily menu not found" *)
| MenuUpdated (m : DailyMenu)        (* 200 *)
| CouldNotUpdateMenu.                (* 500 *)

(** The [forEach] over [allowedUpdates] and the assignment of
    [lastModifiedBy]. *)
Definition applyUpdates (by_ : ObjectId) (body : UpdateBody) (m : DailyMenu)
    : DailyMenu :=
  mkDailyMenu (date m) (mealType m) (facilityId m) (messType m)
    (default (menuItems m) (ub_menuItems body))
    (totalItems m)
    (match ub_expectedStudents body with
     | Some e => Some e
     | None => expectedStudents m
     end)
    (ratingStats m)
    (default (status m) (ub_status body))
    (Some by_).

(** The validator of the one modified path that has one: [min: 0] on
    [expectedStudents]. *)
Definition validUpdate (body : UpdateBody) : bool :=
  match ub_expectedStudents body with
  | Some e => bool_decide (0 ≤ e)%Qc
  | None => true
  end.

(** [updateDailyMenu]. *)
Definition updateDailyMenu (user : User) (id : ObjectId) (body : UpdateBody)
    (menus : gmap ObjectId DailyMenu)
    : UpdateResponse * gmap ObjectId DailyMenu :=
  match findOne menus id (req_facilityId user) (req_messType user) with
  | None => (MenuNotFound, menus)
  | Some dailyMenu =>
      if negb (validUpdate body) then (CouldNotUpdateMenu, menus)
      else
        let dailyMenu' :=
          preSave (applyUpdates (Identity.id user) body dailyMenu) in
        (MenuUpdated dailyMenu', <[id := dailyMenu']> menus)
  end.

(** A body that sets the status and nothing else. *)
Definition setStatus (s : Status) : UpdateBody :=
  mkUpdateBody None None (Some s).

End MenuUpdates.


(** ** Statistics of a facility: [getFacilityStats] of
    [backend/controllers/rating.js] and of [backend/models/Rating.js] *)

Module FacilityStats.
Import JS Identity Feedback.

(** One group of the aggregation, keyed by its meal type. *)
Record MealStats := mkMealStats {
  ms_mealType : string;
  totalRatings : Z;
  avgOverall : number;
  avgTaste : number;
  avgQuantity : number;
  avgFreshness : number;
  avgValue : number
}.

(** The [$match] stage of [ratingSchema.statics.getFacilityStats]. *)
Definition matched (db : Db) (facilityId_ : option string)
    (messType_ : MessType) (start end_ : Z) : list Rating :=
  List.filter
    (fun r =>
       bool_decide (facilityId r = facilityId_) &&
       bool_decide (messType r = messType_) &&
       isActive r &&
       bool_decide (start ≤ mealDate r) && bool_decide (mealDate r ≤ end_))
    (ratings db).

(** The group of one meal type, if it has a rating. *)
Definition groupOf (rs : list Rating) (mealType_ : string)
    : option MealStats :=
  match List.filter (fun r => bool_decide (mealType r = mealType_)) rs with
  | [] => None
  | g =>
      Some
        (mkMealStats mealType_ (Z.of_nat (length g))
           (mean (List.map overallRating g))
           (mean (List.map (fun r => taste (categoryRatings r)) g))
           (mean (List.map (fun r => quantity (categoryRatings r)) g))
           (mean (List.map (fun r => freshness (categoryRatings r)) g))
           (mean (List.map (fun r => value (categoryRatings r)) g)))
  end.

(** The [$group] and [$sort] stages: one group per meal type that
    occurs, in the order of the keys.  The meal types are the four of
    the schema's enum. *)
Definition statics_getFacilityStats (db : Db) (facilityId_ : option string)
    (messType_ : MessType) (start end_ : Z) : list MealStats :=
  omap (groupOf (matched db facilityId_ messType_ start end_))
    ["breakfast"; "dinner"; "lunch"; "snack"].

(** The [summary] of the reply of [getFacilityStats]; [start] and [end_]
    are the two dates of the range. *)
Definition getFacilityStats (reqUser : User) (start end_ : Z) (db : Db)
    : list MealStats :=
  statics_getFacilityStats db
    (truthy (facilityId_of (adminFacility reqUser)) ∪
     facilityId_of (selectedFacility reqUser))
    (resolveMessType reqUser) start end_.

End FacilityStats.

(** ** The aggregate in double precision: [updateRatings] of
    [backend/models/MenuItem.js] as JavaScript evaluates it

    [Catalog.updateRatings] computes in exact rationals.  The stored
    aggregate is a double, and every product, sum and quotient of
    [updateRatings] is rounded to the nearest double; this module has
    the same method on doubles.  [submitRating] calls it once for every
    rating it accepts, with the overall rating and the four category
    ratings of the body, and nothing else writes the aggregate of an
    item whose ratings are neither edited nor deleted. *)

Module Doubles.
Import PrimFloat.

(** A JavaScript [Number]: an IEEE 754 binary64 value; the operations
    round to nearest, ties to even. *)
Abbreviation number := float.

(** A count as a [Number]; exact for the counts up to [2^53]. *)
Definition num (z : Z) : number := of_uint63 (Uint63.of_Z z).

(** [categoryRatings.<category>] of a menu item. *)
Record CategoryData := mkCategoryData {
  average : number;
  count : Z
}.

Record CategoryRatings := mkCategoryRatings {
  taste : CategoryData;
  quantity : CategoryData;
  freshness : CategoryData;
  value : CategoryData
}.

(** The fields of a menu item that [updateRatings] reads and writes. *)
Record MenuItem := mkMenuItem {
  totalRatings : Z;
  averageRating : number;
  categoryRatings : CategoryRatings
}.

(** The argument of [updateRatings]; a category may be [undefined]. *)
Record NewRating := mkNewRating {
  nr_overall : number;
  nr_taste : option number;
  nr_quantity : option number;
  nr_freshness : option number;
  nr_value : option number
}.

(** Body of the [forEach] callback of [updateRatings]. *)
Definition updateCategory (categoryData : CategoryData)
    (newValue : option number) : CategoryData :=
  match newValue with
  | Some v =>
      let totalCategoryScore :=
        (average categoryData * num (count categoryData) + v)%float in
      let count' := count categoryData + 1 in
      mkCategoryData (totalCategoryScore / num count')%float count'
  | None => categoryData
  end.

(** [menuItemSchema.methods.updateRatings]. *)
Definition updateRatings (this : MenuItem) (newRating : NewRating)
    : MenuItem :=
  let totalScore :=
    (averageRating this * num (totalRatings this) +
     nr_overall newRating)%float in
  let totalRatings' := totalRatings this + 1 in
  let averageRating' := (totalScore / num totalRatings')%float in
  let c := categoryRatings this in
  mkMenuItem totalRatings' averageRating'
    (mkCategoryRatings
       (updateCategory (taste c) (nr_taste newRating))
       (updateCategory (quantity c) (nr_quantity newRating))
       (updateCategory (freshness c) (nr_freshness newRating))
       (updateCategory (value c) (nr_value newRating))).

(** The aggregate as the schema defaults create it. *)
Definition emptyCategory : CategoryData := mkCategoryData 0%float 0.

Definition newMenuItem : MenuItem :=
  mkMenuItem 0 0%float
    (mkCategoryRatings emptyCategory emptyCategory emptyCategory
       emptyCategory).


(** The running mean of a list of values: the average that the update
    [average := (average * count + v) / (count + 1)] leaves behind when
    it is carried out for one value after the other. *)
Definition step (d : CategoryData) (v : number) : CategoryData :=
  updateCategory d (Some v).

Definition runningMean (vals : list number) : number :=
  average (foldl step emptyCategory vals).

(** The arithmetic mean of a list of values, the sum over the number of
    values, in doubles. *)
Definition sum (vals : list number) : number := foldl add 0%float vals.

Definition mean (vals : list number) : number :=
  (sum vals / num (Z.of_nat (length vals)))%float.




End Doubles.

Module DoublesExample.
Import PrimFloat Doubles.




End DoublesExample.

(** * Properties *)

(** ** Arithmetic of running means *)

Section RunningMean.
Import JS.

Lemma num_add a b : num (a + b) = (num a + num b)%Qc.
Proof. apply Z2Qc_inj_add. Qed.

Lemma num_0 : num 0 = 0%Qc.
Proof. apply Z2Qc_inj_0. Qed.

Lemma num_1 : num 1 = 1%Qc.
Proof. apply Z2Qc_inj_1. Qed.

Lemma num_mul a b : num (a * b) = (num a * num b)%Qc.
Proof. apply Z2Qc_inj_mul. Qed.

Lemma num_lt a b : a < b ↔ (num a < num b)%Qc.
Proof. apply Z2Qc_inj_lt. Qed.

Lemma num_le a b : a ≤ b ↔ (num a ≤ num b)%Qc.
Proof. apply Z2Qc_inj_le. Qed.

Lemma num_nonzero z : z ≠ 0 → num z ≠ 0%Qc.
Proof. intros Hz H. rewrite <- num_0 in H. apply Z2Qc_inj in H. done. Qed.

Lemma sum_snoc l x : sum (l ++ [x]) = (sum l + x)%Qc.
Proof.
  induction l as [|y l IH]; simpl.
  - ring.
  - unfold sum in *. simpl. rewrite IH. ring.
Qed.

Lemma sum_app l1 l2 : sum (l1 ++ l2) = (sum l1 + sum l2)%Qc.
Proof.
  unfold sum. induction l1 as [|y l1 IH]; simpl.
  - ring.
  - rewrite IH. ring.
Qed.

(** The stored mean times the stored count gives back the sum, also for
    the empty list, where both are zero. *)
Lemma mean_times_length l :
  (mean l * num (Z.of_nat (length l)))%Qc = sum l.
Proof.
  unfold mean. destruct l as [|y l].
  - unfold sum. cbn [length foldr]. change (Z.of_nat 0) with 0.
    rewrite num_0. ring.
  - field. apply num_nonzero. simpl length. lia.
Qed.

(** One insertion step [(old * n + x) / (n + 1)]. *)
Lemma mean_snoc l x :
  ((mean l * num (Z.of_nat (length l)) + x) / num (Z.of_nat (length l) + 1))%Qc
  = mean (l ++ [x]).
Proof.
  rewrite mean_times_length. unfold mean at 1.
  rewrite sum_snoc, length_app. simpl length.
  replace (Z.of_nat (length l + 1)) with (Z.of_nat (length l) + 1) by lia.
  reflexivity.
Qed.

End RunningMean.

(** ** Submissions *)

Section Submissions.
Import JS Identity Feedback.

(** A submission either changes nothing and is not answered with 201, or
    it passed every check and wrote the three documents. *)
Lemma submitRating_inv env u b db reply db' :
  submitRating env u b db = (reply, db') →
  (isCreated reply = false ∧ db' = db) ∨
  (∃ m dm,
      reply = Created (ratingDocument env u b) ∧
      findExisting db (Identity.id u) (b_menuItemId b) (b_mealDate b)
        (b_mealType b) = None ∧
      menuItems db !! b_menuItemId b = Some m ∧
      dailyMenus db !! b_dailyMenuId b = Some dm ∧
      validate (ratingDocument env u b) = true ∧
      ratings db' = ratings db ++ [ratingDocument env u b] ∧
      menuItems db' =
        <[b_menuItemId b :=
            Catalog.preSave m (Catalog.updateRatings m (ratingArgument b))]>
          (menuItems db) ∧
      dailyMenus db' =
        <[b_dailyMenuId b :=
            Scheduling.preSave
              (Scheduling.updateParticipationRate
                 (updateRatingStats (b_overallRating b)
                    (b_categoryRatings b) dm))]>
          (dailyMenus db)).
Proof.
  unfold submitRating. intros H.
  destruct (findExisting _ _ _ _ _) eqn:Hex; [left; by inversion H|].
  destruct (menuItems db !! _) as [m|] eqn:Hm; [|left; by inversion H].
  destruct (dailyMenus db !! _) as [dm|] eqn:Hd; [|left; by inversion H].
  destruct (validate (ratingDocument env u b)) eqn:Hv;
    simpl in H; [|left; by inversion H].
  right. inversion H; subst; clear H.
  exists m, dm. repeat split; try done.
Qed.

Lemma post_rating_inv env u b db reply db' :
  post_rating env u b db = (reply, db') →
  (isCreated reply = false ∧ db' = db) ∨
  (validateMealTime env b = None ∧ validateRating b = true ∧
   role u = Identity.student ∧
   submitRating env u b db = (reply, db') ∧ isCreated reply = true).
Proof.
  unfold post_rating. intros H.
  destruct (authorize _ u) eqn:Ha; simpl in H; [|left; by inversion H].
  destruct (validateMealTime env b) eqn:Ht.
  { inversion H; subst. left.
    unfold validateMealTime in Ht.
    repeat (case_match; simplify_eq); done. }
  destruct (validateRating b) eqn:Hv; simpl in H; [|left; by inversion H].
  destruct (submitRating_inv _ _ _ _ _ _ H) as [[? ?]|(?&?&->&?)]; [by left|].
  right. repeat split; try done.
  unfold authorize in Ha. apply bool_decide_eq_true in Ha.
  by apply list_elem_of_singleton in Ha.
Qed.

Lemma updateCategory_mean vals d x :
  categoryIsMeanOf vals d →
  categoryIsMeanOf (vals ++ [x]) (Catalog.updateCategory d (Some x)).
Proof.
  intros [Hc Ha]. unfold categoryIsMeanOf, Catalog.updateCategory. simpl.
  rewrite Hc, Ha, mean_snoc, length_app. simpl. split; [lia|done].
Qed.

Lemma updateRatings_mean bodies m b :
  aggregateIsMeanOf bodies m →
  aggregateIsMeanOf (bodies ++ [b])
    (Catalog.updateRatings m (ratingArgument b)).
Proof.
  intros (Ht & Ha & H1 & H2 & H3 & H4).
  unfold aggregateIsMeanOf. rewrite !map_app.
  cbn [List.map Catalog.updateRatings ratingArgument Catalog.totalRatings
       Catalog.averageRating Catalog.categoryRatings Catalog.taste
       Catalog.quantity Catalog.freshness Catalog.value
       Catalog.nr_overall Catalog.nr_taste Catalog.nr_quantity
       Catalog.nr_freshness Catalog.nr_value].
  split; [|split; [|split; [|split; [|split]]]].
  - rewrite Ht, length_app. simpl. lia.
  - rewrite Ha, Ht, <- (length_map b_overallRating bodies).
    apply mean_snoc.
  - by apply updateCategory_mean.
  - by apply updateCategory_mean.
  - by apply updateCategory_mean.
  - by apply updateCategory_mean.
Qed.

Lemma preSave_mean bodies stored m :
  aggregateIsMeanOf bodies (Catalog.preSave stored m) ↔
  aggregateIsMeanOf bodies m.
Proof. unfold Catalog.preSave. by case_match. Qed.

Lemma newMenuItem_mean n f : aggregateIsMeanOf [] (Catalog.newMenuItem n f).
Proof.
  unfold aggregateIsMeanOf, categoryIsMeanOf, mean. simpl.
  repeat split; apply Qc_is_canon; reflexivity.
Qed.

(** Whatever mix of accepted and rejected submissions, for this item and
    for others, is served: the aggregate of [itemId] moves from the mean
    of [prev] to the mean of [prev] followed by the accepted submissions
    for [itemId]. *)
Lemma serve_submissions_mean itemId trace :
  ∀ db prev m replies db',
    menuItems db !! itemId = Some m →
    aggregateIsMeanOf prev m →
    serveAll (submissions trace) db = (replies, db') →
    ∃ m', menuItems db' !! itemId = Some m' ∧
          aggregateIsMeanOf (prev ++ acceptedFor itemId trace replies) m'.
Proof.
  induction trace as [|[[env u] b] trace IH];
    intros db prev m replies db' Hm Hagg Hrun.
  - simpl in Hrun. inversion Hrun; subst. exists m. by rewrite app_nil_r.
  - simpl in Hrun.
    destruct (post_rating env u b db) as [reply db1] eqn:Hp.
    destruct (serveAll (submissions trace) db1) as [replies1 db2] eqn:Hrest.
    inversion Hrun; subst; clear Hrun.
    destruct (post_rating_inv _ _ _ _ _ _ Hp)
      as [[Hno ->]|(_ & _ & _ & Hs & Hyes)].
    + destruct (IH _ _ _ _ _ Hm Hagg Hrest) as (m' & Hm' & Hagg').
      exists m'. split; [done|]. simpl. by rewrite Hno.
    + destruct (submitRating_inv _ _ _ _ _ _ Hs)
        as [[Hno _]|(m0 & dm & -> & _ & Hm0 & _ & _ & _ & Hitems & _)];
        [congruence|].
      destruct (decide (b_menuItemId b = itemId)) as [Heq|Hne].
      * subst itemId. rewrite Hm in Hm0. inversion Hm0; subst m0.
        assert (Hm1 : menuItems db1 !! b_menuItemId b =
                      Some (Catalog.preSave m
                              (Catalog.updateRatings m (ratingArgument b)))).
        { rewrite Hitems. apply lookup_insert_eq. }
        destruct (IH _ (prev ++ [b]) _ _ _ Hm1
                    (proj2 (preSave_mean _ _ _)
                       (updateRatings_mean _ _ _ Hagg)) Hrest)
          as (m' & Hm' & Hagg').
        exists m'. split; [done|]. simpl.
        rewrite bool_decide_eq_true_2 by done. simpl.
        by rewrite <- app_assoc in Hagg'.
      * assert (Hm1 : menuItems db1 !! itemId = Some m).
        { rewrite Hitems. by rewrite lookup_insert_ne. }
        destruct (IH _ _ _ _ _ Hm1 Hagg Hrest) as (m' & Hm' & Hagg').
        exists m'. split; [done|]. simpl.
        by rewrite bool_decide_eq_false_2.
Qed.

(** The calls behind the aggregate.  Whatever mix of accepted and
    rejected submissions is served, the stored item is the result of one
    call of [updateRatings], followed by the [pre("save")] hook, for
    every accepted submission that names it, in the order of the
    submissions, and of nothing else. *)
Lemma accepted_submissions_call_updateRatings itemId trace :
  ∀ db m replies db',
    menuItems db !! itemId = Some m →
    serveAll (submissions trace) db = (replies, db') →
    menuItems db' !! itemId =
      Some (foldl
              (fun m b =>
                 Catalog.preSave m (Catalog.updateRatings m (ratingArgument b)))
              m (acceptedFor itemId trace replies)).
Proof.
  induction trace as [|[[env u] b] trace IH]; intros db m replies db' Hm Hrun.
  - simpl in Hrun. by inversion Hrun; subst.
  - simpl in Hrun.
    destruct (post_rating env u b db) as [reply db1] eqn:Hp.
    destruct (serveAll (submissions trace) db1) as [replies1 db2] eqn:Hrest.
    inversion Hrun; subst; clear Hrun.
    destruct (post_rating_inv _ _ _ _ _ _ Hp)
      as [[Hno ->]|(_ & _ & _ & Hs & Hyes)].
    + simpl. rewrite Hno. simpl. by apply (IH db).
    + destruct (submitRating_inv _ _ _ _ _ _ Hs)
        as [[Hno _]|(m0 & dm & -> & _ & Hm0 & _ & _ & _ & Hitems & _)];
        [congruence|].
      destruct (decide (b_menuItemId b = itemId)) as [Heq|Hne].
      * subst itemId. rewrite Hm in Hm0. inversion Hm0; subst m0.
        simpl. rewrite bool_decide_eq_true_2 by done. simpl.
        apply (IH db1); [|done]. rewrite Hitems. apply lookup_insert_eq.
      * simpl. rewrite bool_decide_eq_false_2 by done. simpl.
        apply (IH db1); [|done]. rewrite Hitems.
        by rewrite lookup_insert_ne.
Qed.

Lemma acceptedFor_all itemId trace replies :
  length replies = length trace →
  Forall (fun reply => isCreated reply = true) replies →
  Forall (fun '(_, _, b) => b_menuItemId b = itemId) trace →
  acceptedFor itemId trace replies = List.map snd trace.
Proof.
  revert replies.
  induction trace as [|[[env u] b] trace IH]; intros [|r rs] Hl Hc Ht;
    simpl in *; try done.
  inversion Hc; subst. inversion Ht; subst.
  rewrite H1. rewrite bool_decide_eq_true_2 by done. simpl.
  f_equal. apply IH; auto.
Qed.

Lemma serveAll_length trace : ∀ db replies db',
  serveAll trace db = (replies, db') → length replies = length trace.
Proof.
  induction trace as [|[[env u] rq] trace IH]; intros db replies db' H;
    simpl in H.
  - by inversion H.
  - destruct (serve env u rq db) as [reply db1].
    destruct (serveAll trace db1) as [rs db2] eqn:Hr.
    inversion H; subst. simpl. f_equal. eauto.
Qed.

(** The aggregate in exact arithmetic.  A menu item starts with the
    schema defaults.  After a sequence of N submissions for it, each
    answered with 201 and with no edit or deletion in between,
    [totalRatings] is N and every category counts N; were the products,
    sums and quotients of [updateRatings] exact, [averageRating] and the
    category averages would be the arithmetic means of the N submitted
    values.  The code computes them in doubles; what it stores is
    settled in the section on the aggregate in double precision. *)
Theorem submitted_ratings_average :
  ∀ (trace : list (Env * User * SubmitBody)) (db db' : Db)
    (itemId : ObjectId) (n f : string) (replies : list Response),
    menuItems db !! itemId = Some (Catalog.newMenuItem n f) →
    Forall (fun '(_, _, b) => b_menuItemId b = itemId) trace →
    serveAll (submissions trace) db = (replies, db') →
    Forall (fun reply => isCreated reply = true) replies →
    ∃ m, menuItems db' !! itemId = Some m ∧
         aggregateIsMeanOf (List.map snd trace) m.
Proof.
  intros trace db db' itemId n f replies Hm Ht Hrun Hc.
  destruct (serve_submissions_mean itemId trace db [] _ replies db' Hm
              (newMenuItem_mean n f) Hrun) as (m & Hm' & Hagg).
  exists m. split; [done|].
  rewrite acceptedFor_all in Hagg; auto.
  pose proof (serveAll_length _ _ _ _ Hrun) as Hl.
  unfold submissions in Hl. by rewrite length_map in Hl.
Qed.

(** The two submissions of the sample data: ratings 4 and 2 for item X. *)
Lemma submitted_ratings_average_witness :
  ∃ m, menuItems Example.db2 !! 1%N = Some m ∧
       aggregateIsMeanOf [Example.first; Example.second] m.
Proof.
  apply (submitted_ratings_average Example.trace Example.db0 _ 1%N
           "X" "sjhall"
           (fst (serveAll (submissions Example.trace) Example.db0))).
  - reflexivity.
  - repeat constructor.
  - apply surjective_pairing.
  - vm_compute. repeat constructor.
Defined.

(** The worked example of the specification: after the ratings 4 and 2
    the item shows an average of 3 over 2 ratings. *)
Example two_ratings_average_three :
  ∃ m, menuItems Example.db2 !! 1%N = Some m ∧
       Catalog.averageRating m = num 3 ∧ Catalog.totalRatings m = 2.
Proof.
  destruct (serve_submissions_mean 1%N Example.trace Example.db0 [] _ _ _
              eq_refl (newMenuItem_mean "X" "sjhall")
              (surjective_pairing _)) as (m & Hm & Ht & Ha & _).
  exists m. split; [exact Hm|]. split.
  - rewrite Ha. apply Qc_is_canon. vm_compute. reflexivity.
  - rewrite Ht. vm_compute. reflexivity.
Qed.

(** *** The meal-time window *)

Lemma clock_as_minutes h m :
  ((num h + num m / num 60) * num 60)%Qc = num (h * 60 + m).
Proof. rewrite num_add, num_mul. field. by apply num_nonzero. Qed.

Lemma clock_lt h m s :
  (num h + num m / num 60 < num s)%Qc ↔ h * 60 + m < s * 60.
Proof.
  rewrite (Qcmult_lt_mono_pos_r _ _ (num 60)).
  - by rewrite clock_as_minutes, <- num_mul, <- num_lt.
  - rewrite <- num_0. by apply num_lt.
Qed.

Lemma clock_gt h m e :
  (num e < num h + num m / num 60)%Qc ↔ e * 60 < h * 60 + m.
Proof.
  rewrite (Qcmult_lt_mono_pos_r _ _ (num 60)).
  - by rewrite clock_as_minutes, <- num_mul, <- num_lt.
  - rewrite <- num_0. by apply num_lt.
Qed.

Lemma getMinutes_range env : 0 ≤ getMinutes env < 60.
Proof. unfold getMinutes. apply Z.mod_pos_bound. lia. Qed.

(** The comparison of [validateMealTime] read on the clock face: a
    request is turned away before the first hour of the window, after its
    last hour, and in the last hour once the minute hand has moved. *)
Lemma validateMealTime_window env b start end_ :
  mealTimes (toLowerCase (b_mealType b)) = Some (start, end_) →
  validateMealTime env b =
    if bool_decide (getHours env < start ∨ end_ < getHours env ∨
                    (getHours env = end_ ∧ 0 < getMinutes env))
    then Some OutsideMealWindow else None.
Proof.
  intros Hw. unfold validateMealTime.
  assert (b_mealType b ≠ "") as Hne.
  { intros E. rewrite E in Hw. by vm_compute in Hw. }
  rewrite bool_decide_eq_false_2 by done. rewrite Hw.
  pose proof (getMinutes_range env) as Hm.
  cbv zeta.
  rewrite (bool_decide_ext _ _
             (clock_lt (getHours env) (getMinutes env) start)).
  rewrite (bool_decide_ext _ _
             (clock_gt (getHours env) (getMinutes env) end_)).
  repeat case_bool_decide; simpl; try done; exfalso; lia.
Qed.

Lemma isInt_in_range lo hi x : isInt lo hi x = true → in_range lo hi x = true.
Proof. unfold isInt, in_range. rewrite !andb_true_iff. tauto. Qed.

Lemma find_snoc_fresh {A} (p : A → bool) l x :
  List.find p l = None → p x = true → List.find p (l ++ [x]) = Some x.
Proof.
  induction l as [|y l IH]; simpl; intros Hn Hx.
  - by rewrite Hx.
  - destruct (p y); [done|]. by apply IH.
Qed.

Lemma truthy_nonempty a f : truthy a = Some f → f ≠ "".
Proof.
  unfold truthy. destruct a as [g|]; [|done].
  case_bool_decide; [done|]. by intros [= ->].
Qed.

(** A body that passed [validateRating] and a principal or body that
    names a facility give a document the schema accepts. *)
Lemma validated_document_valid env u b :
  validateRating b = true →
  is_Some (resolveFacilityId u b) →
  validate (ratingDocument env u b) = true.
Proof.
  intros Hv [f Hf].
  unfold validateRating in Hv. rewrite !andb_true_iff in Hv.
  destruct Hv as ((((((H1 & H2) & H3) & H4) & H5) & H6) & H7).
  unfold validate, validateRatings, ratingDocument. simpl.
  rewrite !isInt_in_range by done. rewrite H6. simpl.
  rewrite Hf. apply bool_decide_eq_true_2.
  unfold resolveFacilityId in Hf.
  destruct (truthy (facilityId_of (adminFacility u))) as [f1|] eqn:E1.
  { apply truthy_nonempty in E1.
    destruct (truthy (facilityId_of (selectedFacility u))),
      (b_facilityId b); compute in Hf; by simplify_eq. }
  destruct (truthy (facilityId_of (selectedFacility u))) as [f2|] eqn:E2.
  { apply truthy_nonempty in E2.
    destruct (b_facilityId b); compute in Hf; by simplify_eq. }
  destruct (b_facilityId b) as [f3|]; compute in Hf; simplify_eq.
  by apply bool_decide_eq_true in H7.
Qed.

(** C4.  What [submitRating] answers, and what the route does before it
    is reached.
    - A rating already stored for the same student, menu item, meal date
      and meal type: Conflict, nothing written.
    - No such rating, and the menu item or the daily menu is missing:
      NotFound, nothing written.
    - On the route, for a meal type with a window (breakfast 8 to 11,
      lunch 12 to 16, dinner 19 to 23): a clock outside the window is
      answered by [validateMealTime] with InvalidState; the handler, and
      with it every aggregate update, is never entered.
    - Otherwise the new rating is stored, and a second identical
      submission will find it. *)
Theorem submitRating_rejections_and_acceptance :
  ∀ (env : Env) (u : User) (b : SubmitBody) (db : Db),
    (is_Some (findExisting db (Identity.id u) (b_menuItemId b) (b_mealDate b)
                (b_mealType b)) →
     submitRating env u b db = (AlreadyRated, db) ∧
     errorKind AlreadyRated = Some Conflict) ∧
    (findExisting db (Identity.id u) (b_menuItemId b) (b_mealDate b)
       (b_mealType b) = None →
     menuItems db !! b_menuItemId b = None ∨
     dailyMenus db !! b_dailyMenuId b = None →
     ∃ reply, submitRating env u b db = (reply, db) ∧
              errorKind reply = Some NotFound) ∧
    (mealTimes "breakfast" = Some (8, 11) ∧
     mealTimes "lunch" = Some (12, 16) ∧
     mealTimes "dinner" = Some (19, 23)) ∧
    (∀ start end_,
       role u = Identity.student →
       mealTimes (toLowerCase (b_mealType b)) = Some (start, end_) →
       getHours env < start ∨ end_ < getHours env ∨
       (getHours env = end_ ∧ 0 < getMinutes env) →
       validateMealTime env b = Some OutsideMealWindow ∧
       post_rating env u b db = (OutsideMealWindow, db) ∧
       errorKind OutsideMealWindow = Some InvalidState) ∧
    (∀ start end_ m dm,
       role u = Identity.student →
       mealTimes (toLowerCase (b_mealType b)) = Some (start, end_) →
       start ≤ getHours env ∧
       (getHours env < end_ ∨ getHours env = end_ ∧ getMinutes env = 0) →
       validateRating b = true →
       is_Some (resolveFacilityId u b) →
       findExisting db (Identity.id u) (b_menuItemId b) (b_mealDate b)
         (b_mealType b) = None →
       menuItems db !! b_menuItemId b = Some m →
       dailyMenus db !! b_dailyMenuId b = Some dm →
       ∃ db',
         post_rating env u b db = (Created (ratingDocument env u b), db') ∧
         submitRating env u b db = (Created (ratingDocument env u b), db') ∧
         ratings db' = ratings db ++ [ratingDocument env u b] ∧
         findExisting db' (Identity.id u) (b_menuItemId b) (b_mealDate b)
           (b_mealType b) = Some (ratingDocument env u b)).
Proof.
  intros env u b db. split; [|split; [|split; [|split]]].
  - intros [r Hr]. unfold submitRating. by rewrite Hr.
  - intros Hex [Hm|Hd]; unfold submitRating; rewrite Hex.
    + rewrite Hm. by exists MenuItemNotFound.
    + destruct (menuItems db !! _); [|by exists MenuItemNotFound].
      rewrite Hd. by exists DailyMenuNotFound.
  - done.
  - intros start end_ Hrole Hw Hout.
    assert (validateMealTime env b = Some OutsideMealWindow) as Hmt.
    { rewrite (validateMealTime_window _ _ _ _ Hw).
      by rewrite bool_decide_eq_true_2. }
    split; [done|]. split; [|done].
    unfold post_rating, authorize. rewrite Hrole.
    rewrite bool_decide_eq_true_2 by apply list_elem_of_singleton, eq_refl.
    simpl. by rewrite Hmt.
  - intros start end_ m dm Hrole Hw Hin Hv Hf Hex Hm Hd.
    assert (Hmt : validateMealTime env b = None).
    { rewrite (validateMealTime_window _ _ _ _ Hw).
      pose proof (getMinutes_range env).
      rewrite bool_decide_eq_false_2; [done|lia]. }
    unfold post_rating, authorize. rewrite Hrole.
    rewrite bool_decide_eq_true_2 by apply list_elem_of_singleton, eq_refl.
    simpl. rewrite Hmt, Hv. simpl.
    unfold submitRating. rewrite Hex, Hm, Hd.
    rewrite (validated_document_valid env u b Hv Hf). simpl.
    eexists. split; [reflexivity|]. split; [reflexivity|].
    simpl. split; [done|].
    unfold findExisting. simpl. apply find_snoc_fresh; [exact Hex|].
    simpl. by rewrite !bool_decide_eq_true_2.
Qed.

(** One request for each of the four cases: Alice rating item X a second
    time; a rating for an item that does not exist; a lunch rating sent at
    17:00; her first rating sent at 13:00. *)
Lemma submitRating_rejections_and_acceptance_witness :
  submitRating (Example.at1305 1002) Example.alice Example.first Example.db2
    = (AlreadyRated, Example.db2) ∧
  (∃ reply,
     submitRating (Example.at1300 1000) Example.alice Example.missingItem
       Example.db0 = (reply, Example.db0) ∧
     errorKind reply = Some NotFound) ∧
  post_rating (Example.at1700 1000) Example.alice Example.first Example.db0
    = (OutsideMealWindow, Example.db0) ∧
  (∃ db',
     post_rating (Example.at1300 1000) Example.alice Example.first Example.db0
       = (Created (ratingDocument (Example.at1300 1000) Example.alice
                     Example.first), db') ∧
     ratings db' = [ratingDocument (Example.at1300 1000) Example.alice
                      Example.first]).
Proof.
  split; [|split; [|split]].
  - destruct (submitRating_rejections_and_acceptance (Example.at1305 1002)
                Example.alice Example.first Example.db2) as (H & _).
    apply H. vm_compute. eexists. reflexivity.
  - destruct (submitRating_rejections_and_acceptance (Example.at1300 1000)
                Example.alice Example.missingItem Example.db0)
      as (_ & H & _).
    apply H; [reflexivity|]. left. reflexivity.
  - destruct (submitRating_rejections_and_acceptance (Example.at1700 1000)
                Example.alice Example.first Example.db0)
      as (_ & _ & _ & H & _).
    apply (H 12 16); [reflexivity|reflexivity|].
    right. left. vm_compute. reflexivity.
  - destruct (submitRating_rejections_and_acceptance (Example.at1300 1000)
                Example.alice Example.first Example.db0)
      as (_ & _ & _ & _ & H).
    destruct (H 12 16 (Catalog.newMenuItem "X" "sjhall") Example.lunchMenu)
      as (db' & Hp & _ & Hr & _).
    + reflexivity.
    + reflexivity.
    + vm_compute. split; [discriminate|]. left. reflexivity.
    + vm_compute. reflexivity.
    + vm_compute. eexists. reflexivity.
    + reflexivity.
    + reflexivity.
    + reflexivity.
    + exists db'. split; [exact Hp|exact Hr].
Defined.

(** C10.  The stored [messType] of a submitted rating is read off
    [req.user.adminFacility] alone: "college_mess" when that names a
    college, "hostel_mess" in every other case.  A principal without an
    [adminFacility] of type college, so every student, gets a rating
    stored as "hostel_mess" whatever the selected facility is. *)
Theorem submitRating_messType_from_adminFacility :
  ∀ (env : Env) (u : User) (b : SubmitBody) (db db' : Db) (r : Rating),
    submitRating env u b db = (Created r, db') →
    r ∈ ratings db' ∧
    messType r =
      (if decide (facilityType_of (adminFacility u) = Some college)
       then college_mess else hostel_mess) ∧
    (facilityType_of (adminFacility u) ≠ Some college →
     messType r = hostel_mess) ∧
    (adminFacility u = None → messType r = hostel_mess).
Proof.
  intros env u b db db' r H.
  destruct (submitRating_inv _ _ _ _ _ _ H)
    as [[Hno _]|(m & dm & [= ->] & _ & _ & _ & _ & Hr & _)]; [done|].
  split.
  { rewrite Hr. apply elem_of_app. right. by apply list_elem_of_singleton. }
  split; [done|]. split.
  - intros Hn. simpl. unfold resolveMessType. by case_decide.
  - intros Hn. simpl. unfold resolveMessType. by rewrite Hn.
Qed.

(** Alice has selected a college; her rating is stored as "hostel_mess". *)
Lemma submitRating_messType_from_adminFacility_witness :
  facilityType_of (selectedFacility Example.alice) = Some college ∧
  Example.firstRating ∈ ratings Example.db1 ∧
  messType Example.firstRating = hostel_mess.
Proof.
  split; [reflexivity|].
  destruct (submitRating_messType_from_adminFacility (Example.at1300 1000)
              Example.alice Example.first Example.db0 Example.db1
              Example.firstRating) as (Hin & _ & _ & Hm).
  - vm_compute. reflexivity.
  - split; [exact Hin|]. apply Hm. reflexivity.
Defined.

End Submissions.

(** ** The aggregate in double precision

    The stored item is [updateRatings] called once for every accepted
    submission (above, in exact arithmetic; the order of the handler's
    steps does not depend on the numbers).  What these calls leave in
    the item when they are evaluated in doubles, as the code evaluates
    them, is settled here on [Doubles.updateRatings]. *)

Section RunningMeanInDoubles.
Import PrimFloat Doubles.


(** The updates of one category, over the values given for it. *)
Lemma updateCategory_foldl (f : NewRating → option number) rs : ∀ d,
  foldl (fun d r => updateCategory d (f r)) d rs = foldl step d (omap f rs).
Proof.
  induction rs as [|r rs IH]; intros d; [done|].
  cbn [foldl omap list_omap]. rewrite IH.
  unfold step. by destruct (f r).
Qed.








End RunningMeanInDoubles.

(** ** Edits *)

Section Edits.
Import JS Identity Feedback.




(** The pre-save hook finds nothing left to recompute once
    [updateRating] has set the overall rating itself. *)
Lemma preSave_after_update rating c :
  preSave (Some rating)
    (set_overallRating (roundedMean c) (set_categoryRatings c rating))
  = set_overallRating (roundedMean c) (set_categoryRatings c rating).
Proof. unfold preSave. by case_match. Qed.

Lemma find_some_pred {A} (p : A → bool) l r :
  List.find p l = Some r → p r = true.
Proof.
  induction l as [|y l IH]; simpl; [done|].
  destruct (p y) eqn:E; [by intros [= <-]|done].
Qed.

Lemma find_some_elem {A} (p : A → bool) l r :
  List.find p l = Some r → r ∈ l.
Proof.
  induction l as [|y l IH]; simpl; [done|].
  destruct (p y) eqn:E.
  - intros [= <-]. apply list_elem_of_here.
  - intros H. apply list_elem_of_further. by apply IH.
Qed.

(** Saving a document and running the same query again returns the saved
    version, provided the query pins the [_id]. *)
Lemma find_replaced (p : Rating → bool) l r r' :
  List.find p l = Some r →
  p r' = true → _id r' = _id r →
  (∀ x, p x = true → _id x = _id r) →
  List.find p
    (List.map (fun x => if bool_decide (_id x = _id r') then r' else x) l)
  = Some r'.
Proof.
  intros Hf Hp Hid Hall. induction l as [|y l IH]; simpl in *; [done|].
  case_bool_decide as Hy.
  - by rewrite Hp.
  - destruct (p y) eqn:Hpy.
    + exfalso. apply Hy. rewrite Hid. by apply Hall.
    + by apply IH.
Qed.

(** The window test [hoursSinceRating > n] in milliseconds. *)
Lemma hours_le env r n :
  ¬ (num n < hoursSinceRating env r)%Qc ↔ now env - createdAt r ≤ n * 3600000.
Proof.
  unfold hoursSinceRating. change (1000 * 60 * 60) with 3600000.
  rewrite (Qcmult_lt_mono_pos_r _ _ (num 3600000))
    by (rewrite <- num_0; by apply num_lt).
  replace (num (now env - createdAt r) / num 3600000 * num 3600000)%Qc
    with (num (now env - createdAt r)) by (field; by apply num_nonzero).
  rewrite <- num_mul, <- num_lt. lia.
Qed.

(** No branch of [updateRating] writes a daily menu. *)
Lemma updateRating_dailyMenus env u rid body db :
  dailyMenus (snd (updateRating env u rid body db)) = dailyMenus db.
Proof. unfold updateRating. repeat case_match; done. Qed.

Lemma put_rating_dailyMenus env u rid body db :
  dailyMenus (snd (put_rating env u rid body db)) = dailyMenus db.
Proof.
  unfold put_rating. case_match; [done|]. apply updateRating_dailyMenus.
Qed.

(** C9.  [updateRating] never writes a daily menu: whatever the reply,
    the collection of daily menus, and so the [ratingStats] of every
    daily menu, is the same before and after the call. *)
Theorem updateRating_leaves_dailyMenus :
  ∀ (env : Env) (u : User) (ratingId : ObjectId) (body : UpdateBody)
    (db : Db),
    dailyMenus (snd (updateRating env u ratingId body db)) = dailyMenus db ∧
    dailyMenus (snd (put_rating env u ratingId body db)) = dailyMenus db ∧
    ∀ k dm,
      dailyMenus db !! k = Some dm →
      dailyMenus (snd (put_rating env u ratingId body db)) !! k = Some dm ∧
      Scheduling.ratingStats
        <$> dailyMenus (snd (put_rating env u ratingId body db)) !! k
      = Some (Scheduling.ratingStats dm).
Proof.
  intros env u ratingId body db.
  split; [apply updateRating_dailyMenus|].
  split; [apply put_rating_dailyMenus|].
  intros k dm Hk. rewrite put_rating_dailyMenus, Hk. done.
Qed.

(** The lunch menu of the sample data across Alice's edit. *)
Lemma updateRating_leaves_dailyMenus_witness :
  ∃ dm,
    dailyMenus Example.db1 !! 7%N = Some dm ∧
    dailyMenus
      (snd (put_rating (Example.at1305 0) Example.alice 1000%N
              (mkUpdateBody (Some Example.revised)) Example.db1)) !! 7%N
    = Some dm.
Proof.
  destruct (dailyMenus Example.db1 !! 7%N) as [dm|] eqn:E;
    [|vm_compute in E; discriminate].
  exists dm. split; [reflexivity|].
  destruct (updateRating_leaves_dailyMenus (Example.at1305 0) Example.alice
              1000%N (mkUpdateBody (Some Example.revised)) Example.db1)
    as (_ & _ & H).
  apply (H 7%N dm E).
Defined.

(** The edit of the sample data is accepted and moves the aggregate of
    item X, while the daily menu keeps the statistics of the submission. *)
Example edit_changes_item_only :
  httpStatus (fst Example.edit) = 200 ∧
  menuItems (snd Example.edit) !! 1%N ≠ menuItems Example.db1 !! 1%N ∧
  dailyMenus (snd Example.edit) !! 7%N = dailyMenus Example.db1 !! 7%N.
Proof.
  split; [vm_compute; reflexivity|]. split.
  - vm_compute. intros [=].
  - unfold Example.edit. by rewrite updateRating_dailyMenus.
Qed.

(** Replacing one value of a list whose mean is stored: the correction of
    [updateRating] yields the mean of the list with the value replaced. *)
Lemma replaceInAverage_mean l1 oldValue l2 newValue :
  replaceInAverage (mean (l1 ++ oldValue :: l2))
    (Z.of_nat (length (l1 ++ oldValue :: l2))) oldValue newValue
  = mean (l1 ++ newValue :: l2).
Proof.
  unfold replaceInAverage. rewrite mean_times_length.
  unfold mean. rewrite !sum_app, !length_app. simpl length.
  f_equal. unfold sum. simpl. ring.
Qed.

Lemma Math_round_range x lo hi :
  (num lo ≤ x)%Qc → (x ≤ num hi)%Qc →
  (num lo ≤ Math_round x)%Qc ∧ (Math_round x ≤ num hi)%Qc.
Proof.
  intros Hlo Hhi. unfold Math_round. rewrite <- !num_le.
  assert (Hhalf : (this (num 1 / num 2)%Qc == 1 # 2)%Q) by reflexivity.
  assert (Hthis : (this (x + num 1 / num 2)%Qc == this x + (1 # 2))%Q).
  { unfold Qcplus, Q2Qc. cbn [this]. rewrite Qred_correct, Hhalf. reflexivity. }
  rewrite (Qfloor_comp _ _ Hthis).
  split.
  - rewrite <- (Qfloor_Z lo). apply Qfloor_resp_le.
    unfold Qcle in Hlo. change (this (num lo)) with (inject_Z lo) in Hlo.
    rewrite <- (Qplus_0_r (inject_Z lo)).
    apply Qplus_le_compat; [done|discriminate].
  - unfold Qcle in Hhi. change (this (num hi)) with (inject_Z hi) in Hhi.
    assert ((this x + (1 # 2) < inject_Z (hi + 1))%Q) as Hlt.
    { rewrite inject_Z_plus, (Qplus_comm (this x)), (Qplus_comm (inject_Z hi)).
      apply Qplus_lt_le_compat; [reflexivity|done]. }
    pose proof (Qfloor_le (this x + (1 # 2))) as Hf.
    assert ((inject_Z (Qfloor (this x + (1 # 2))) < inject_Z (hi + 1))%Q) as H
      by (eapply Qle_lt_trans; eauto).
    rewrite <- Zlt_Qlt in H. lia.
Qed.

Lemma in_range_iff lo hi x :
  in_range lo hi x = true ↔ (num lo ≤ x)%Qc ∧ (x ≤ num hi)%Qc.
Proof.
  unfold in_range. rewrite andb_true_iff, !bool_decide_eq_true. done.
Qed.

Lemma quarter_range a b c d lo hi :
  (num lo ≤ a ≤ num hi)%Qc → (num lo ≤ b ≤ num hi)%Qc →
  (num lo ≤ c ≤ num hi)%Qc → (num lo ≤ d ≤ num hi)%Qc →
  (num lo ≤ (a + b + c + d) / num 4 ≤ num hi)%Qc.
Proof.
  intros [Ha1 Ha2] [Hb1 Hb2] [Hc1 Hc2] [Hd1 Hd2].
  assert (0 < num 4)%Qc as H4 by (rewrite <- num_0; by apply num_lt).
  assert (num 4 ≠ 0%Qc) as H4' by by apply num_nonzero.
  split.
  - apply (Qcmult_le_mono_pos_r _ _ (num 4) H4).
    replace ((a + b + c + d) / num 4 * num 4)%Qc with (a + b + c + d)%Qc
      by (field; done).
    replace (num lo * num 4)%Qc with (num lo + num lo + num lo + num lo)%Qc
      by (change (num 4) with (Qc_of_Z 4); rewrite <- num_mul, <- !num_add;
          f_equal; lia).
    repeat apply Qcplus_le_compat; done.
  - apply (Qcmult_le_mono_pos_r _ _ (num 4) H4).
    replace ((a + b + c + d) / num 4 * num 4)%Qc with (a + b + c + d)%Qc
      by (field; done).
    replace (num hi * num 4)%Qc with (num hi + num hi + num hi + num hi)%Qc
      by (change (num 4) with (Qc_of_Z 4); rewrite <- num_mul, <- !num_add;
          f_equal; lia).
    repeat apply Qcplus_le_compat; done.
Qed.

(** An edit by the owner within 24 hours whose categories lie between 1
    and 5 is accepted. *)
Lemma updateRating_accepts env u rid body c db rating :
  findOwn db rid (Identity.id u) = Some rating →
  now env - createdAt rating ≤ 24 * 3600000 →
  u_categoryRatings body = Some c →
  in_range 1 5 (taste c) = true → in_range 1 5 (quantity c) = true →
  in_range 1 5 (freshness c) = true → in_range 1 5 (value c) = true →
  ∃ db',
    updateRating env u rid body db =
      (RatingUpdated
         (set_overallRating (roundedMean c) (set_categoryRatings c rating)),
       db').
Proof.
  intros Hf Hw Hbody H1 H2 H3 H4. unfold updateRating. rewrite Hf.
  rewrite bool_decide_eq_false_2 by by apply hours_le.
  rewrite Hbody, preSave_after_update.
  assert (validateRatings
            (set_overallRating (roundedMean c) (set_categoryRatings c rating))
          = true) as ->.
  { unfold validateRatings.
    cbn [overallRating categoryRatings set_overallRating set_categoryRatings].
    rewrite H1, H2, H3, H4, !andb_true_r.
    apply in_range_iff. unfold roundedMean.
    apply in_range_iff in H1, H2, H3, H4.
    destruct (quarter_range _ _ _ _ 1 5 H1 H2 H3 H4).
    by apply Math_round_range. }
  cbn [negb]. destruct (menuItems _ !! _); by eexists.
Qed.

(** What an edit with category ratings does when it is answered with
    200. *)
Lemma updateRating_categories_inv env u rid body c db reply db' :
  u_categoryRatings body = Some c →
  updateRating env u rid body db = (reply, db') →
  (httpStatus reply ≠ 200 ∧ db' = db) ∨
  ∃ rating,
    findOwn db rid (Identity.id u) = Some rating ∧
    ¬ (num 24 < hoursSinceRating env rating)%Qc ∧
    let rating' :=
      set_overallRating (roundedMean c) (set_categoryRatings c rating) in
    validateRatings rating' = true ∧
    reply = RatingUpdated rating' ∧
    db' =
      match menuItems db !! menuItem rating with
      | Some m =>
          saveMenuItem (menuItem rating) m
            (correctMenuItem m (overallRating rating)
               (categoryRatings rating) (roundedMean c) c)
            (saveRating rating' db)
      | None => saveRating rating' db
      end.
Proof.
  unfold updateRating. intros Hbody H.
  destruct (findOwn db rid (Identity.id u)) as [rating|] eqn:Hf;
    [|left; by injection H as <- <-].
  case_bool_decide as Hwin; [left; by injection H as <- <-|].
  rewrite Hbody in H.
  rewrite preSave_after_update in H.
  destruct (validateRatings _) eqn:Hval; cbn [negb] in H;
    [|left; by injection H as <- <-].
  right. exists rating. split; [done|]. split; [done|].
  cbv zeta. split; [done|].
  destruct (menuItems _ !! _); by injection H as <- <-.
Qed.



End Edits.

(** ** Votes *)

Section Votes.
Import JS Identity Feedback.

Lemma filter_filter_ne (l : list Voter) u :
  filter (fun v => user v = u) (filter (fun v => user v ≠ u) l) = [].
Proof.
  induction l as [|x l IH]; [done|].
  rewrite filter_cons. case_decide as Hx.
  - rewrite filter_cons. case_decide; [done|]. exact IH.
  - exact IH.
Qed.

Lemma filter_filter_other (l : list Voter) u w :
  w ≠ u →
  filter (fun v => user v = w) (filter (fun v => user v ≠ u) l)
  = filter (fun v => user v = w) l.
Proof.
  intros Hne. induction l as [|x l IH]; [done|].
  destruct (decide (user x = u)) as [Hx|Hx].
  - rewrite (filter_cons_False (fun v => user v ≠ u))
      by (intros H; by apply H).
    rewrite (filter_cons_False (fun v => user v = w)) by congruence.
    exact IH.
  - rewrite (filter_cons_True (fun v => user v ≠ u)) by done.
    rewrite !(filter_cons (fun v => user v = w)). by rewrite IH.
Qed.

Lemma NoDup_filter_snoc (l : list Voter) u e :
  user e = u →
  NoDup (List.map user l) →
  NoDup (List.map user (filter (fun v => user v ≠ u) l ++ [e])).
Proof.
  intros He Hnd. rewrite map_app. simpl.
  apply NoDup_app. split; [|split].
  - induction l as [|x l IH]; [constructor|].
    simpl in Hnd. apply NoDup_cons in Hnd as [Hx Hnd].
    rewrite filter_cons. case_decide; [|by apply IH].
    simpl. apply NoDup_cons. split; [|by apply IH].
    intros Hin. apply Hx.
    apply list_elem_of_fmap in Hin as (y & Hy & Hin).
    apply list_elem_of_filter in Hin as [_ Hin].
    apply list_elem_of_fmap. by exists y.
  - intros x Hin Hx. apply list_elem_of_singleton in Hx. subst x.
    apply list_elem_of_fmap in Hin as (y & Hy & Hin).
    apply list_elem_of_filter in Hin as [Hne _]. congruence.
  - apply NoDup_singleton.
Qed.

(** The method on its own: whatever the ledger held, afterwards the
    voter has exactly the new entry, the entries of everybody else are
    untouched, and both counters are counts over the new ledger. *)
Lemma addHelpfulVote_ledger now r u v :
  let r' := addHelpfulVote now r u v in
  votesBy u r' = [mkVoter u v now] ∧
  (∀ w, w ≠ u → votesBy w r' = votesBy w r) ∧
  upvotes (helpfulVotes r') = countVotes "up" (voters (helpfulVotes r')) ∧
  downvotes (helpfulVotes r') = countVotes "down" (voters (helpfulVotes r')).
Proof.
  unfold votesBy, addHelpfulVote. simpl. repeat split.
  - rewrite filter_app, filter_filter_ne. simpl.
    rewrite filter_cons. by rewrite decide_True.
  - intros w Hw. rewrite filter_app, filter_filter_other by done.
    rewrite filter_cons. rewrite decide_False by (simpl; congruence).
    by rewrite filter_nil, app_nil_r.
Qed.

Lemma preSave_same_categories rating r :
  categoryRatings r = categoryRatings rating →
  preSave (Some rating) r = r.
Proof.
  intros H. unfold preSave. rewrite H.
  by rewrite (bool_decide_eq_false_2 (_ ≠ _)) by (intros E; by apply E).
Qed.

Lemma preSave_helpfulVotes stored r :
  helpfulVotes (preSave stored r) = helpfulVotes r.
Proof. unfold preSave. repeat case_match; done. Qed.

Lemma ledgerConsistent_ext r r' :
  helpfulVotes r' = helpfulVotes r → ledgerConsistent r → ledgerConsistent r'.
Proof. unfold ledgerConsistent. by intros ->. Qed.

Lemma addHelpfulVote_consistent now r u v :
  NoDup (List.map user (voters (helpfulVotes r))) →
  ledgerConsistent (addHelpfulVote now r u v).
Proof.
  intros Hnd. destruct (addHelpfulVote_ledger now r u v) as (_ & _ & Hu & Hd).
  split; [done|]. split; [done|].
  unfold addHelpfulVote. simpl. by apply NoDup_filter_snoc.
Qed.

Lemma ratingDocument_consistent env u b :
  ledgerConsistent (ratingDocument env u b).
Proof. split; [done|]. split; [done|]. simpl. constructor. Qed.

(** What an accepted vote does to the stored state. *)
Lemma voteOnRating_inv env u rid v db reply db' :
  voteOnRating env u rid v db = (reply, db') →
  (httpStatus reply ≠ 200 ∧ db' = db) ∨
  (∃ rating,
      v ∈ ["up"; "down"] ∧
      findById db rid = Some rating ∧
      student rating ≠ Identity.id u ∧
      let r' := addHelpfulVote (now env) rating (Identity.id u) v in
      reply = VoteRecorded (upvotes (helpfulVotes r'))
                (downvotes (helpfulVotes r')) (helpfulnessScore r') ∧
      db' = saveRating r' db ∧
      findById db' rid = Some r').
Proof.
  unfold voteOnRating. intros H.
  case_bool_decide as Hv; cbn [negb] in H; [|left; by inversion H].
  destruct (findById db rid) as [rating|] eqn:Hf; [|left; by inversion H].
  case_bool_decide as Hs; [left; by inversion H|].
  cbv zeta in H. rewrite preSave_same_categories in H by done.
  right. exists rating. inversion H; subst; clear H.
  repeat split; try done.
  pose proof (find_some_pred _ _ _ Hf) as Hp.
  apply bool_decide_eq_true in Hp.
  unfold findById, saveRating. cbn [ratings].
  apply (find_replaced _ _ rating); try done.
  - by apply bool_decide_eq_true_2.
  - intros x Hx. apply bool_decide_eq_true in Hx. congruence.
Qed.

Lemma post_vote_inv env u rid v db reply db' :
  post_vote env u rid v db = (reply, db') →
  (httpStatus reply ≠ 200 ∧ db' = db) ∨
  voteOnRating env u rid v db = (reply, db').
Proof.
  unfold post_vote. intros H.
  destruct (authorize _ u); simpl in H; [|left; by inversion H].
  destruct (validateVote v); simpl in H; [|left; by inversion H].
  by right.
Qed.

(** A student's vote on somebody else's rating goes through. *)
Lemma post_vote_accepts env u rid v db rating :
  role u = Identity.student →
  v ∈ ["up"; "down"] →
  findById db rid = Some rating →
  student rating ≠ Identity.id u →
  let r' := addHelpfulVote (now env) rating (Identity.id u) v in
  post_vote env u rid v db =
    (VoteRecorded (upvotes (helpfulVotes r')) (downvotes (helpfulVotes r'))
       (helpfulnessScore r'),
     saveRating r' db) ∧
  findById (saveRating r' db) rid = Some r'.
Proof.
  intros Hrole Hv Hf Hs r'.
  assert (voteOnRating env u rid v db =
          (VoteRecorded (upvotes (helpfulVotes r'))
             (downvotes (helpfulVotes r')) (helpfulnessScore r'),
           saveRating r' db)) as Hvote.
  { unfold voteOnRating. rewrite bool_decide_eq_true_2 by done. cbn [negb].
    rewrite Hf. rewrite bool_decide_eq_false_2 by done.
    cbv zeta. by rewrite preSave_same_categories. }
  split.
  - unfold post_vote, authorize, validateVote. rewrite Hrole.
    rewrite bool_decide_eq_true_2 by apply list_elem_of_singleton, eq_refl.
    rewrite bool_decide_eq_true_2 by done. simpl. exact Hvote.
  - destruct (voteOnRating_inv _ _ _ _ _ _ _ Hvote)
      as [[Hn _]|(rating0 & _ & Hf0 & _ & _ & -> & Hfind)]; [done|].
    rewrite Hf in Hf0. by injection Hf0 as <-.
Qed.

(** Votes cast one after the other by one user on one rating are all
    accepted, and the stored rating is the result of the last one. *)
Lemma votes_by_one_user u rid votes :
  ∀ db rating env v replies db',
    role u = Identity.student →
    findById db rid = Some rating →
    student rating ≠ Identity.id u →
    Forall (fun '(_, w) => w ∈ ["up"; "down"]) (votes ++ [(env, v)]) →
    serveAll (votesOf u rid (votes ++ [(env, v)])) db = (replies, db') →
    Forall (fun reply => httpStatus reply = 200) replies ∧
    ∃ r0, findById db' rid =
            Some (addHelpfulVote (now env) r0 (Identity.id u) v).
Proof.
  induction votes as [|[env0 v0] votes IH];
    intros db rating env v replies db' Hrole Hf Hs Hall Hrun.
  - simpl in Hrun, Hall. apply Forall_cons in Hall as [Hv _].
    destruct (post_vote_accepts env u rid v db rating Hrole Hv Hf Hs)
      as [Hp Hfind].
    rewrite Hp in Hrun. inversion Hrun; subst. split.
    + by apply Forall_singleton.
    + by exists rating.
  - simpl in Hrun, Hall. apply Forall_cons in Hall as [Hv0 Hall].
    destruct (post_vote_accepts env0 u rid v0 db rating Hrole Hv0 Hf Hs)
      as [Hp Hfind].
    rewrite Hp in Hrun.
    destruct (serveAll _ (saveRating _ db)) as [rs db1] eqn:Hrest.
    inversion Hrun; subst.
    destruct (IH _ _ env v rs db' Hrole Hfind Hs Hall Hrest) as [Hok Hex].
    split; [|exact Hex]. by apply Forall_cons.
Qed.

Lemma Forall_replaced (P : Rating → Prop) l r' :
  Forall P l → P r' →
  Forall P
    (List.map (fun x => if bool_decide (_id x = _id r') then r' else x) l).
Proof.
  intros Hl Hr. induction Hl; simpl; constructor; try done.
  by case_bool_decide.
Qed.

(** [updateRating] and [deleteRating] store at most one rating, with the
    ledger it had. *)
Lemma updateRating_ratings env u rid body db reply db' :
  updateRating env u rid body db = (reply, db') →
  ratings db' = ratings db ∨
  ∃ rating rating',
    rating ∈ ratings db ∧ helpfulVotes rating' = helpfulVotes rating ∧
    ratings db' = ratings (saveRating rating' db).
Proof.
  unfold updateRating. intros H.
  destruct (findOwn db rid (Identity.id u)) as [rating|] eqn:Hf;
    [|left; by injection H as _ <-].
  pose proof (find_some_elem _ _ _ Hf) as Hin.
  case_bool_decide; [left; by injection H as _ <-|].
  destruct (u_categoryRatings body) as [c|].
  - rewrite preSave_after_update in H.
    destruct (validateRatings _); cbn [negb] in H;
      [|left; by injection H as _ <-].
    right.
    exists rating, (set_overallRating (roundedMean c)
                      (set_categoryRatings c rating)).
    split; [done|]. split; [done|].
    destruct (menuItems _ !! _); by injection H as _ <-.
  - right. exists rating, (preSave (Some rating) rating).
    split; [done|]. split; [by rewrite preSave_helpfulVotes|].
    by injection H as _ <-.
Qed.

Lemma deleteRating_ratings env u rid db reply db' :
  deleteRating env u rid db = (reply, db') →
  ratings db' = ratings db ∨
  ∃ rating rating',
    rating ∈ ratings db ∧ helpfulVotes rating' = helpfulVotes rating ∧
    ratings db' = ratings (saveRating rating' db).
Proof.
  unfold deleteRating. intros H.
  destruct (findOwn db rid (Identity.id u)) as [rating|] eqn:Hf;
    [|left; by injection H as _ <-].
  pose proof (find_some_elem _ _ _ Hf) as Hin.
  case_bool_decide; [left; by injection H as _ <-|].
  right. exists rating, (preSave (Some rating) (set_isActive false rating)).
  split; [done|]. split; [by rewrite preSave_helpfulVotes|].
  by injection H as _ <-.
Qed.

(** Every request keeps every ledger consistent with its counters. *)
Lemma serve_consistent env u rq db reply db' :
  Forall ledgerConsistent (ratings db) →
  serve env u rq db = (reply, db') →
  Forall ledgerConsistent (ratings db').
Proof.
  intros Hall Hrun. destruct rq as [b|rid body|rid|rid v];
    cbn [serve] in Hrun.
  - destruct (post_rating_inv _ _ _ _ _ _ Hrun)
      as [[_ ->]|(_ & _ & _ & Hs & _)]; [done|].
    destruct (submitRating_inv _ _ _ _ _ _ Hs)
      as [[_ ->]|(m & dm & _ & _ & _ & _ & _ & -> & _)]; [done|].
    apply Forall_app. split; [done|].
    apply Forall_singleton, ratingDocument_consistent.
  - unfold put_rating in Hrun.
    destruct (authorize _ u); cbn [negb] in Hrun;
      [|by injection Hrun as _ <-].
    destruct (updateRating_ratings _ _ _ _ _ _ _ Hrun)
      as [->|(rating & rating' & Hin & Hv & ->)]; [done|].
    apply Forall_replaced; [done|].
    apply (ledgerConsistent_ext rating); [done|].
    by apply (proj1 (Forall_forall _ _) Hall).
  - unfold delete_rating in Hrun.
    destruct (authorize _ u); cbn [negb] in Hrun;
      [|by injection Hrun as _ <-].
    destruct (deleteRating_ratings _ _ _ _ _ _ Hrun)
      as [->|(rating & rating' & Hin & Hv & ->)]; [done|].
    apply Forall_replaced; [done|].
    apply (ledgerConsistent_ext rating); [done|].
    by apply (proj1 (Forall_forall _ _) Hall).
  - destruct (post_vote_inv _ _ _ _ _ _ _ Hrun) as [[_ ->]|Hvote]; [done|].
    destruct (voteOnRating_inv _ _ _ _ _ _ _ Hvote)
      as [[_ ->]|(rating & _ & Hf & _ & _ & -> & _)]; [done|].
    apply Forall_replaced; [done|].
    apply addHelpfulVote_consistent.
    pose proof (find_some_elem _ _ _ Hf) as Hin.
    by destruct (proj1 (Forall_forall _ _) Hall _ Hin) as (_ & _ & ?).
Qed.

Lemma serveAll_consistent trace : ∀ db replies db',
  Forall ledgerConsistent (ratings db) →
  serveAll trace db = (replies, db') →
  Forall ledgerConsistent (ratings db').
Proof.
  induction trace as [|[[env u] rq] trace IH]; intros db replies db' Hall Hrun;
    cbn [serveAll] in Hrun.
  - by injection Hrun as _ <-.
  - destruct (serve env u rq db) as [reply db1] eqn:Hs.
    destruct (serveAll trace db1) as [rs db2] eqn:Hr.
    injection Hrun as _ <-.
    eapply IH; [|exact Hr]. by eapply serve_consistent.
Qed.

(** C5.  The helpfulness ledger.
    - [addHelpfulVote] leaves exactly one entry by the voter, the new
      one, keeps the entries of all other users, and sets [upvotes] and
      [downvotes] to the numbers of "up" and "down" entries of the new
      ledger.
    - After any non-empty sequence of votes by one student on a rating of
      somebody else, every vote was accepted and the stored ledger holds
      exactly one entry by that student, the last vote, with both counters
      equal to the counts over the ledger.
    - Along any trace of requests, a state in which every rating has
      counters equal to the counts over a duplicate-free ledger is followed
      by such a state.
    - A vote by the author of the rating is rejected and changes
      nothing. *)
Theorem helpful_votes_ledger :
  (∀ (now_ : Z) (r : Rating) (userId : ObjectId) (voteType : string),
     let r' := addHelpfulVote now_ r userId voteType in
     votesBy userId r' = [mkVoter userId voteType now_] ∧
     (∀ w, w ≠ userId → votesBy w r' = votesBy w r) ∧
     upvotes (helpfulVotes r') = countVotes "up" (voters (helpfulVotes r')) ∧
     downvotes (helpfulVotes r') = countVotes "down" (voters (helpfulVotes r')))
  ∧
  (∀ (u : User) (ratingId : ObjectId) (votes : list (Env * string))
     (env : Env) (voteType : string) (db db' : Db) (rating : Rating)
     (replies : list Response),
     role u = Identity.student →
     findById db ratingId = Some rating →
     student rating ≠ Identity.id u →
     Forall (fun '(_, w) => w ∈ ["up"; "down"]) (votes ++ [(env, voteType)]) →
     serveAll (votesOf u ratingId (votes ++ [(env, voteType)])) db
       = (replies, db') →
     Forall (fun reply => httpStatus reply = 200) replies ∧
     ∃ r', findById db' ratingId = Some r' ∧
           votesBy (Identity.id u) r' =
             [mkVoter (Identity.id u) voteType (now env)] ∧
           upvotes (helpfulVotes r') =
             countVotes "up" (voters (helpfulVotes r')) ∧
           downvotes (helpfulVotes r') =
             countVotes "down" (voters (helpfulVotes r')))
  ∧
  (∀ (trace : list (Env * User * Request)) (db db' : Db)
     (replies : list Response),
     Forall ledgerConsistent (ratings db) →
     serveAll trace db = (replies, db') →
     Forall ledgerConsistent (ratings db'))
  ∧
  (∀ (env : Env) (u : User) (ratingId : ObjectId) (voteType : string)
     (db : Db) (rating : Rating),
     findById db ratingId = Some rating →
     student rating = Identity.id u →
     (voteType ∈ ["up"; "down"] →
      voteOnRating env u ratingId voteType db = (CannotVoteOwnRating, db)) ∧
     snd (voteOnRating env u ratingId voteType db) = db ∧
     httpStatus (fst (voteOnRating env u ratingId voteType db)) = 400 ∧
     snd (post_vote env u ratingId voteType db) = db ∧
     httpStatus (fst (post_vote env u ratingId voteType db)) ≠ 200).
Proof.
  split; [|split; [|split]].
  - intros. apply addHelpfulVote_ledger.
  - intros u rid votes env v db db' rating replies Hrole Hf Hs Hall Hrun.
    destruct (votes_by_one_user u rid votes db rating env v replies db'
                Hrole Hf Hs Hall Hrun) as [Hok [r0 Hr0]].
    split; [done|]. eexists. split; [exact Hr0|].
    destruct (addHelpfulVote_ledger (now env) r0 (Identity.id u) v)
      as (H1 & _ & H2 & H3).
    done.
  - intros. by eapply serveAll_consistent.
  - intros env u rid v db rating Hf Hs.
    assert (voteOnRating env u rid v db =
            (if bool_decide (v ∈ ["up"; "down"]) then CannotVoteOwnRating
             else InvalidVoteType, db)) as Hv.
    { unfold voteOnRating. case_bool_decide; cbn [negb]; [|done].
      by rewrite Hf, bool_decide_eq_true_2. }
    split; [|split; [|split; [|split]]].
    + intros Hin. by rewrite Hv, bool_decide_eq_true_2.
    + by rewrite Hv.
    + rewrite Hv. by case_bool_decide.
    + unfold post_vote.
      destruct (authorize _ u); cbn [negb]; [|done].
      destruct (validateVote v); cbn [negb]; [|done]. by rewrite Hv.
    + unfold post_vote.
      destruct (authorize _ u); cbn [negb]; [|done].
      destruct (validateVote v); cbn [negb]; [|done].
      rewrite Hv. by case_bool_decide.
Qed.

(** Bob votes up and then down on Alice's rating: one entry by Bob, the
    "down" of 17:00.  Alice's own vote on it is refused. *)
Lemma helpful_votes_ledger_witness :
  (∃ r', findById (snd Example.afterVotes) 1000%N = Some r' ∧
         votesBy 102%N r' = [mkVoter 102 "down" 61200000] ∧
         upvotes (helpfulVotes r') =
           countVotes "up" (voters (helpfulVotes r')) ∧
         downvotes (helpfulVotes r') =
           countVotes "down" (voters (helpfulVotes r'))) ∧
  voteOnRating (Example.at1305 0) Example.alice 1000%N "up" Example.db1
    = (CannotVoteOwnRating, Example.db1).
Proof.
  destruct helpful_votes_ledger as (_ & Hseq & _ & Hown). split.
  - destruct (Hseq Example.bob 1000%N [(Example.at1305 0, "up")]
                (Example.at1700 0) "down" Example.db1
                (snd Example.afterVotes) Example.firstRating
                (fst Example.afterVotes)) as [_ Hex].
    + reflexivity.
    + vm_compute. reflexivity.
    + vm_compute. discriminate.
    + repeat constructor.
    + apply surjective_pairing.
    + exact Hex.
  - apply (Hown (Example.at1305 0) Example.alice 1000%N "up" Example.db1
             Example.firstRating).
    + vm_compute. reflexivity.
    + reflexivity.
    + repeat constructor.
Defined.

End Votes.

(** ** Deletion *)

Section Deletion.
Import JS Identity Feedback.

(** [deleteRating] writes the rating and nothing else. *)
Lemma deleteRating_leaves_aggregates env u rid db :
  menuItems (snd (deleteRating env u rid db)) = menuItems db ∧
  dailyMenus (snd (deleteRating env u rid db)) = dailyMenus db.
Proof. unfold deleteRating. repeat case_match; done. Qed.

(** A rating deleted by its owner within the hour is inactive. *)
Lemma deleteRating_deactivates env u rid db rating :
  findOwn db rid (Identity.id u) = Some rating →
  now env - createdAt rating ≤ 1 * 3600000 →
  deleteRating env u rid db =
    (RatingDeleted, saveRating (set_isActive false rating) db).
Proof.
  intros Hf Hw. unfold deleteRating. rewrite Hf.
  rewrite bool_decide_eq_false_2 by by apply hours_le.
  by rewrite preSave_same_categories.
Qed.

(** C2, at a failing input.  Alice rates item X with 4, Bob with 2, and
    Bob deletes his rating half an hour later.  The only active rating of
    the item is Alice's 4, yet the item still reports an average of 3 over
    2 ratings. *)
Theorem deleted_rating_stays_in_aggregate :
  fst Example.withdrawal = RatingDeleted ∧
  List.map overallRating (activeRatingsOf (snd Example.withdrawal) 1%N)
    = [num 4] ∧
  ∃ m, menuItems (snd Example.withdrawal) !! 1%N = Some m ∧
       Catalog.totalRatings m = 2 ∧
       Catalog.averageRating m = num 3 ∧
       Catalog.averageRating m ≠
         mean (List.map overallRating
                 (activeRatingsOf (snd Example.withdrawal) 1%N)).
Proof.
  split; [vm_compute; reflexivity|].
  split; [vm_compute; reflexivity|].
  eexists. split; [vm_compute; reflexivity|].
  split; [vm_compute; reflexivity|].
  split.
  - apply Qc_is_canon. vm_compute. reflexivity.
  - intros H. apply (f_equal (fun q => Qnum (this q))) in H.
    vm_compute in H. discriminate.
Qed.

End Deletion.

(** ** Publishing a daily menu *)

Section Publishing.
Import Identity Scheduling.

(** The handler as one case distinction. *)
Lemma publishDailyMenu_cases user id menus :
  publishDailyMenu user id menus =
  match findOne menus id (req_facilityId user) (req_messType user) with
  | None => (DailyMenuNotFound, menus)
  | Some m =>
      if bool_decide (status m = published ∨ status m = active)
      then (AlreadyPublished, menus)
      else if bool_decide (menuItems m = [])
      then (CannotPublishWithoutItems, menus)
      else
        (Published (preSave (set_status published (Identity.id user) m)),
         <[id := preSave (set_status published (Identity.id user) m)]> menus)
  end.
Proof.
  unfold publishDailyMenu.
  destruct (findOne _ _ _ _) as [m|]; [|done].
  destruct (status m); simpl; try done;
    destruct (menuItems m); simpl; done.
Qed.

(** C6, as the code has it.  Publishing succeeds, and leaves the menu
    stored with status "published", exactly when a menu with that id exists
    for the caller's facility and mess type, its status is neither
    "published" nor "active", and it lists at least one item; so a draft
    with an item is published, and so is a completed or cancelled menu
    with an item.  A published or active menu is rejected (InvalidState),
    a menu without items is rejected, and every rejection leaves the
    stored menus as they were. *)
Theorem publishDailyMenu_succeeds_iff :
  ∀ (user : User) (id : ObjectId) (menus : gmap ObjectId DailyMenu),
    ((∃ m', fst (publishDailyMenu user id menus) = Published m') ↔
     (∃ m, findOne menus id (req_facilityId user) (req_messType user)
             = Some m ∧
           status m ≠ published ∧ status m ≠ active ∧ menuItems m ≠ [])) ∧
    (∀ m', fst (publishDailyMenu user id menus) = Published m' →
           status m' = published ∧
           snd (publishDailyMenu user id menus) !! id = Some m') ∧
    (∀ m, findOne menus id (req_facilityId user) (req_messType user)
            = Some m →
          status m = published ∨ status m = active →
          publishDailyMenu user id menus = (AlreadyPublished, menus)) ∧
    (∀ m, findOne menus id (req_facilityId user) (req_messType user)
            = Some m →
          menuItems m = [] →
          ∃ reply, publishDailyMenu user id menus = (reply, menus) ∧
                   ∀ m', reply ≠ Published m') ∧
    (∀ m, findOne menus id (req_facilityId user) (req_messType user)
            = Some m →
          status m = draft → menuItems m ≠ [] →
          ∃ m', publishDailyMenu user id menus
                  = (Published m', <[id := m']> menus) ∧
                status m' = published).
Proof.
  intros user id menus. rewrite publishDailyMenu_cases.
  split; [|split; [|split; [|split]]].
  - split.
    + intros [m' Hm']. destruct (findOne menus id _ _) as [m|]; [|done].
      case_bool_decide as Hs; [done|]. case_bool_decide as Hi; [done|].
      exists m. split; [done|].
      split; [intros E; apply Hs; by left|].
      split; [intros E; apply Hs; by right|done].
    + intros (m & -> & H1 & H2 & H3).
      rewrite bool_decide_eq_false_2 by (intros [?|?]; done).
      rewrite bool_decide_eq_false_2 by done. by eexists.
  - intros m' Hm'. destruct (findOne menus id _ _) as [m|]; [|done].
    case_bool_decide as Hs; [done|]. case_bool_decide as Hi; [done|].
    simpl in *. injection Hm' as <-. split; [done|]. apply lookup_insert_eq.
  - intros m -> Hs. by rewrite bool_decide_eq_true_2.
  - intros m -> Hi. case_bool_decide.
    + by exists AlreadyPublished.
    + rewrite bool_decide_eq_true_2 by done.
      by exists CannotPublishWithoutItems.
  - intros m -> Hd Hi.
    rewrite bool_decide_eq_false_2 by (rewrite Hd; intros [?|?]; done).
    rewrite bool_decide_eq_false_2 by done. by eexists.
Qed.

(** The draft of the sample data is published by its admin. *)
Lemma publishDailyMenu_succeeds_iff_witness :
  ∃ m', publishDailyMenu Example.admin 7%N {[ 7%N := Example.draftMenu ]}
          = (Published m', <[7%N := m']> {[ 7%N := Example.draftMenu ]}) ∧
        status m' = published.
Proof.
  destruct (publishDailyMenu_succeeds_iff Example.admin 7%N
              {[ 7%N := Example.draftMenu ]}) as (_ & _ & _ & _ & H).
  apply (H Example.draftMenu).
  - vm_compute. reflexivity.
  - reflexivity.
  - discriminate.
Defined.

(** C6 as stated fails: a completed menu with one item is published
    although its status is not "draft". *)
Lemma publishDailyMenu_completed_counterexample :
  (∃ m', fst (publishDailyMenu Example.admin 7%N
                {[ 7%N := Example.completedMenu ]}) = Published m' ∧
         status m' = published) ∧
  ¬ (∃ m, ({[ 7%N := Example.completedMenu ]} : gmap ObjectId DailyMenu)
            !! 7%N = Some m ∧
          status m = draft ∧ menuItems m ≠ []).
Proof.
  split.
  - eexists. split; vm_compute; reflexivity.
  - intros (m & Hm & Hd & _). vm_compute in Hm.
    injection Hm as <-. discriminate.
Qed.

End Publishing.

(** ** The facility directory *)

Section DirectoryProperties.
Import JS Identity Directory.

Lemma find_none_iff {A} (p : A → bool) l :
  List.find p l = None ↔ ∀ x, x ∈ l → p x = false.
Proof.
  induction l as [|y l IH]; simpl.
  - split; [intros _ x Hx; by apply elem_of_nil in Hx|done].
  - destruct (p y) eqn:E.
    + split; [done|]. intros H. specialize (H y (list_elem_of_here _ _)).
      congruence.
    + rewrite IH. split.
      * intros H x Hx. apply elem_of_cons in Hx as [->|Hx]; auto.
      * intros H x Hx. apply H. by apply list_elem_of_further.
Qed.

Lemma find_is_some_iff {A} (p : A → bool) l :
  is_Some (List.find p l) ↔ ∃ x, x ∈ l ∧ p x = true.
Proof.
  split.
  - intros [x Hx]. exists x. split.
    + clear -Hx. induction l as [|y l IH]; simpl in *; [done|].
      destruct (p y); [injection Hx as <-; apply list_elem_of_here|].
      apply list_elem_of_further. by apply IH.
    + clear -Hx. induction l as [|y l IH]; simpl in *; [done|].
      destruct (p y) eqn:E; [by injection Hx as <-|]. by apply IH.
  - intros (x & Hin & Hp).
    destruct (List.find p l) eqn:E; [by eexists|].
    apply find_none_iff with (x := x) in E; [congruence|done].
Qed.

Lemma nameTaken_find f messName :
  nameTaken f messName ↔
  is_Some (List.find (sameNameActive messName) (messes f)).
Proof.
  rewrite find_is_some_iff. unfold nameTaken, sameNameActive.
  split; intros (mess & Hin & H); exists mess; split; try done.
  - destruct H as [-> ->]. by rewrite bool_decide_eq_true_2.
  - apply andb_true_iff in H as [H1 H2].
    by apply bool_decide_eq_true in H1.
Qed.

(** C7.  [addMess] throws its "already exists" error exactly when the
    facility holds an active mess whose name equals the new name up to the
    case of letters; messes of other facilities play no part.  Otherwise
    it returns the generated id and appends one mess to the list: active,
    named as requested, with that id, which is built from the two names
    and the clock. *)
Theorem addMess_conflict_iff :
  ∀ (now : Z) (this : Facility) (messData : MessData),
    (addMess now this messData =
       inl "Mess with this name already exists in this facility"
     ↔ nameTaken this (md_name messData)) ∧
    ((∃ message, addMess now this messData = inl message)
     ↔ nameTaken this (md_name messData)) ∧
    (¬ nameTaken this (md_name messData) →
     let messId_ := generateMessId (f_name this) (md_name messData) now in
     let mess :=
       mkMess (md_name messData) (Some messId_) (md_description messData)
         (md_capacity messData) true now in
     addMess now this messData =
       inr (messId_, set_messes (messes this ++ [mess]) this) ∧
     isActive mess = true ∧
     messId_ =
       slug (f_name this) +:+ "_" +:+ slug (md_name messData) +:+ "_" +:+
       string_of_int now) ∧
    (∀ other : Facility,
       nameTaken other (md_name messData) →
       ¬ nameTaken this (md_name messData) →
       (∃ message, addMess now other messData = inl message) ∧
       ∃ messId_ this', addMess now this messData = inr (messId_, this') ∧
                        length (messes this') = S (length (messes this))).
Proof.
  intros now this messData.
  assert (Hyes : nameTaken this (md_name messData) →
                 addMess now this messData =
                 inl "Mess with this name already exists in this facility").
  { intros H. apply nameTaken_find in H as [m Hm].
    unfold addMess. by rewrite Hm. }
  assert (Hno : ¬ nameTaken this (md_name messData) →
                addMess now this messData =
                inr (generateMessId (f_name this) (md_name messData) now,
                     set_messes
                       (messes this ++
                        [mkMess (md_name messData)
                           (Some (generateMessId (f_name this)
                                    (md_name messData) now))
                           (md_description messData) (md_capacity messData)
                           true now]) this)).
  { intros H. unfold addMess.
    destruct (List.find _ (messes this)) as [m|] eqn:E; [|done].
    exfalso. apply H, nameTaken_find. by eexists. }
  assert (Hdec : nameTaken this (md_name messData) ∨
                 ¬ nameTaken this (md_name messData)).
  { rewrite nameTaken_find.
    destruct (List.find _ (messes this)); [left; by eexists|right].
    by intros [? ?]. }
  split; [|split; [|split]].
  - split; [|exact Hyes]. intros H.
    destruct Hdec as [|Hn]; [done|]. rewrite (Hno Hn) in H. done.
  - split; [|intros H; eexists; by apply Hyes]. intros [message H].
    destruct Hdec as [|Hn]; [done|]. rewrite (Hno Hn) in H. done.
  - intros Hn. cbv zeta. split; [by apply Hno|]. done.
  - intros other Ho Hn. split.
    + apply nameTaken_find in Ho as [m Hm]. unfold addMess. rewrite Hm.
      by eexists.
    + eexists _, _. split; [by apply Hno|].
      simpl. rewrite length_app. simpl. lia.
Qed.

(** "sj mess" collides with the active "SJ Mess" of SJ Hall and is added
    to North Hall, which has no such mess. *)
Lemma addMess_conflict_iff_witness :
  (∃ message,
     addMess 1700000000001 DirectoryExample.sjHall DirectoryExample.sameName
       = inl message) ∧
  ∃ messId_ this',
    addMess 1700000000001 DirectoryExample.northHall DirectoryExample.sameName
      = inr (messId_, this') ∧
    length (messes this') = S (length (messes DirectoryExample.northHall)).
Proof.
  destruct (addMess_conflict_iff 1700000000001 DirectoryExample.northHall
              DirectoryExample.sameName) as (_ & _ & _ & H).
  apply (H DirectoryExample.sjHall).
  - exists DirectoryExample.sjMess. split; [apply list_elem_of_here|].
    split; reflexivity.
  - intros (mess & Hin & _). simpl in Hin. by apply elem_of_nil in Hin.
Defined.

(** White space runs collapse to one underscore in the generated id. *)
Example generateMessId_example :
  generateMessId "SJ Hall" "SJ   Mess" 1700000000000
  = "sj_hall_sj_mess_1700000000000".
Proof. vm_compute. reflexivity. Qed.

(** The schema rejects a facility as soon as one mess has no [messId]. *)
Lemma validate_missing_messId f ms m :
  messes f = ms ++ [m] → messId m = None → validate f = false.
Proof.
  intros Hms Hid. unfold validate. rewrite Hms, forallb_app. simpl.
  unfold validMess at 2. rewrite Hid.
  by rewrite !andb_false_r.
Qed.

(** The controller behind [POST /api/facilities/add-mess] does not call
    [addMess]: it compares names exactly, looks at inactive messes too,
    and pushes a mess without [messId], which the schema refuses on
    [save].  No call of it ever adds a mess. *)
Lemma addMessToFacility_never_adds now body coll :
  snd (addMessToFacility now body coll) = coll ∧
  ∀ f, fst (addMessToFacility now body coll) ≠ MessAdded f.
Proof.
  unfold addMessToFacility.
  destruct (findByName coll _) as [facility|]; [|done].
  destruct (List.find _ (messes facility)); [done|].
  unfold save, checkWrite.
  erewrite validate_missing_messId; [done|simpl; reflexivity|reflexivity].
Qed.

Example addMessToFacility_other_spelling :
  addMessToFacility 1700000000001
    (mkAddMessBody "SJ Hall" "sj mess" None None) [DirectoryExample.sjHall]
  = (CouldNotAddMess, [DirectoryExample.sjHall]).
Proof. vm_compute. reflexivity. Qed.

(** *** [createFacility] *)

(** The handler as one case distinction: the only replies are the name
    conflict and the generic failure. *)
Lemma createFacility_cases now newId u body coll :
  createFacility now newId u body coll =
  (match findByName coll (cb_name body) with
   | Some _ => FacilityAlreadyExists
   | None => CouldNotCreateFacility
   end, coll).
Proof.
  unfold createFacility.
  destruct (findByName coll _); [done|].
  unfold create, checkWrite.
  erewrite (validate_missing_messId _ []); [done|simpl; reflexivity|reflexivity].
Qed.

(** The name check is an exact comparison of the stored names. *)
Lemma createFacility_conflict now newId u body coll :
  (∃ f, f ∈ coll ∧ f_name f = cb_name body) ↔
  createFacility now newId u body coll = (FacilityAlreadyExists, coll).
Proof.
  rewrite createFacility_cases. unfold findByName. split.
  - intros (f & Hin & Hn).
    destruct (List.find _ coll) eqn:E; [done|].
    apply find_none_iff with (x := f) in E; [|done].
    by rewrite bool_decide_eq_true_2 in E.
  - intros H. destruct (List.find _ coll) as [f|] eqn:E; [|done].
    exists f. split; [by eapply find_some_elem|].
    apply find_some_pred in E. by apply bool_decide_eq_true in E.
Qed.

(** No call of [createFacility] stores a facility. *)
Lemma createFacility_never_creates now newId u body coll :
  snd (createFacility now newId u body coll) = coll ∧
  ∀ f, fst (createFacility now newId u body coll) ≠ FacilityCreated f.
Proof.
  rewrite createFacility_cases. split; [done|].
  intros f. simpl. by destruct (findByName coll _).
Qed.

(** C8, at a failing input.  In an empty directory [createFacility] is
    asked for facility "SJ Hall" with mess "SJ Mess".  The name is free,
    the handler builds the mess without a [messId], the schema refuses the
    document and the reply is the generic failure; nothing is stored.
    The same names given to the registration of a mess admin create the
    facility with one active mess whose id is
    slug(facility)_slug(mess)_clock. *)
Theorem createFacility_fresh_name_fails :
  createFacility 1700000000000 1 DirectoryExample.admin
    DirectoryExample.newHall [] = (CouldNotCreateFacility, []) ∧
  ∃ f mess,
    registerFacility 1700000000000 1 "Asha" "SJ Hall" college "SJ Mess" []
      = (Registered f "sj_hall_sj_mess_1700000000000", [f]) ∧
    messes f = [mess] ∧ isActive mess = true ∧
    messId mess = Some "sj_hall_sj_mess_1700000000000".
Proof.
  split; [vm_compute; reflexivity|].
  eexists _, _. split; [vm_compute; reflexivity|].
  split; [reflexivity|]. split; reflexivity.
Qed.

End DirectoryProperties.

(** * Further properties of the same code *)

(** ** The statistics of a daily menu *)

Section MenuStatistics.
Import JS Identity Feedback Statistics.

Lemma runningMean_snoc l avg x :
  (l ≠ [] → avg = mean l) →
  runningMean avg (Z.of_nat (length l) + 1) x = mean (l ++ [x]).
Proof.
  intros H. unfold runningMean.
  replace (Z.of_nat (length l) + 1 - 1) with (Z.of_nat (length l)) by lia.
  destruct l as [|y l].
  - unfold mean. cbn [length app sum foldr]. change (Z.of_nat 0 + 1) with 1.
    change (Z.of_nat 1) with 1. change (Z.of_nat 0) with 0.
    rewrite num_0, num_1. field. done.
  - rewrite H by done. apply mean_snoc.
Qed.

Lemma updateRatingStats_mean bodies dm b :
  statsAreMeanOf bodies (Scheduling.ratingStats dm) →
  statsAreMeanOf (bodies ++ [b])
    (Scheduling.ratingStats
       (updateRatingStats (b_overallRating b) (b_categoryRatings b) dm)).
Proof.
  intros [Ht Hm]. unfold statsAreMeanOf, updateRatingStats.
  cbn [Scheduling.ratingStats Scheduling.set_ratingStats
       Scheduling.totalRatings Scheduling.averageRating
       Scheduling.categoryAverages Scheduling.taste Scheduling.quantity
       Scheduling.freshness Scheduling.value].
  rewrite Ht, !map_app. cbn [List.map].
  split; [rewrite length_app; simpl; lia|]. intros _.
  split; [|split; [|split; [|split]]].
  - rewrite <- (length_map b_overallRating bodies).
    apply runningMean_snoc. intros Hne. apply Hm. by destruct bodies.
  - rewrite <- (length_map (fun b => taste (b_categoryRatings b)) bodies).
    apply runningMean_snoc. intros Hne. apply Hm. by destruct bodies.
  - rewrite <- (length_map (fun b => quantity (b_categoryRatings b)) bodies).
    apply runningMean_snoc. intros Hne. apply Hm. by destruct bodies.
  - rewrite <- (length_map (fun b => freshness (b_categoryRatings b)) bodies).
    apply runningMean_snoc. intros Hne. apply Hm. by destruct bodies.
  - rewrite <- (length_map (fun b => value (b_categoryRatings b)) bodies).
    apply runningMean_snoc. intros Hne. apply Hm. by destruct bodies.
Qed.

(** What one accepted submission does to the daily menu it names. *)
Lemma submitted_menu_step bodies dm b :
  statsAreMeanOf bodies (Scheduling.ratingStats dm) →
  let dm' :=
    Scheduling.preSave
      (Scheduling.updateParticipationRate
         (updateRatingStats (b_overallRating b) (b_categoryRatings b) dm)) in
  statsAreMeanOf (bodies ++ [b]) (Scheduling.ratingStats dm') ∧
  Scheduling.expectedStudents dm' = Scheduling.expectedStudents dm ∧
  Scheduling.status dm' = Scheduling.status dm ∧
  Scheduling.menuItems dm' = Scheduling.menuItems dm ∧
  (∀ e, Scheduling.expectedStudents dm = Some e → (0 < e)%Qc →
        Scheduling.participationRate (Scheduling.ratingStats dm') =
          Math_round
            (num (Z.of_nat (length (bodies ++ [b]))) / e * num 100)%Qc).
Proof.
  intros Hs dm'. pose proof (updateRatingStats_mean _ _ b Hs) as Hs'.
  subst dm'. unfold Scheduling.updateParticipationRate.
  remember (updateRatingStats (b_overallRating b) (b_categoryRatings b) dm)
    as dm1 eqn:Hdm1.
  assert (He : Scheduling.expectedStudents dm1 = Scheduling.expectedStudents dm)
    by (by subst dm1).
  assert (Hst : Scheduling.status dm1 = Scheduling.status dm) by (by subst dm1).
  assert (Hit : Scheduling.menuItems dm1 = Scheduling.menuItems dm)
    by (by subst dm1).
  clear Hdm1. rewrite He.
  destruct (Scheduling.expectedStudents dm) as [e|] eqn:Hexp.
  - destruct (decide (0 < e)%Qc) as [Hpos|Hneg].
    + cbn [Scheduling.preSave Scheduling.set_ratingStats
           Scheduling.ratingStats Scheduling.expectedStudents
           Scheduling.status Scheduling.menuItems
           Scheduling.participationRate].
      split; [exact Hs'|]. split; [done|]. split; [done|]. split; [done|].
      intros e' [= <-] _. by rewrite (proj1 Hs').
    + cbn [Scheduling.preSave Scheduling.ratingStats
           Scheduling.expectedStudents Scheduling.status
           Scheduling.menuItems].
      split; [exact Hs'|]. split; [done|]. split; [done|]. split; [done|].
      intros e' [= <-] Hpos. done.
  - cbn [Scheduling.preSave Scheduling.ratingStats
         Scheduling.expectedStudents Scheduling.status Scheduling.menuItems].
    split; [exact Hs'|]. split; [done|]. split; [done|]. split; [done|].
    intros e' [=].
Qed.

(** The invariant carried along a trace of submissions. *)
Lemma serve_submissions_stats menuId trace :
  ∀ db prev dm0 dm replies db',
    dailyMenus db !! menuId = Some dm →
    statsAreMeanOf prev (Scheduling.ratingStats dm) →
    Scheduling.expectedStudents dm = Scheduling.expectedStudents dm0 →
    Scheduling.status dm = Scheduling.status dm0 →
    Scheduling.menuItems dm = Scheduling.menuItems dm0 →
    (prev ≠ [] →
     ∀ e, Scheduling.expectedStudents dm0 = Some e → (0 < e)%Qc →
       Scheduling.participationRate (Scheduling.ratingStats dm) =
         Math_round (num (Z.of_nat (length prev)) / e * num 100)%Qc) →
    serveAll (submissions trace) db = (replies, db') →
    ∃ dm', dailyMenus db' !! menuId = Some dm' ∧
      statsAreMeanOf (prev ++ acceptedOn menuId trace replies)
        (Scheduling.ratingStats dm') ∧
      Scheduling.expectedStudents dm' = Scheduling.expectedStudents dm0 ∧
      Scheduling.status dm' = Scheduling.status dm0 ∧
      Scheduling.menuItems dm' = Scheduling.menuItems dm0 ∧
      (prev ++ acceptedOn menuId trace replies ≠ [] →
       ∀ e, Scheduling.expectedStudents dm0 = Some e → (0 < e)%Qc →
         Scheduling.participationRate (Scheduling.ratingStats dm') =
           Math_round
             (num (Z.of_nat
                     (length (prev ++ acceptedOn menuId trace replies)))
              / e * num 100)%Qc).
Proof.
  induction trace as [|[[env u] b] trace IH];
    intros db prev dm0 dm replies db' Hd Hs He Hst Hit Hrate Hrun.
  - simpl in Hrun. injection Hrun as <- <-. exists dm.
    simpl. rewrite app_nil_r. split_and!; done.
  - simpl in Hrun.
    destruct (post_rating env u b db) as [reply db1] eqn:Hp.
    destruct (serveAll (submissions trace) db1) as [replies1 db2] eqn:Hrest.
    injection Hrun as <- <-.
    destruct (post_rating_inv _ _ _ _ _ _ Hp)
      as [[Hno ->]|(_ & _ & _ & Hsub & Hyes)].
    + destruct (IH _ _ _ _ _ _ Hd Hs He Hst Hit Hrate Hrest)
        as (dm' & Hd' & H').
      exists dm'. split; [done|]. simpl. by rewrite Hno.
    + destruct (submitRating_inv _ _ _ _ _ _ Hsub)
        as [[Hno _]|(m0 & dmb & -> & _ & _ & Hdmb & _ & _ & _ & Hmenus)];
        [congruence|].
      destruct (decide (b_dailyMenuId b = menuId)) as [Heq|Hne].
      * subst menuId. rewrite Hd in Hdmb. injection Hdmb as <-.
        destruct (submitted_menu_step prev dm b Hs)
          as (Hs1 & He1 & Hst1 & Hit1 & Hrate1).
        assert (Hd1 : dailyMenus db1 !! b_dailyMenuId b =
                  Some (Scheduling.preSave
                          (Scheduling.updateParticipationRate
                             (updateRatingStats (b_overallRating b)
                                (b_categoryRatings b) dm)))).
        { rewrite Hmenus. apply lookup_insert_eq. }
        assert (Hrate1' : prev ++ [b] ≠ [] →
          ∀ e, Scheduling.expectedStudents dm0 = Some e → (0 < e)%Qc →
            Scheduling.participationRate
              (Scheduling.ratingStats
                 (Scheduling.preSave
                    (Scheduling.updateParticipationRate
                       (updateRatingStats (b_overallRating b)
                          (b_categoryRatings b) dm)))) =
            Math_round
              (num (Z.of_nat (length (prev ++ [b]))) / e * num 100)%Qc).
        { intros _ e Hexp Hpos. apply Hrate1; [by rewrite He|done]. }
        destruct (IH _ (prev ++ [b]) dm0 _ _ _ Hd1 Hs1
                    (eq_trans He1 He) (eq_trans Hst1 Hst)
                    (eq_trans Hit1 Hit) Hrate1' Hrest)
          as (dm' & Hd' & Hs' & He' & Hst' & Hit' & Hrate').
        exists dm'. split; [done|]. simpl.
        rewrite bool_decide_eq_true_2 by done. simpl.
        rewrite <- app_assoc in Hs', Hrate'. simpl in Hs', Hrate'.
        split_and!; done.
      * assert (Hd1 : dailyMenus db1 !! menuId = Some dm).
        { rewrite Hmenus. by rewrite lookup_insert_ne. }
        destruct (IH _ _ _ _ _ _ Hd1 Hs He Hst Hit Hrate Hrest)
          as (dm' & Hd' & H').
        exists dm'. split; [done|]. simpl.
        by rewrite bool_decide_eq_false_2.
Qed.

(** X1.  Whatever submissions are served, accepted or not: a daily menu
    that had no rating before counts the submissions that name it and
    were answered with 201, while its status, its entries and the number
    of students it expects stay as they were. *)
Theorem dailyMenu_stats_follow_submissions :
  ∀ (trace : list (Env * User * SubmitBody)) (db db' : Db)
    (menuId : ObjectId) (dm : Scheduling.DailyMenu)
    (replies : list Response),
    dailyMenus db !! menuId = Some dm →
    Scheduling.totalRatings (Scheduling.ratingStats dm) = 0 →
    serveAll (submissions trace) db = (replies, db') →
    ∃ dm', dailyMenus db' !! menuId = Some dm' ∧
      Scheduling.totalRatings (Scheduling.ratingStats dm') =
        Z.of_nat (length (acceptedOn menuId trace replies)) ∧
      Scheduling.status dm' = Scheduling.status dm ∧
      Scheduling.menuItems dm' = Scheduling.menuItems dm ∧
      Scheduling.expectedStudents dm' = Scheduling.expectedStudents dm.
Proof.
  intros trace db db' menuId dm replies Hd Hzero Hrun.
  destruct (serve_submissions_stats menuId trace db [] dm dm replies db' Hd)
    as (dm' & Hd' & [Ht _] & He' & Hst' & Hit' & _); try done.
  exists dm'. split_and!; done.
Qed.

(** The two submissions of the sample data, both for the lunch menu:
    the menu counts two ratings and is still published. *)
Lemma dailyMenu_stats_follow_submissions_witness :
  ∃ dm', dailyMenus Example.db2 !! 7%N = Some dm' ∧
    Scheduling.totalRatings (Scheduling.ratingStats dm') = 2 ∧
    Scheduling.status dm' = Scheduling.published.
Proof.
  destruct (dailyMenu_stats_follow_submissions Example.trace Example.db0
              Example.db2 7%N Example.lunchMenu
              (fst (serveAll (submissions Example.trace) Example.db0)))
    as (dm' & Hd & Ht & Hst & _).
  - reflexivity.
  - reflexivity.
  - apply surjective_pairing.
  - exists dm'. split; [exact Hd|]. split; [|exact Hst].
    rewrite Ht. vm_compute. reflexivity.
Defined.

End MenuStatistics.

(** ** The summary of an item's ratings *)

Section RatingSummary.
Import JS Identity Feedback Statistics.

(** The ratings an accepted submission adds are exactly the ones the
    summary of the item reads. *)
Lemma matched_submissions (f : Rating → number) (g : SubmitBody → number)
    itemId trace :
  (∀ env u b, f (ratingDocument env u b) = g b) →
  ∀ db replies db',
    serveAll (submissions trace) db = (replies, db') →
    List.map f (matched db' itemId None None) =
      List.map f (matched db itemId None None) ++
      List.map g (acceptedFor itemId trace replies).
Proof.
  intros Hfg.
  induction trace as [|[[env u] b] trace IH]; intros db replies db' Hrun.
  - simpl in Hrun. injection Hrun as <- <-. simpl. by rewrite app_nil_r.
  - simpl in Hrun.
    destruct (post_rating env u b db) as [reply db1] eqn:Hp.
    destruct (serveAll (submissions trace) db1) as [replies1 db2] eqn:Hrest.
    injection Hrun as <- <-. rewrite (IH _ _ _ Hrest). clear IH Hrest.
    destruct (post_rating_inv _ _ _ _ _ _ Hp)
      as [[Hno ->]|(_ & _ & _ & Hsub & Hyes)].
    + simpl. by rewrite Hno.
    + destruct (submitRating_inv _ _ _ _ _ _ Hsub)
        as [[Hno _]|(m0 & dm & -> & _ & _ & _ & _ & Hr & _ & _)];
        [congruence|].
      unfold matched at 1. rewrite Hr, List.filter_app, map_app.
      rewrite <- app_assoc. f_equal.
      cbn [List.filter acceptedFor isCreated andb ratingDocument menuItem
           isActive truthy].
      case_bool_decide; simpl; [|done]. by rewrite Hfg.
Qed.

(** X2.  While ratings are only submitted, and every submission is
    answered with 201, the summary computed from the stored ratings of
    an item counts as many ratings as the aggregate kept on the item:
    the item's [totalRatings] is the number of its stored active
    ratings, and there is no summary exactly when that number is 0. *)
Theorem summary_agrees_with_aggregate :
  ∀ (trace : list (Env * User * SubmitBody)) (db db' : Db)
    (itemId : ObjectId) (n f : string) (replies : list Response),
    menuItems db !! itemId = Some (Catalog.newMenuItem n f) →
    matched db itemId None None = [] →
    serveAll (submissions trace) db = (replies, db') →
    Forall (fun reply => isCreated reply = true) replies →
    ∃ m, menuItems db' !! itemId = Some m ∧
      Catalog.totalRatings m =
        Z.of_nat (length (matched db' itemId None None)) ∧
      match ratingSummary db' itemId None None with
      | None => Catalog.totalRatings m = 0
      | Some s => totalRatings s = Catalog.totalRatings m
      end.
Proof.
  intros trace db db' itemId n f replies Hm Hnone Hrun _.
  destruct (serve_submissions_mean itemId trace db [] _ replies db' Hm
              (newMenuItem_mean n f) Hrun) as (m & Hm' & Hagg).
  exists m. split; [done|]. simpl in Hagg.
  destruct Hagg as (Ht & _).
  pose proof (matched_submissions overallRating b_overallRating itemId trace
                (fun _ _ _ => eq_refl) _ _ _ Hrun) as Eo.
  rewrite Hnone in Eo. simpl in Eo.
  assert (Hlen : length (matched db' itemId None None) =
                 length (acceptedFor itemId trace replies)).
  { by rewrite <- (length_map overallRating), Eo, length_map. }
  split; [by rewrite Ht, Hlen|].
  unfold ratingSummary.
  destruct (matched db' itemId None None) as [|r rs] eqn:Hmatched.
  - rewrite Ht, <- Hlen. done.
  - cbn [totalRatings]. by rewrite Ht, <- Hlen.
Qed.

Lemma summary_agrees_with_aggregate_witness :
  ∃ m s, menuItems Example.db2 !! 1%N = Some m ∧
    ratingSummary Example.db2 1%N None None = Some s ∧
    totalRatings s = Catalog.totalRatings m.
Proof.
  destruct (summary_agrees_with_aggregate Example.trace Example.db0
              Example.db2 1%N "X" "sjhall"
              (fst (serveAll (submissions Example.trace) Example.db0)))
    as (m & Hm & _ & Hs).
  - reflexivity.
  - reflexivity.
  - apply surjective_pairing.
  - vm_compute. repeat constructor.
  - destruct (ratingSummary Example.db2 1%N None None) as [s|] eqn:E.
    + exists m, s. split; [exact Hm|]. split; [reflexivity|exact Hs].
    + exfalso. vm_compute in E. discriminate E.
Defined.

End RatingSummary.

(** ** The popularity score *)

Section Popularity.
Import JS Identity Feedback Statistics.

Lemma preSave_popularity stored m :
  Catalog.popularityScore m = Catalog.popularityScore stored →
  Catalog.popularityScore stored = popularityOf stored →
  Catalog.popularityScore (Catalog.preSave stored m) =
    popularityOf (Catalog.preSave stored m).
Proof.
  intros Hsame Hfresh. unfold Catalog.preSave.
  destruct (bool_decide (Catalog.totalRatings stored = Catalog.totalRatings m))
    eqn:Ht; [|done].
  destruct (bool_decide (Catalog.averageRating stored = Catalog.averageRating m))
    eqn:Ha; [|done].
  apply bool_decide_eq_true in Ht, Ha. simpl.
  rewrite Hsame, Hfresh. unfold popularityOf. by rewrite Ht, Ha.
Qed.

(** X3.  The popularity score follows the aggregate: after an accepted
    submission the rated item's score is the weighted sum of its new
    average and rating count, whatever it was before; an accepted edit
    keeps that relation when it held. *)
Theorem popularity_follows_aggregate :
  (∀ (env : Env) (u : User) (b : SubmitBody) (db db' : Db) (r : Rating),
     submitRating env u b db = (Created r, db') →
     ∃ m', menuItems db' !! b_menuItemId b = Some m' ∧
           Catalog.popularityScore m' = popularityOf m') ∧
  (∀ (env : Env) (u : User) (ratingId : ObjectId) (body : UpdateBody)
     (c : CategoryRatings) (db db' : Db) (reply : Response)
     (rating : Rating) (m : Catalog.MenuItem),
     u_categoryRatings body = Some c →
     updateRating env u ratingId body db = (reply, db') →
     httpStatus reply = 200 →
     findOwn db ratingId (Identity.id u) = Some rating →
     menuItems db !! menuItem rating = Some m →
     Catalog.popularityScore m = popularityOf m →
     ∃ m', menuItems db' !! menuItem rating = Some m' ∧
           Catalog.popularityScore m' = popularityOf m').
Proof.
  split.
  - intros env u b db db' r Hs.
    destruct (submitRating_inv _ _ _ _ _ _ Hs)
      as [[Hno _]|(m & dm & _ & _ & Hm & _ & _ & _ & Hitems & _)]; [done|].
    eexists. split; [rewrite Hitems; apply lookup_insert_eq|].
    unfold Catalog.preSave.
    rewrite (bool_decide_eq_false_2
               (Catalog.totalRatings m =
                Catalog.totalRatings
                  (Catalog.updateRatings m (ratingArgument b))))
      by (simpl; lia).
    done.
  - intros env u rid body c db db' reply rating m Hbody Hrun Hok Hf Hm Hfresh.
    destruct (updateRating_categories_inv _ _ _ _ _ _ _ _ Hbody Hrun)
      as [[Hbad _]|(rating0 & Hf0 & _ & _ & _ & ->)]; [done|].
    rewrite Hf in Hf0. injection Hf0 as <-. rewrite Hm.
    eexists. split; [apply lookup_insert_eq|].
    by apply preSave_popularity.
Qed.

Lemma popularity_follows_aggregate_witness :
  (∃ m', menuItems Example.db1 !! 1%N = Some m' ∧
         Catalog.popularityScore m' = popularityOf m') ∧
  (∃ m', menuItems (snd Example.edit) !! 1%N = Some m' ∧
         Catalog.popularityScore m' = popularityOf m').
Proof.
  destruct popularity_follows_aggregate as [Hsubmit Hedit]. split.
  - apply (Hsubmit (Example.at1300 1000) Example.alice Example.first
             Example.db0 Example.db1 Example.firstRating).
    reflexivity.
  - apply (Hedit (Example.at1305 0) Example.alice 1000%N
             (mkUpdateBody (Some Example.revised)) Example.revised
             Example.db1 (snd Example.edit) (fst Example.edit)
             Example.firstRating Example.itemAfterFirst).
    + reflexivity.
    + apply surjective_pairing.
    + reflexivity.
    + reflexivity.
    + reflexivity.
    + apply Qc_is_canon. reflexivity.
Defined.

End Popularity.

(** ** Votes: totals, scores and revotes *)

Section VoteTotals.
Import JS Identity Feedback Statistics.

Lemma countVotes_total (l : list Voter) :
  Forall (fun v => vote v = "up" ∨ vote v = "down") l →
  countVotes "up" l + countVotes "down" l = Z.of_nat (length l).
Proof.
  unfold countVotes. induction 1 as [|v l Hv Hl IH]; [done|].
  destruct Hv as [Hv|Hv].
  - rewrite (filter_cons_True (fun v => vote v = "up")) by done.
    rewrite (filter_cons_False (fun v => vote v = "down"))
      by (rewrite Hv; done).
    simpl length. lia.
  - rewrite (filter_cons_False (fun v => vote v = "up"))
      by (rewrite Hv; done).
    rewrite (filter_cons_True (fun v => vote v = "down")) by done.
    simpl length. lia.
Qed.

Lemma addHelpfulVote_valid now r u v :
  v ∈ ["up"; "down"] → votesValid r → votesValid (addHelpfulVote now r u v).
Proof.
  intros Hv Hr. unfold votesValid, addHelpfulVote. simpl.
  apply Forall_app. split.
  - apply Forall_forall. intros x Hx. apply list_elem_of_filter in Hx as [_ Hx].
    by apply (proj1 (Forall_forall _ _) Hr).
  - apply Forall_singleton. simpl.
    apply elem_of_cons in Hv as [->|Hv]; [by left|].
    apply list_elem_of_singleton in Hv as ->. by right.
Qed.

(** Every request keeps the vote types of every ledger within "up" and
    "down". *)
Lemma serve_valid env u rq db reply db' :
  Forall votesValid (ratings db) →
  serve env u rq db = (reply, db') →
  Forall votesValid (ratings db').
Proof.
  intros Hall Hrun. destruct rq as [b|rid body|rid|rid v];
    cbn [serve] in Hrun.
  - destruct (post_rating_inv _ _ _ _ _ _ Hrun)
      as [[_ ->]|(_ & _ & _ & Hs & _)]; [done|].
    destruct (submitRating_inv _ _ _ _ _ _ Hs)
      as [[_ ->]|(m & dm & _ & _ & _ & _ & _ & -> & _)]; [done|].
    apply Forall_app. split; [done|].
    apply Forall_singleton. by constructor.
  - unfold put_rating in Hrun.
    destruct (authorize _ u); cbn [negb] in Hrun;
      [|by injection Hrun as _ <-].
    destruct (updateRating_ratings _ _ _ _ _ _ _ Hrun)
      as [->|(rating & rating' & Hin & Hv & ->)]; [done|].
    apply Forall_replaced; [done|].
    unfold votesValid. rewrite Hv.
    by apply (proj1 (Forall_forall _ _) Hall).
  - unfold delete_rating in Hrun.
    destruct (authorize _ u); cbn [negb] in Hrun;
      [|by injection Hrun as _ <-].
    destruct (deleteRating_ratings _ _ _ _ _ _ Hrun)
      as [->|(rating & rating' & Hin & Hv & ->)]; [done|].
    apply Forall_replaced; [done|].
    unfold votesValid. rewrite Hv.
    by apply (proj1 (Forall_forall _ _) Hall).
  - destruct (post_vote_inv _ _ _ _ _ _ _ Hrun) as [[_ ->]|Hvote]; [done|].
    destruct (voteOnRating_inv _ _ _ _ _ _ _ Hvote)
      as [[_ ->]|(rating & Hv & Hf & _ & _ & -> & _)]; [done|].
    apply Forall_replaced; [done|].
    apply addHelpfulVote_valid; [done|].
    pose proof (find_some_elem _ _ _ Hf) as Hin.
    by apply (proj1 (Forall_forall _ _) Hall).
Qed.

Lemma serveAll_valid trace : ∀ db replies db',
  Forall votesValid (ratings db) →
  serveAll trace db = (replies, db') →
  Forall votesValid (ratings db').
Proof.
  induction trace as [|[[env u] rq] trace IH]; intros db replies db' Hall Hrun;
    cbn [serveAll] in Hrun.
  - by injection Hrun as _ <-.
  - destruct (serve env u rq db) as [reply db1] eqn:Hs.
    destruct (serveAll trace db1) as [rs db2] eqn:Hr.
    injection Hrun as _ <-.
    eapply IH; [|exact Hr]. by eapply serve_valid.
Qed.

Lemma score_range up down :
  0 ≤ up → 0 ≤ down → up + down ≠ 0 →
  (0 ≤ num up / num (up + down) * num 100 ≤ num 100)%Qc.
Proof.
  intros Hu Hd Hne.
  assert (Hpos : (0 < num (up + down))%Qc).
  { rewrite <- num_0. apply (proj1 (num_lt 0 (up + down))). lia. }
  assert (Hup : (0 ≤ num up)%Qc).
  { rewrite <- num_0. by apply (proj1 (num_le 0 up)). }
  assert (Hle : (num up ≤ num (up + down))%Qc).
  { apply (proj1 (num_le up (up + down))). lia. }
  assert (H100 : (0 ≤ num 100)%Qc).
  { rewrite <- num_0. by apply (proj1 (num_le 0 100)). }
  assert (Hinv : (0 ≤ / num (up + down))%Qc).
  { by apply Qclt_le_weak, Qcinv_pos. }
  assert (Hnz : num (up + down) ≠ 0%Qc).
  { intros E. rewrite E in Hpos. by apply Qclt_not_le in Hpos. }
  split.
  - apply Qcmult_nonneg_nonneg; [|done]. by apply Qcmult_nonneg_nonneg.
  - rewrite <- (Qcmult_1_l (num 100)) at 2.
    apply Qcmult_le_compat_r; [|done].
    unfold Qcdiv. rewrite <- (Qcmult_inv_r (num (up + down))) by done.
    by apply Qcmult_le_compat_r.
Qed.

(** X4.  Along any trace of requests that starts where every ledger is
    consistent and holds only "up" and "down" entries, every stored
    rating has [upvotes + downvotes] equal to the number of its voters,
    and a helpfulness score between 0 and 100. *)
Theorem vote_totals :
  ∀ (trace : list (Env * User * Request)) (db db' : Db)
    (replies : list Response),
    Forall (fun r => ledgerConsistent r ∧ votesValid r) (ratings db) →
    serveAll trace db = (replies, db') →
    Forall
      (fun r =>
         upvotes (helpfulVotes r) + downvotes (helpfulVotes r) =
           Z.of_nat (length (voters (helpfulVotes r))) ∧
         (0 ≤ helpfulnessScore r ≤ num 100)%Qc)
      (ratings db').
Proof.
  intros trace db db' replies Hall Hrun.
  apply Forall_and in Hall as [Hc Hv].
  pose proof (serveAll_consistent _ _ _ _ Hc Hrun) as Hc'.
  pose proof (serveAll_valid _ _ _ _ Hv Hrun) as Hv'.
  apply Forall_forall. intros r Hin.
  destruct (proj1 (Forall_forall _ _) Hc' r Hin) as (Hup & Hdown & _).
  pose proof (proj1 (Forall_forall _ _) Hv' r Hin) as Hvalid.
  pose proof (countVotes_total _ Hvalid) as Htot.
  rewrite <- Hup, <- Hdown in Htot. split; [done|].
  unfold helpfulnessScore. case_bool_decide as Hz.
  - split; [done|]. rewrite <- num_0. by apply num_le.
  - apply score_range; [| |done].
    + rewrite Hup. unfold countVotes. lia.
    + rewrite Hdown. unfold countVotes. lia.
Qed.

Lemma vote_totals_witness :
  Forall
    (fun r =>
       upvotes (helpfulVotes r) + downvotes (helpfulVotes r) =
         Z.of_nat (length (voters (helpfulVotes r))) ∧
       (0 ≤ helpfulnessScore r ≤ num 100)%Qc)
    (ratings (snd Example.afterVotes)).
Proof.
  apply (vote_totals (votesOf Example.bob 1000 Example.bobVotes) Example.db1
           (snd Example.afterVotes) (fst Example.afterVotes)).
  - apply Forall_singleton. split.
    + split; [reflexivity|]. split; [reflexivity|]. apply NoDup_nil_2.
    + apply Forall_nil_2.
  - apply surjective_pairing.
Defined.

Lemma addHelpfulVote_absorbs now1 now2 r u v1 v2 :
  addHelpfulVote now2 (addHelpfulVote now1 r u v1) u v2 =
  addHelpfulVote now2 r u v2.
Proof.
  unfold addHelpfulVote. cbn [helpfulVotes set_helpfulVotes voters].
  assert (E : filter (fun voter => user voter ≠ u)
                (filter (fun voter => user voter ≠ u)
                   (voters (helpfulVotes r)) ++ [mkVoter u v1 now1])
              = filter (fun voter => user voter ≠ u)
                  (voters (helpfulVotes r))).
  { rewrite filter_app, filter_cons_False by (simpl; tauto).
    rewrite filter_nil, app_nil_r. by apply list_filter_filter_l. }
  rewrite E. done.
Qed.

Lemma saveRating_twice r1 r2 db :
  _id r1 = _id r2 →
  saveRating r2 (saveRating r1 db) = saveRating r2 db.
Proof.
  intros Hid. unfold saveRating. cbn [ratings menuItems dailyMenus].
  f_equal. rewrite List.map_map. apply List.map_ext. intros x.
  rewrite Hid. destruct (decide (_id x = _id r2)) as [Hx|Hx].
  - rewrite (bool_decide_eq_true_2 _ Hx).
    by rewrite (bool_decide_eq_true_2 _ Hid).
  - rewrite (bool_decide_eq_false_2 _ Hx).
    by rewrite (bool_decide_eq_false_2 _ Hx).
Qed.

(** X5.  A later vote overrides an earlier vote of the same user
    entirely: serving the two votes one after the other gives the reply
    and the stored state that the later vote alone would have given. *)
Theorem revote_overrides :
  ∀ (env1 env2 : Env) (u : User) (ratingId : ObjectId)
    (voteType1 voteType2 : string) (db : Db),
    voteType2 ∈ ["up"; "down"] →
    voteOnRating env2 u ratingId voteType2
      (snd (voteOnRating env1 u ratingId voteType1 db))
    = voteOnRating env2 u ratingId voteType2 db.
Proof.
  intros env1 env2 u rid v1 v2 db Hv2.
  destruct (voteOnRating env1 u rid v1 db) as [reply1 db1] eqn:H1.
  destruct (voteOnRating_inv _ _ _ _ _ _ _ H1)
    as [[_ ->]|(rating & Hv1 & Hf & Hne & _ & -> & Hf1)]; [done|].
  cbn [snd]. unfold voteOnRating.
  rewrite (bool_decide_eq_true_2 _ Hv2). cbn [negb].
  rewrite Hf1, Hf.
  replace (student (addHelpfulVote (now env1) rating (Identity.id u) v1))
    with (student rating) by done.
  rewrite (bool_decide_eq_false_2 _ Hne).
  rewrite !preSave_same_categories by done.
  rewrite addHelpfulVote_absorbs.
  rewrite saveRating_twice by done. done.
Qed.

Lemma revote_overrides_witness :
  voteOnRating (Example.at1700 0) Example.bob 1000%N "down"
    (snd (voteOnRating (Example.at1305 0) Example.bob 1000%N "up"
            Example.db1))
  = voteOnRating (Example.at1700 0) Example.bob 1000%N "down" Example.db1.
Proof.
  apply (revote_overrides (Example.at1305 0) (Example.at1700 0) Example.bob
           1000%N "up" "down" Example.db1).
  apply list_elem_of_further, list_elem_of_here.
Defined.

End VoteTotals.

(** ** Withdrawn ratings, meal windows and derived ratings *)

Section SubmissionRules.
Import JS Identity Feedback Statistics.

(** X6.  A rating that its author deleted within the hour stays stored,
    inactive, and still counts as "already rated": every later
    submission of that student for the same item, meal date and meal
    type is answered with the conflict and writes nothing. *)
Theorem deleted_rating_blocks_resubmission :
  ∀ (env : Env) (u : User) (ratingId : ObjectId) (db : Db) (rating : Rating),
    findOwn db ratingId (Identity.id u) = Some rating →
    now env - createdAt rating ≤ 3600000 →
    ∃ db',
      deleteRating env u ratingId db = (RatingDeleted, db') ∧
      findOwn db' ratingId (Identity.id u) = Some (set_isActive false rating) ∧
      ∀ (env2 : Env) (b : SubmitBody),
        b_menuItemId b = menuItem rating →
        b_mealDate b = mealDate rating →
        b_mealType b = mealType rating →
        submitRating env2 u b db' = (AlreadyRated, db') ∧
        ∀ reply db'', post_rating env2 u b db' = (reply, db'') →
                      isCreated reply = false ∧ db'' = db'.
Proof.
  intros env u rid db rating Hf Hage.
  pose proof (find_some_pred _ _ _ Hf) as Hp.
  apply andb_true_iff in Hp as [Hid Hst].
  apply bool_decide_eq_true in Hid. apply bool_decide_eq_true in Hst.
  assert (Hf' : findOwn (saveRating (set_isActive false rating) db) rid
                  (Identity.id u) = Some (set_isActive false rating)).
  { unfold findOwn, saveRating. cbn [ratings].
    apply (find_replaced _ _ rating); [exact Hf| |done|].
    - cbn [set_isActive _id student]. rewrite Hid, Hst.
      by rewrite !bool_decide_eq_true_2.
    - intros x Hx. apply andb_true_iff in Hx as [Hx _].
      apply bool_decide_eq_true in Hx. congruence. }
  exists (saveRating (set_isActive false rating) db).
  split; [by apply deleteRating_deactivates|]. split; [exact Hf'|].
  intros env2 b Hitem Hdate Htype.
  assert (Hex : is_Some (findExisting
                           (saveRating (set_isActive false rating) db)
                           (Identity.id u) (b_menuItemId b) (b_mealDate b)
                           (b_mealType b))).
  { apply find_is_some_iff. exists (set_isActive false rating). split.
    - exact (find_some_elem _ _ _ Hf').
    - cbn [set_isActive student menuItem mealDate mealType].
      rewrite Hst, Hitem, Hdate, Htype. by rewrite !bool_decide_eq_true_2. }
  destruct Hex as [r0 Hex].
  assert (Hsub : submitRating env2 u b
                   (saveRating (set_isActive false rating) db)
                 = (AlreadyRated, saveRating (set_isActive false rating) db)).
  { unfold submitRating. by rewrite Hex. }
  split; [exact Hsub|]. intros reply db'' Hpost.
  destruct (post_rating_inv _ _ _ _ _ _ Hpost)
    as [[Hno ->]|(_ & _ & _ & Hs & Hyes)]; [done|].
  rewrite Hsub in Hs. injection Hs as <- <-. done.
Qed.

(** Bob withdraws his rating at 13:30 and submits it once more. *)
Lemma deleted_rating_blocks_resubmission_witness :
  submitRating (Example.at1330 1002) Example.bob Example.second
    (snd Example.withdrawal)
  = (AlreadyRated, snd Example.withdrawal).
Proof.
  destruct (deleted_rating_blocks_resubmission (Example.at1330 0) Example.bob
              1001%N Example.db2
              (ratingDocument (Example.at1305 1001) Example.bob
                 Example.second))
    as (db' & Hdel & _ & Hre).
  - reflexivity.
  - vm_compute. discriminate.
  - replace (snd Example.withdrawal) with db'
      by (unfold Example.withdrawal; by rewrite Hdel).
    by apply Hre.
Defined.

Lemma clock_window env start end_ :
  bool_decide (num (getHours env) + num (getMinutes env) / num 60
               < num start)%Qc ||
  bool_decide (num end_
               < num (getHours env) + num (getMinutes env) / num 60)%Qc
  = false →
  start * 60 ≤ getHours env * 60 + getMinutes env ≤ end_ * 60.
Proof.
  intros H. apply orb_false_iff in H as [H1 H2].
  apply bool_decide_eq_false in H1, H2.
  rewrite clock_lt in H1. rewrite clock_gt in H2. lia.
Qed.

Lemma validateMealTime_pass env b :
  validateMealTime env b = None →
  ∃ start end_,
    mealTimes (toLowerCase (b_mealType b)) = Some (start, end_) ∧
    start * 60 ≤ getHours env * 60 + getMinutes env ≤ end_ * 60.
Proof.
  unfold validateMealTime. cbv zeta.
  destruct (bool_decide (b_mealType b = "")); [done|].
  destruct (mealTimes (toLowerCase (b_mealType b))) as [[start end_]|];
    [|done].
  destruct (_ || _) eqn:Hw; [done|]. intros _.
  exists start, end_. split; [done|]. by apply clock_window.
Qed.

(** X7.  A rating is only created through the route while its meal is
    being served: the meal type is breakfast, lunch or dinner and the
    local time lies between the first and the last minute of that meal's
    window.  A rating for a snack, a meal type the validator and the
    schema both allow, is always refused. *)
Theorem ratings_only_during_the_meal :
  ∀ (env : Env) (u : User) (b : SubmitBody) (db : Db),
    (∀ r db', post_rating env u b db = (Created r, db') →
       b_mealType b ∈ ["breakfast"; "lunch"; "dinner"] ∧
       ∃ start end_,
         mealTimes (b_mealType b) = Some (start, end_) ∧
         start * 60 ≤ getHours env * 60 + getMinutes env ≤ end_ * 60) ∧
    (b_mealType b = "snack" → role u = Identity.student →
     post_rating env u b db = (InvalidMealType, db)).
Proof.
  intros env u b db. split.
  - intros r db' Hpost.
    destruct (post_rating_inv _ _ _ _ _ _ Hpost)
      as [[Hno _]|(Htime & Hvalid & _)]; [done|].
    unfold validateRating in Hvalid.
    apply andb_true_iff in Hvalid as [Hvalid _].
    apply andb_true_iff in Hvalid as [_ Henum].
    apply bool_decide_eq_true in Henum.
    destruct (validateMealTime_pass _ _ Htime)
      as (start & end_ & Htimes & Hwindow).
    unfold mealTypeEnum in Henum.
    repeat (apply elem_of_cons in Henum as [Henum|Henum]);
      [| | | |by apply elem_of_nil in Henum];
      rewrite Henum in Htimes |- *.
    + split; [apply list_elem_of_here|]. by exists start, end_.
    + split; [apply list_elem_of_further, list_elem_of_here|].
      by exists start, end_.
    + split; [do 2 apply list_elem_of_further; apply list_elem_of_here|].
      by exists start, end_.
    + discriminate Htimes.
  - intros Hsnack Hrole. unfold post_rating, authorize.
    rewrite Hrole. rewrite bool_decide_eq_true_2 by apply list_elem_of_here.
    cbn [negb]. unfold validateMealTime. rewrite Hsnack. done.
Qed.

Lemma ratings_only_during_the_meal_witness :
  12 * 60 ≤ getHours (Example.at1300 1000) * 60 +
            getMinutes (Example.at1300 1000) ≤ 16 * 60 ∧
  post_rating (Example.at1300 1000) Example.alice
    (mkSubmitBody 1 7 (num 4)
       (mkCategoryRatings (num 4) (num 5) (num 3) (num 4)) "snack" 0 None)
    Example.db0
  = (InvalidMealType, Example.db0).
Proof.
  destruct (ratings_only_during_the_meal (Example.at1300 1000) Example.alice
              Example.first Example.db0) as [Hcreated _].
  destruct (Hcreated Example.firstRating Example.db1 eq_refl)
    as (_ & start & end_ & Htimes & Hwindow).
  injection Htimes as <- <-. split; [exact Hwindow|].
  apply (ratings_only_during_the_meal (Example.at1300 1000) Example.alice
           (mkSubmitBody 1 7 (num 4)
              (mkCategoryRatings (num 4) (num 5) (num 3) (num 4))
              "snack" 0 None)
           Example.db0); reflexivity.
Defined.

Lemma Math_round_near x :
  (x - num 1 / num 2 < Math_round x)%Qc ∧ (Math_round x ≤ x + num 1 / num 2)%Qc.
Proof.
  unfold Math_round.
  set (y := (x + num 1 / num 2)%Qc).
  split.
  - assert (H : (y < num (Qfloor (this y)) + num 1)%Qc).
    { rewrite <- num_add. unfold Qclt.
      change (this (num (Qfloor (this y) + 1)))
        with (inject_Z (Qfloor (this y) + 1)).
      apply Qlt_floor. }
    apply (proj2 (Qcplus_lt_mono_r _ _ (num 1))).
    replace (x - num 1 / num 2 + num 1)%Qc with y; [exact H|].
    subst y. replace (num 2) with (num 1 + num 1)%Qc
      by (by rewrite <- num_add).
    rewrite num_1. by field.
  - unfold Qcle.
    change (this (num (Qfloor (this y)))) with (inject_Z (Qfloor (this y))).
    apply Qfloor_le.
Qed.

(** X8.  The overall rating that the [pre("save")] hook and
    [updateRating] derive from four category ratings between 1 and 5 is
    an integer between 1 and 5, at most one half away from their
    mean. *)
Theorem roundedMean_is_a_rating :
  ∀ c : CategoryRatings,
    in_range 1 5 (taste c) = true → in_range 1 5 (quantity c) = true →
    in_range 1 5 (freshness c) = true → in_range 1 5 (value c) = true →
    isInt 1 5 (roundedMean c) = true ∧
    (let average :=
       ((taste c + quantity c + freshness c + value c) / num 4)%Qc in
     (average - num 1 / num 2 < roundedMean c)%Qc ∧
     (roundedMean c ≤ average + num 1 / num 2)%Qc).
Proof.
  intros c H1 H2 H3 H4.
  apply in_range_iff in H1, H2, H3, H4.
  split; [|apply Math_round_near].
  pose proof (quarter_range _ _ _ _ 1 5 H1 H2 H3 H4) as [Hlo Hhi].
  destruct (Math_round_range _ 1 5 Hlo Hhi) as [Hlo' Hhi'].
  unfold isInt. rewrite !andb_true_iff, !bool_decide_eq_true.
  split; [split|]; [|exact Hlo'|exact Hhi'].
  reflexivity.
Qed.

Lemma roundedMean_is_a_rating_witness :
  isInt 1 5 (roundedMean Example.revised) = true.
Proof.
  apply (roundedMean_is_a_rating Example.revised); reflexivity.
Defined.

(** X9.  The mess type [authenticate] attaches to the session and the
    one [submitRating] stores on a rating are computed differently.  For
    a student without an admin facility they agree exactly when the
    selected facility is a hostel; for a mess admin exactly when the
    admin facility has a type. *)
Theorem stored_and_session_messType :
  ∀ u : User,
    (role u = Identity.student → adminFacility u = None →
     (resolveMessType u = req_messType u ↔
      facilityType_of (selectedFacility u) = Some hostel)) ∧
    (role u = mess_admin →
     (resolveMessType u = req_messType u ↔
      facilityType_of (adminFacility u) ≠ None)).
Proof.
  intros u. unfold resolveMessType, req_messType. split.
  - intros -> ->. simpl.
    destruct (decide (facilityType_of (selectedFacility u) = Some hostel));
      split; done.
  - intros ->.
    destruct (facilityType_of (adminFacility u)) as [[]|]; simpl;
      split; done.
Qed.

Lemma stored_and_session_messType_witness :
  resolveMessType Example.alice ≠ req_messType Example.alice ∧
  resolveMessType Example.admin = req_messType Example.admin.
Proof.
  destruct (stored_and_session_messType Example.alice) as [Hstudent _].
  destruct (stored_and_session_messType Example.admin) as [_ Hadmin].
  split.
  - intros E. apply (Hstudent eq_refl eq_refl) in E. discriminate E.
  - apply (Hadmin eq_refl). discriminate.
Defined.

End SubmissionRules.

(** ** Replacing a stored rating *)

Section ReplacedRatings.
Import JS Identity Feedback Ledgers.

Lemma ids_replaced l r' :
  List.map _id
    (List.map (fun x => if bool_decide (_id x = _id r') then r' else x) l)
  = List.map _id l.
Proof.
  rewrite List.map_map. apply List.map_ext. intros x.
  by case_bool_decide.
Qed.

Lemma replaced_split l1 r l2 r' :
  NoDup (List.map _id (l1 ++ r :: l2)) → _id r' = _id r →
  List.map (fun x => if bool_decide (_id x = _id r') then r' else x)
    (l1 ++ r :: l2)
  = l1 ++ r' :: l2.
Proof.
  intros Hnd Hid. rewrite map_app in Hnd. cbn [List.map] in Hnd.
  apply NoDup_app in Hnd as (_ & Hcross & Hnd).
  apply NoDup_cons in Hnd as [Hfresh _].
  assert (Hkeep : ∀ l, _id r ∉ List.map _id l →
            List.map (fun x => if bool_decide (_id x = _id r') then r' else x)
              l = l).
  { induction l as [|a l IH]; intros Hno; [done|]. cbn [List.map] in *.
    rewrite bool_decide_eq_false_2.
    - f_equal. apply IH. intros Hin. apply Hno. by apply list_elem_of_further.
    - rewrite Hid. intros E. apply Hno. rewrite <- E. apply list_elem_of_here. }
  rewrite map_app. cbn [List.map].
  rewrite (bool_decide_eq_true_2 _ (eq_sym Hid)).
  rewrite (Hkeep l1), (Hkeep l2); [done|done|].
  intros Hin. apply (Hcross _ Hin). apply list_elem_of_here.
Qed.

End ReplacedRatings.

(** ** The stored ratings along a trace *)

Section StoredRatings.
Import JS Identity Feedback Ledgers.

Lemma post_vote_not_created env u rid v db reply db' :
  post_vote env u rid v db = (reply, db') → isCreated reply = false.
Proof.
  unfold post_vote, voteOnRating. intros H.
  repeat case_match; by injection H as <- _.
Qed.

(** What one request does to the collection of ratings: nothing, one
    rating more, or a new version of one rating that keeps its id and
    its key. *)
Lemma serve_ratings env u rq db reply db' :
  serve env u rq db = (reply, db') →
  (isCreated reply = false ∧ ratings db' = ratings db) ∨
  (∃ b, rq = SubmitRating b ∧ isCreated reply = true ∧
        findExisting db (Identity.id u) (b_menuItemId b) (b_mealDate b)
          (b_mealType b) = None ∧
        ratings db' = ratings db ++ [ratingDocument env u b]) ∨
  (∃ r r', isCreated reply = false ∧ r ∈ ratings db ∧
           _id r' = _id r ∧ mealKey r' = mealKey r ∧
           ratings db' =
             List.map (fun x => if bool_decide (_id x = _id r') then r' else x)
               (ratings db)).
Proof.
  intros Hrun. destruct rq as [b|rid body|rid|rid v]; cbn [serve] in Hrun.
  - destruct (post_rating_inv _ _ _ _ _ _ Hrun)
      as [[Hno ->]|(_ & _ & _ & Hs & Hyes)]; [by left|].
    destruct (submitRating_inv _ _ _ _ _ _ Hs)
      as [[Hno _]|(m & dm & _ & Hex & _ & _ & _ & Hr & _)]; [congruence|].
    right; left. by exists b.
  - unfold put_rating in Hrun.
    destruct (authorize _ u); cbn [negb] in Hrun;
      [|injection Hrun as <- <-; by left].
    unfold updateRating in Hrun.
    destruct (findOwn db rid (Identity.id u)) as [rating|] eqn:Hf;
      [|injection Hrun as <- <-; by left].
    pose proof (find_some_elem _ _ _ Hf) as Hin.
    case_bool_decide; [injection Hrun as <- <-; by left|].
    destruct (u_categoryRatings body) as [c|].
    + rewrite preSave_after_update in Hrun.
      destruct (validateRatings _); cbn [negb] in Hrun;
        [|injection Hrun as <- <-; by left].
      right; right.
      exists rating, (set_overallRating (roundedMean c)
                        (set_categoryRatings c rating)).
      destruct (menuItems _ !! _); injection Hrun as <- <-; by split_and!.
    + rewrite preSave_same_categories in Hrun by done.
      injection Hrun as <- <-. right; right. exists rating, rating.
      by split_and!.
  - unfold delete_rating in Hrun.
    destruct (authorize _ u); cbn [negb] in Hrun;
      [|injection Hrun as <- <-; by left].
    unfold deleteRating in Hrun.
    destruct (findOwn db rid (Identity.id u)) as [rating|] eqn:Hf;
      [|injection Hrun as <- <-; by left].
    pose proof (find_some_elem _ _ _ Hf) as Hin.
    case_bool_decide; [injection Hrun as <- <-; by left|].
    rewrite preSave_same_categories in Hrun by done.
    injection Hrun as <- <-. right; right.
    exists rating, (set_isActive false rating). by split_and!.
  - pose proof (post_vote_not_created _ _ _ _ _ _ _ Hrun) as Hnot.
    destruct (post_vote_inv _ _ _ _ _ _ _ Hrun) as [[_ ->]|Hvote];
      [by left|].
    destruct (voteOnRating_inv _ _ _ _ _ _ _ Hvote)
      as [[_ ->]|(rating & _ & Hf & _ & _ & -> & _)]; [by left|].
    pose proof (find_some_elem _ _ _ Hf) as Hin.
    right; right.
    exists rating, (addHelpfulVote (now env) rating (Identity.id u) v).
    by split_and!.
Qed.

Lemma keys_replaced l r r' :
  NoDup (List.map _id l) → r ∈ l → _id r' = _id r → mealKey r' = mealKey r →
  List.map mealKey
    (List.map (fun x => if bool_decide (_id x = _id r') then r' else x) l)
  = List.map mealKey l.
Proof.
  intros Hnd Hin Hid Hkey.
  apply list_elem_of_In, in_split in Hin as (l1 & l2 & ->).
  rewrite replaced_split by done. rewrite !map_app. cbn [List.map].
  by rewrite Hkey.
Qed.

(** X11.  As long as every new rating gets an id of its own, no trace of
    requests leaves two stored ratings of one student for the same item,
    meal date and meal type, deleted ratings included; and rating ids
    stay pairwise different. *)
Theorem one_rating_per_meal :
  ∀ (trace : list (Env * User * Request)) (db db' : Db)
    (replies : list Response),
    NoDup (List.map mealKey (ratings db)) →
    NoDup (List.map _id (ratings db) ++ newIds trace) →
    serveAll trace db = (replies, db') →
    NoDup (List.map mealKey (ratings db')) ∧
    NoDup (List.map _id (ratings db')).
Proof.
  induction trace as [|[[env u] rq] trace IH];
    intros db db' replies Hkeys Hids Hrun; cbn [serveAll] in Hrun.
  - injection Hrun as _ <-. split; [done|].
    cbn [newIds flat_map] in Hids. by rewrite app_nil_r in Hids.
  - destruct (serve env u rq db) as [reply db1] eqn:Hs.
    destruct (serveAll trace db1) as [rs db2] eqn:Hr.
    injection Hrun as _ <-.
    assert (Hids0 : NoDup (List.map _id (ratings db))).
    { by apply NoDup_app in Hids as (? & _ & _). }
    assert (Hrest : NoDup (List.map _id (ratings db) ++ newIds trace)).
    { destruct rq; cbn [newIds flat_map app] in Hids; try done.
      apply NoDup_app in Hids as (Hn1 & Hcross & Hn2).
      apply NoDup_cons in Hn2 as [_ Hn2].
      apply NoDup_app. split; [done|]. split; [|done].
      intros x Hx Hx'. apply (Hcross x Hx). by apply list_elem_of_further. }
    destruct (serve_ratings _ _ _ _ _ _ Hs)
      as [[_ Hsame]|[(b & -> & _ & Hex & Hnew)|
                     (r & r' & _ & Hin & Hid & Hkey & Hnew)]].
    + apply (IH db1 db2 rs); by rewrite ?Hsame.
    + apply (IH db1 db2 rs); rewrite ?Hnew; [| |done].
      * rewrite map_app. apply NoDup_app. split; [done|].
        split; [|apply NoDup_singleton].
        intros k Hk Hk'. cbn [List.map] in Hk'.
        apply list_elem_of_singleton in Hk'. subst k.
        apply list_elem_of_fmap in Hk as (x & Hkx & Hx).
        pose proof (proj1 (find_none_iff _ _) Hex x Hx) as Hno.
        cbv beta in Hno. unfold mealKey in Hkx.
        cbn [ratingDocument student menuItem mealDate mealType] in Hkx.
        injection Hkx as E1 E2 E3 E4.
        by rewrite !bool_decide_eq_true_2 in Hno.
      * cbn [newIds flat_map] in Hids. rewrite map_app.
        cbn [List.map ratingDocument _id]. by rewrite <- app_assoc.
    + apply (IH db1 db2 rs); rewrite ?Hnew; [| |done].
      * by rewrite (keys_replaced _ r r').
      * by rewrite ids_replaced.
Qed.

(** Alice and Bob rate, Alice tries a second time, Bob deletes and
    tries again. *)
Lemma one_rating_per_meal_witness :
  NoDup
    (List.map mealKey
       (ratings
          (snd (serveAll
                  [(Example.at1300 1000, Example.alice,
                    SubmitRating Example.first);
                   (Example.at1305 1001, Example.bob,
                    SubmitRating Example.second);
                   (Example.at1305 1002, Example.alice,
                    SubmitRating Example.first);
                   (Example.at1330 0, Example.bob, DeleteRating 1001);
                   (Example.at1330 1003, Example.bob,
                    SubmitRating Example.second)]
                  Example.db0)))).
Proof.
  set (trace :=
         [(Example.at1300 1000, Example.alice, SubmitRating Example.first);
          (Example.at1305 1001, Example.bob, SubmitRating Example.second);
          (Example.at1305 1002, Example.alice, SubmitRating Example.first);
          (Example.at1330 0, Example.bob, DeleteRating 1001);
          (Example.at1330 1003, Example.bob, SubmitRating Example.second)]).
  destruct (one_rating_per_meal trace Example.db0
              (snd (serveAll trace Example.db0))
              (fst (serveAll trace Example.db0))) as [Hkeys _].
  - apply NoDup_nil_2.
  - vm_compute. repeat (apply NoDup_cons; split);
      [..|apply NoDup_nil_2]; intros Hin;
      repeat (apply elem_of_cons in Hin as [Hin|Hin]; [discriminate Hin|]);
      by apply elem_of_nil in Hin.
  - apply surjective_pairing.
  - exact Hkeys.
Defined.

Lemma serveAll_ratings_length trace : ∀ db replies db',
  serveAll trace db = (replies, db') →
  length (ratings db') = (length (ratings db) + length (created replies))%nat.
Proof.
  induction trace as [|[[env u] rq] trace IH];
    intros db replies db' Hrun; cbn [serveAll] in Hrun.
  - injection Hrun as <- <-. simpl. lia.
  - destruct (serve env u rq db) as [reply db1] eqn:Hs.
    destruct (serveAll trace db1) as [rs db2] eqn:Hr.
    injection Hrun as <- <-. rewrite (IH _ _ _ Hr).
    unfold created. cbn [List.filter length].
    destruct (serve_ratings _ _ _ _ _ _ Hs)
      as [[Hno Hsame]|[(b & -> & Hyes & _ & Hnew)|
                       (r & r' & Hno & _ & _ & _ & Hnew)]].
    + rewrite Hno, Hsame. lia.
    + rewrite Hyes, Hnew, length_app. simpl. lia.
    + rewrite Hno, Hnew, length_map. lia.
Qed.

(** X12.  Ratings are only ever added: after any trace of requests the
    store holds at least the ratings there were plus one for every
    request answered with 201.  A deletion removes nothing, and the ids
    of the ratings stored before are all still there, in order. *)
Theorem ratings_are_never_removed :
  ∀ (trace : list (Env * User * Request)) (db : Db),
    (length (ratings db) + length (created (fst (serveAll trace db))) ≤
       length (ratings (snd (serveAll trace db))))%nat ∧
    List.map _id (ratings db)
      `prefix_of` List.map _id (ratings (snd (serveAll trace db))).
Proof.
  intros trace db. split.
  - rewrite (serveAll_ratings_length trace db _ _ (surjective_pairing _)).
    lia.
  - revert db. induction trace as [|[[env u] rq] trace IH]; intros db;
      cbn [serveAll]; [done|].
    destruct (serve env u rq db) as [reply db1] eqn:Hs.
    specialize (IH db1).
    destruct (serveAll trace db1) as [rs db2] eqn:Hr. cbn [snd] in *.
    etrans; [|exact IH].
    destruct (serve_ratings _ _ _ _ _ _ Hs)
      as [[_ ->]|[(b & _ & _ & _ & ->)|(r & r' & _ & _ & _ & _ & ->)]].
    + done.
    + rewrite map_app. by apply prefix_app_r.
    + by rewrite ids_replaced.
Qed.

End StoredRatings.

(** ** More of the directory *)

Section MessProperties.
Import JS Arrays Identity Directory Messes.

Lemma find_split {A} (p : A → bool) l x :
  List.find p l = Some x →
  ∃ l1 l2, l = l1 ++ x :: l2 ∧ p x = true ∧ ∀ y, y ∈ l1 → p y = false.
Proof.
  induction l as [|a l IH]; [done|]. simpl.
  destruct (p a) eqn:Ha.
  - intros [= ->]. exists [], l. split; [done|]. split; [done|].
    intros y Hy. by apply elem_of_nil in Hy.
  - intros Hf. destruct (IH Hf) as (l1 & l2 & -> & Hx & Hl1).
    exists (a :: l1), l2. split; [done|]. split; [done|].
    intros y Hy. apply elem_of_cons in Hy as [->|Hy]; auto.
Qed.

Lemma replaceFirst_split {A} (p : A → bool) mess' l1 x l2 :
  p x = true → (∀ y, y ∈ l1 → p y = false) →
  replaceFirst p mess' (l1 ++ x :: l2) = l1 ++ mess' :: l2.
Proof.
  intros Hx. induction l1 as [|a l1 IH]; intros Hl1; simpl.
  - by rewrite Hx.
  - rewrite (Hl1 a) by apply list_elem_of_here. f_equal. apply IH.
    intros y Hy. apply Hl1. by apply list_elem_of_further.
Qed.

Lemma active_names_elem (ms : list Mess) n :
  n ∈ List.map (fun m => toLowerCase (name m)) (List.filter isActive ms) ↔
  ∃ m, m ∈ ms ∧ isActive m = true ∧ toLowerCase (name m) = n.
Proof.
  rewrite list_elem_of_fmap. split.
  - intros (m & -> & Hm). apply list_elem_of_In, filter_In in Hm as [Hm Ha].
    exists m. by rewrite list_elem_of_In.
  - intros (m & Hm & Ha & <-). exists m. split; [done|].
    apply list_elem_of_In, filter_In. by rewrite <- list_elem_of_In.
Qed.

(** X13.  [addMess] keeps the names of the active messes of a facility
    pairwise different up to case, and adds one active mess.  The name is
    one that the schema's [trim] setter stores as it is given; a name
    with white space around it is compared as given and stored trimmed,
    and is not covered here. *)
Theorem addMess_keeps_names_unique :
  ∀ (now : Z) (this this' : Facility) (messData : MessData)
    (messId_ : string),
    Names.storedAsGiven (md_name messData) = true →
    uniqueActiveNames this →
    addMess now this messData = inr (messId_, this') →
    uniqueActiveNames this' ∧
    activeMessesCount this' = activeMessesCount this + 1 ∧
    isMessNameUnique [this'] (_id this') (md_name messData) None = false.
Proof.
  intros now this this' messData messId_ _ Huniq Hadd.
  unfold addMess in Hadd.
  destruct (List.find _ (messes this)) eqn:Hfind; [done|].
  injection Hadd as <- <-.
  pose proof (proj1 (find_none_iff _ _) Hfind) as Hnone.
  unfold uniqueActiveNames, activeMessesCount.
  cbn [messes set_messes]. rewrite List.filter_app. cbn [List.filter isActive].
  split; [|split].
  - rewrite map_app. apply NoDup_app. split; [exact Huniq|]. split.
    + intros n Hn Hn'. cbn [List.map name] in Hn'.
      apply list_elem_of_singleton in Hn'. subst n.
      apply active_names_elem in Hn as (m & Hm & Ha & Hname).
      specialize (Hnone m Hm). unfold sameNameActive in Hnone.
      rewrite Ha, (bool_decide_eq_true_2 _ Hname) in Hnone. done.
    + apply NoDup_singleton.
  - rewrite length_app. simpl length. lia.
  - unfold isMessNameUnique, findById. cbn [List.find _id set_messes].
    rewrite bool_decide_eq_true_2 by done.
    cbn [messes set_messes Feedback.truthy].
    destruct (List.find _ (messes this ++ _)) eqn:Hf; [done|].
    pose proof (proj1 (find_none_iff _ _) Hf) as Hn.
    specialize (Hn (mkMess (md_name messData)
                      (Some (generateMessId (f_name this) (md_name messData)
                               now))
                      (md_description messData) (md_capacity messData) true
                      now)).
    cbn [name isActive] in Hn.
    rewrite bool_decide_eq_true_2 in Hn by done.
    apply Hn. apply elem_of_app. right. apply list_elem_of_here.
Qed.

Lemma addMess_keeps_names_unique_witness :
  ∃ this',
    uniqueActiveNames this' ∧
    activeMessesCount this' = 2.
Proof.
  destruct (addMess 1700000000001 DirectoryExample.sjHall
              (mkMessData "Annexe" None (Some 80)))
    as [message|[messId_ this']] eqn:Hadd; [discriminate Hadd|].
  destruct (addMess_keeps_names_unique 1700000000001 DirectoryExample.sjHall
              this' (mkMessData "Annexe" None (Some 80)) messId_)
    as (Hu & Hc & _).
  - reflexivity.
  - apply NoDup_singleton.
  - exact Hadd.
  - exists this'. split; [exact Hu|]. rewrite Hc. reflexivity.
Defined.

(** X14.  [deactivateMess] fails exactly when no mess carries the id.
    Deactivating an active mess of a facility whose active names are
    unique keeps them unique, lowers the number of active messes by one,
    can be repeated with the same outcome, and frees the name: [addMess]
    then accepts a mess of that name. *)
Theorem deactivateMess_frees_the_name :
  ∀ (this : Facility) (messId_ : string),
    (deactivateMess this messId_ = inl "Mess not found" ↔
     ∀ m, m ∈ messes this → messId m ≠ Some messId_) ∧
    ∀ mess,
      List.find (hasMessId messId_) (messes this) = Some mess →
      isActive mess = true →
      uniqueActiveNames this →
      ∃ this',
        deactivateMess this messId_ = inr (set_isActive false mess, this') ∧
        deactivateMess this' messId_ = inr (set_isActive false mess, this') ∧
        uniqueActiveNames this' ∧
        activeMessesCount this' = activeMessesCount this - 1 ∧
        ∀ (now : Z) (messData : MessData),
          toLowerCase (md_name messData) = toLowerCase (name mess) →
          ∃ newId this'',
            addMess now this' messData = inr (newId, this'').
Proof.
  intros this messId_. split.
  - unfold deactivateMess.
    destruct (List.find _ (messes this)) as [mess|] eqn:Hfind.
    + split; [done|]. intros Hno. exfalso.
      pose proof (find_some_pred _ _ _ Hfind) as Hp.
      apply bool_decide_eq_true in Hp.
      apply (Hno mess); [|done]. exact (find_some_elem _ _ _ Hfind).
    + split; [|done]. intros _ m Hm Hid.
      pose proof (proj1 (find_none_iff _ _) Hfind m Hm) as Hp.
      unfold hasMessId in Hp. by rewrite bool_decide_eq_true_2 in Hp.
  - intros mess Hfind Hactive Huniq.
    destruct (find_split _ _ _ Hfind) as (l1 & l2 & Hms & Hp & Hl1).
    set (mess' := set_isActive false mess).
    assert (Hp' : hasMessId messId_ mess' = true) by exact Hp.
    exists (set_messes (l1 ++ mess' :: l2) this).
    assert (Hfirst : deactivateMess this messId_ =
                     inr (mess', set_messes (l1 ++ mess' :: l2) this)).
    { unfold deactivateMess. rewrite Hfind. fold mess'.
      rewrite Hms at 1. by rewrite replaceFirst_split. }
    split; [exact Hfirst|].
    unfold uniqueActiveNames, activeMessesCount in *.
    rewrite Hms in Huniq |- *. cbn [messes set_messes].
    rewrite !List.filter_app in *. cbn [List.filter] in *.
    rewrite Hactive in *. cbn [isActive mess' set_isActive].
    rewrite map_app in Huniq. cbn [List.map] in Huniq.
    apply NoDup_app in Huniq as (Hn1 & Hcross & Hn2).
    apply NoDup_cons in Hn2 as [Hfresh Hn2].
    split; [|split; [|split]].
    + unfold deactivateMess. cbn [messes set_messes].
      assert (Hfind' : List.find (hasMessId messId_) (l1 ++ mess' :: l2)
                       = Some mess').
      { clear -Hp' Hl1. induction l1 as [|a l1 IH]; simpl.
        - by rewrite Hp'.
        - rewrite (Hl1 a) by apply list_elem_of_here. apply IH.
          intros y Hy. apply Hl1. by apply list_elem_of_further. }
      rewrite Hfind'. rewrite replaceFirst_split by done.
      by destruct this.
    + rewrite map_app. apply NoDup_app. split; [done|]. split; [|done].
      intros n Hn Hn'. apply (Hcross n Hn). by apply list_elem_of_further.
    + rewrite !length_app. simpl length. lia.
    + intros now messData Hname. unfold addMess. cbn [messes set_messes].
      destruct (List.find (sameNameActive _) _) as [clash|] eqn:Hclash;
        [|by eauto].
      exfalso.
      pose proof (find_some_pred _ _ _ Hclash) as Hc.
      pose proof (find_some_elem _ _ _ Hclash) as Hin.
      unfold sameNameActive in Hc. apply andb_true_iff in Hc as [Hcn Hca].
      apply bool_decide_eq_true in Hcn. rewrite Hname in Hcn.
      apply elem_of_app in Hin as [Hin|Hin].
      * apply (Hcross (toLowerCase (name mess))).
        -- apply active_names_elem. by exists clash.
        -- apply list_elem_of_here.
      * apply elem_of_cons in Hin as [->|Hin]; [done|].
        apply Hfresh. apply active_names_elem. by exists clash.
Qed.

Lemma deactivateMess_frees_the_name_witness :
  ∃ this' newId this'',
    deactivateMess DirectoryExample.sjHall "sj_hall_sj_mess_1700000000000"
      = inr (set_isActive false DirectoryExample.sjMess, this') ∧
    activeMessesCount this' = 0 ∧
    addMess 1700000000002 this' DirectoryExample.sameName
      = inr (newId, this'').
Proof.
  destruct (deactivateMess_frees_the_name DirectoryExample.sjHall
              "sj_hall_sj_mess_1700000000000") as [_ H].
  destruct (H DirectoryExample.sjMess) as (this' & Hd & _ & _ & Hc & Hfree).
  - reflexivity.
  - reflexivity.
  - apply NoDup_singleton.
  - destruct (Hfree 1700000000002 DirectoryExample.sameName)
      as (newId & this'' & Hadd); [reflexivity|].
    exists this', newId, this''. split; [exact Hd|]. split; [|exact Hadd].
    rewrite Hc. reflexivity.
Defined.

(** X15.  [isMessNameUnique] answers [false] for a facility that does
    not exist; without an excluded id (or with an empty one) it answers
    [true] exactly when [addMess] would accept the name; and with the id
    of an active mess excluded it accepts that mess's own name, provided
    the active names of the facility are unique. *)
Theorem isMessNameUnique_agrees_with_addMess :
  ∀ (coll : list Facility) (facilityId_ : ObjectId) (messName : string),
    (findById coll facilityId_ = None →
     ∀ excludeMessId,
       isMessNameUnique coll facilityId_ messName excludeMessId = false) ∧
    (∀ facility,
       findById coll facilityId_ = Some facility →
       isMessNameUnique coll facilityId_ messName (Some "") =
         isMessNameUnique coll facilityId_ messName None ∧
       (isMessNameUnique coll facilityId_ messName None = true ↔
        ¬ nameTaken facility messName) ∧
       (isMessNameUnique coll facilityId_ messName None = true ↔
        ∀ now description_ capacity_,
          ∃ newId facility',
            addMess now facility
              (mkMessData messName description_ capacity_)
            = inr (newId, facility')) ∧
       (∀ mess messId_,
          uniqueActiveNames facility →
          mess ∈ messes facility → isActive mess = true →
          messId mess = Some messId_ → messId_ ≠ "" →
          isMessNameUnique coll facilityId_ (name mess) (Some messId_)
            = true)).
Proof.
  intros coll fid messName. split.
  - intros Hnone excl. unfold isMessNameUnique. by rewrite Hnone.
  - intros facility Hf.
    assert (Hplain : isMessNameUnique coll fid messName None =
              match List.find (sameNameActive messName) (messes facility) with
              | Some _ => false
              | None => true
              end).
    { unfold isMessNameUnique. rewrite Hf. cbn [Feedback.truthy].
      assert (E : ∀ l, List.find
                    (fun mess : Mess =>
                       bool_decide
                         (toLowerCase (name mess) = toLowerCase messName) &&
                       isActive mess && true) l
                  = List.find (sameNameActive messName) l).
      { induction l as [|a l IH]; [done|]. simpl. unfold sameNameActive at 1.
        rewrite andb_true_r. by rewrite IH. }
      by rewrite E. }
    split; [|split; [|split]].
    + unfold isMessNameUnique. by rewrite Hf.
    + rewrite Hplain, nameTaken_find.
      destruct (List.find (sameNameActive _) _).
      * split; [done|]. intros H. exfalso. apply H. by eexists.
      * split; [|done]. intros _ [? ?]. done.
    + rewrite Hplain. unfold addMess. cbn [md_name].
      destruct (List.find (sameNameActive _) _).
      * split; [done|]. intros H. by destruct (H 0 None None) as (? & ? & ?).
      * split; [|done]. intros _ now d c. by eauto.
    + intros mess messId_ Huniq Hin Hactive Hid Hne.
      unfold isMessNameUnique. rewrite Hf. unfold Feedback.truthy.
      rewrite (bool_decide_eq_false_2 _ Hne).
      clear Hplain.
      destruct (List.find _ (messes facility)) as [clash|] eqn:Hclash;
        [|done].
      exfalso.
      pose proof (find_some_pred _ _ _ Hclash) as Hc.
      pose proof (find_some_elem _ _ _ Hclash) as Hcin.
      cbv beta in Hc.
      apply andb_true_iff in Hc as [Hc Hother].
      apply andb_true_iff in Hc as [Hcn Hca].
      apply bool_decide_eq_true in Hcn.
      apply negb_true_iff, bool_decide_eq_false in Hother.
      assert (Hneq : clash ≠ mess) by (intros ->; done).
      unfold uniqueActiveNames in Huniq.
      apply list_elem_of_In, (in_split mess) in Hin as (l1 & l2 & Hms).
      rewrite Hms in Huniq, Hcin.
      rewrite List.filter_app, map_app in Huniq.
      cbn [List.filter] in Huniq. rewrite Hactive in Huniq.
      cbn [List.map] in Huniq.
      apply NoDup_app in Huniq as (_ & Hcross & Hn2).
      apply NoDup_cons in Hn2 as [Hfresh _].
      apply elem_of_app in Hcin as [Hcin|Hcin].
      * apply (Hcross (toLowerCase (name mess))).
        -- apply active_names_elem. by exists clash.
        -- apply list_elem_of_here.
      * apply elem_of_cons in Hcin as [->|Hcin]; [done|].
        apply Hfresh. apply active_names_elem. by exists clash.
Qed.

Lemma isMessNameUnique_agrees_with_addMess_witness :
  isMessNameUnique [DirectoryExample.sjHall] 2 "Annexe" None = false ∧
  isMessNameUnique [DirectoryExample.sjHall] 1 "sj mess" None = false ∧
  isMessNameUnique [DirectoryExample.sjHall] 1 "SJ Mess"
    (Some "sj_hall_sj_mess_1700000000000") = true.
Proof.
  destruct (isMessNameUnique_agrees_with_addMess [DirectoryExample.sjHall]
              2%N "Annexe") as [Hmissing _].
  destruct (isMessNameUnique_agrees_with_addMess [DirectoryExample.sjHall]
              1%N "SJ Mess") as [_ Hfound].
  destruct (Hfound DirectoryExample.sjHall eq_refl) as (_ & _ & _ & Hown).
  split; [by apply Hmissing|]. split; [reflexivity|].
  apply (Hown DirectoryExample.sjMess "sj_hall_sj_mess_1700000000000").
  - apply NoDup_singleton.
  - apply list_elem_of_here.
  - reflexivity.
  - reflexivity.
  - discriminate.
Defined.

End MessProperties.

(** ** Renaming and registering messes *)

Section MessNames.
Import JS Arrays Identity Directory Messes.

Lemma find_map_replace {A} (p same : A → bool) l x x' :
  List.find p l = Some x → same x = true → p x' = true →
  List.find p (List.map (fun y => if same y then x' else y) l) = Some x'.
Proof.
  intros Hf Hs Hp. induction l as [|a l IH]; [done|]. simpl in *.
  destruct (p a) eqn:Ha.
  - injection Hf as ->. by rewrite Hs, Hp.
  - destruct (same a); [by rewrite Hp|]. rewrite Ha. by apply IH.
Qed.







End MessNames.

(** ** Generated mess ids *)

Section Slugs.
Import JS Directory.

Lemma lower_ascii_idempotent c : lower_ascii (lower_ascii c) = lower_ascii c.
Proof. destruct c as [[] [] [] [] [] [] [] []]; vm_compute; reflexivity. Qed.

(** Characters that neither [toLowerCase] nor the replacement of white
    space touches. *)
Lemma plain_chars_fixed s :
  Forall (fun c => is_space c = false ∧ lower_ascii c = c)
    (list_ascii_of_string s) →
  toLowerCase s = s ∧ ∀ in_run, replace_spaces_from in_run s = s.
Proof.
  induction s as [|c s IH]; [done|]. cbn [list_ascii_of_string].
  intros Hall. apply Forall_cons in Hall as [[Hs Hl] Hall].
  destruct (IH Hall) as [IH1 IH2]. split.
  - cbn [toLowerCase]. by rewrite Hl, IH1.
  - intros in_run. cbn [replace_spaces_from]. by rewrite Hs, IH2.
Qed.

Lemma replaced_lower_chars s : ∀ in_run,
  Forall (fun c => is_space c = false ∧ lower_ascii c = c)
    (list_ascii_of_string (replace_spaces_from in_run (toLowerCase s))).
Proof.
  induction s as [|c s IH]; intros in_run; [constructor|].
  cbn [toLowerCase replace_spaces_from].
  destruct (is_space (lower_ascii c)) eqn:Hs.
  - destruct in_run; [apply IH|].
    cbn [list_ascii_of_string]. apply Forall_cons. split; [|apply IH].
    split; vm_compute; reflexivity.
  - cbn [list_ascii_of_string]. apply Forall_cons. split; [|apply IH].
    split; [done|apply lower_ascii_idempotent].
Qed.

(** X18.  The two name parts of a generated mess id hold no white space
    and no upper-case ASCII letter, and making a slug of a slug changes
    nothing. *)
Theorem slug_is_normal :
  ∀ s : string,
    Forall (fun c => is_space c = false ∧ lower_ascii c = c)
      (list_ascii_of_string (slug s)) ∧
    slug (slug s) = slug s ∧
    ∀ facilityName messName now,
      generateMessId (slug facilityName) (slug messName) now =
      generateMessId facilityName messName now.
Proof.
  intros s.
  assert (Hidem : ∀ t, slug (slug t) = slug t).
  { intros t. unfold slug, replace_spaces.
    destruct (plain_chars_fixed _ (replaced_lower_chars t false)) as [H1 H2].
    by rewrite H1, H2. }
  split; [apply replaced_lower_chars|]. split; [apply Hidem|].
  intros f m now. unfold generateMessId. by rewrite !Hidem.
Qed.

End Slugs.

(** ** The controller that adds a mess *)

Section AddMessController.
Import JS Identity Directory.


End AddMessController.

(** ** Preparing a meal *)

Section PreparationProperties.
Import JS Arrays Identity Preparation.

Lemma hasItem_elem (l : list Entry) itemId :
  is_Some (List.find (hasItem itemId) l) ↔ itemId ∈ List.map item l.
Proof.
  rewrite find_is_some_iff, list_elem_of_fmap. unfold hasItem. split.
  - intros (e & He & Hp). apply bool_decide_eq_true in Hp. by exists e.
  - intros (e & -> & He). exists e. by rewrite bool_decide_eq_true_2.
Qed.

(** X20.  [addMenuItem] refuses exactly the items the meal already
    lists.  An accepted item is appended as not started, and available
    unless the options say otherwise; a menu that listed every item once
    still does, and a second call for the item is refused. *)
Theorem addMenuItem_keeps_items_distinct :
  ∀ (now : Z) (menuItems : list Entry) (itemId : ObjectId)
    (options : Options),
    (addMenuItem now menuItems itemId options =
       inl "Menu item already exists in this meal"
     ↔ itemId ∈ List.map item menuItems) ∧
    ∀ menuItems',
      addMenuItem now menuItems itemId options = inr menuItems' →
      (∃ e, menuItems' = menuItems ++ [e] ∧ item e = itemId ∧
            preparationStatus e = Scheduling.not_started ∧
            (isAvailable e = false ↔ o_isAvailable options = Some false)) ∧
      (NoDup (List.map item menuItems) → NoDup (List.map item menuItems')) ∧
      ∀ now2 options2,
        addMenuItem now2 menuItems' itemId options2 =
          inl "Menu item already exists in this meal".
Proof.
  intros now l itemId options.
  pose proof (hasItem_elem l itemId) as Helem.
  unfold addMenuItem.
  destruct (List.find (hasItem itemId) l) as [e0|] eqn:Hfind.
  - split; [|done]. split; [intros _|done]. apply Helem. by eexists.
  - assert (Hnot : itemId ∉ List.map item l).
    { intros Hin. apply Helem in Hin as [? ?]. done. }
    split; [split; [done|by intros ?]|].
    intros l' [= <-]. split; [|split].
    + eexists. split; [done|]. split; [done|]. split; [done|].
      cbn [isAvailable]. rewrite negb_false_iff, bool_decide_eq_true. done.
    + intros Hnd. rewrite map_app. apply NoDup_app. split; [done|].
      split; [|apply NoDup_singleton].
      intros x Hx Hx'. cbn [List.map item] in Hx'.
      apply list_elem_of_singleton in Hx'. by subst x.
    + intros now2 options2.
      destruct (List.find (hasItem itemId) (l ++ _)) eqn:Hfind2; [done|].
      exfalso.
      pose proof (proj1 (find_none_iff _ _) Hfind2) as Hno.
      specialize (Hno (mkEntry itemId
                         (negb (bool_decide (o_isAvailable options = Some false)))
                         (o_servingSize options) (o_specialNotes options)
                         (o_estimatedQuantity options)
                         (o_costPerServing options) Scheduling.not_started
                         None now)).
      unfold hasItem in Hno. cbn [item] in Hno.
      rewrite (bool_decide_eq_true_2 (itemId = itemId)) in Hno by done.
      discriminate Hno. apply elem_of_app. right. apply list_elem_of_here.
Qed.

Lemma addMenuItem_keeps_items_distinct_witness :
  ∃ menuItems',
    addMenuItem 1000 [] 1%N (mkOptions None None None None None)
      = inr menuItems' ∧
    NoDup (List.map item menuItems') ∧
    addMenuItem 2000 menuItems' 1%N (mkOptions None None None None None)
      = inl "Menu item already exists in this meal".
Proof.
  destruct (addMenuItem_keeps_items_distinct 1000 [] 1%N
              (mkOptions None None None None None)) as [_ H].
  destruct (H _ eq_refl) as (_ & Hnd & Hagain).
  eexists. split; [reflexivity|]. split; [apply Hnd, NoDup_nil_2|].
  apply Hagain.
Defined.

(** X21.  [updateItemStatus] fails exactly when the meal does not list
    the item.  Otherwise the meal lists the same items in the same
    order, the first entry of the item carries the new status (and the
    time, when the status is "ready"), and every entry of another item
    is one the meal had before. *)
Theorem updateItemStatus_sets_the_status :
  ∀ (now : Z) (menuItems : list Entry) (itemId : ObjectId)
    (status : Scheduling.PreparationStatus) (notes : string),
    (updateItemStatus now menuItems itemId status notes =
       inl "Menu item not found"
     ↔ itemId ∉ List.map item menuItems) ∧
    ∀ menuItems',
      updateItemStatus now menuItems itemId status notes = inr menuItems' →
      List.map item menuItems' = List.map item menuItems ∧
      (∃ e e',
         List.find (hasItem itemId) menuItems = Some e ∧
         List.find (hasItem itemId) menuItems' = Some e' ∧
         preparationStatus e' = status ∧
         (status = Scheduling.ready → actualReady e' = Some now) ∧
         (status ≠ Scheduling.ready → actualReady e' = actualReady e) ∧
         (notes = "" → specialNotes e' = specialNotes e) ∧
         (notes ≠ "" → specialNotes e' = Some notes) ∧
         isAvailable e' = isAvailable e) ∧
      ∀ x, x ∈ menuItems' → item x ≠ itemId → x ∈ menuItems.
Proof.
  intros now l itemId status notes.
  pose proof (hasItem_elem l itemId) as Helem.
  unfold updateItemStatus.
  destruct (List.find (hasItem itemId) l) as [e|] eqn:Hfind.
  - split.
    { split; [done|]. intros Hnot. exfalso. apply Hnot, Helem. by eexists. }
    intros l' [= <-].
    destruct (find_split _ _ _ Hfind) as (l1 & l2 & -> & Hp & Hl1).
    pose proof Hp as Hid. apply bool_decide_eq_true in Hid.
    rewrite replaceFirst_split by done.
    split; [|split].
    + rewrite !map_app. done.
    + eexists e, _. split; [done|]. split.
      * clear Hfind Helem. induction l1 as [|a l1 IH]; simpl.
        -- unfold hasItem. cbn [item].
           by rewrite (bool_decide_eq_true_2 _ Hid).
        -- rewrite (Hl1 a) by apply list_elem_of_here. apply IH.
           intros y Hy. apply Hl1. by apply list_elem_of_further.
      * cbn [preparationStatus actualReady specialNotes isAvailable].
        split; [done|]. split; [by intros ->|]. split; [by destruct status|].
        split; [by intros ->|]. split; [|done].
        intros Hn. by rewrite bool_decide_eq_false_2.
    + intros x Hx Hne. apply elem_of_app in Hx as [Hx|Hx].
      * apply elem_of_app. by left.
      * apply elem_of_cons in Hx as [->|Hx]; [done|].
        apply elem_of_app. right. by apply list_elem_of_further.
  - split; [|done]. split; [|done]. intros _ Hin.
    apply Helem in Hin as [? ?]. done.
Qed.

Lemma updateItemStatus_sets_the_status_witness :
  ∃ menuItems',
    updateItemStatus 5000
      [mkEntry 1 true None None None None Scheduling.not_started None 1000]
      1%N Scheduling.ready "" = inr menuItems' ∧
    List.map item menuItems' = [1%N] ∧
    completionPercentage menuItems' = num 100.
Proof.
  destruct (updateItemStatus_sets_the_status 5000
              [mkEntry 1 true None None None None Scheduling.not_started None
                 1000] 1%N Scheduling.ready "") as [_ H].
  destruct (H _ eq_refl) as (Hitems & _ & _).
  eexists. split; [reflexivity|]. split; [exact Hitems|].
  apply Qc_is_canon. reflexivity.
Defined.

Lemma filter_length_all {A} (p : A → bool) l :
  length (List.filter p l) = length l → ∀ x, x ∈ l → p x = true.
Proof.
  induction l as [|a l IH]; intros Hlen x Hx; [by apply elem_of_nil in Hx|].
  simpl in Hlen. pose proof (List.filter_length_le p l) as Hle.
  destruct (p a) eqn:Ha; simpl in Hlen; [|lia].
  apply elem_of_cons in Hx as [->|Hx]; [done|]. apply IH; [lia|done].
Qed.

Lemma filter_all_length {A} (p : A → bool) l :
  (∀ x, x ∈ l → p x = true) → length (List.filter p l) = length l.
Proof.
  induction l as [|a l IH]; intros Hall; [done|]. simpl.
  rewrite (Hall a) by apply list_elem_of_here. simpl. f_equal. apply IH.
  intros x Hx. apply Hall. by apply list_elem_of_further.
Qed.

(** Rounding to 100 leaves at most half a percent undone. *)
Lemma round_100 r n :
  0 < n → Math_round (num r / num n * num 100)%Qc = num 100 →
  199 * n ≤ 200 * r.
Proof.
  intros Hn Hround.
  destruct (Math_round_near (num r / num n * num 100)%Qc) as [_ Hle].
  rewrite Hround in Hle.
  assert (Hpos : (0 < num n)%Qc).
  { rewrite <- num_0. by apply (proj1 (num_lt 0 n)). }
  assert (Hnz : num n ≠ 0%Qc).
  { intros E. rewrite E in Hpos. by apply Qclt_not_le in Hpos. }
  assert (H2 : (0 < num 2 * num n)%Qc).
  { rewrite <- num_mul, <- num_0. apply (proj1 (num_lt 0 (2 * n))). lia. }
  apply (Qcmult_le_mono_pos_r _ _ _ H2) in Hle.
  replace ((num r / num n * num 100 + num 1 / num 2) * (num 2 * num n))%Qc
    with (num 200 * num r + num n)%Qc in Hle.
  - rewrite <- !num_mul, <- num_add in Hle.
    apply (proj2 (num_le _ _)) in Hle. lia.
  - replace (num 200) with (num 100 * num 2)%Qc by (by rewrite <- num_mul).
    replace (num 2) with (num 1 + num 1)%Qc by (by rewrite <- num_add).
    rewrite num_1. by field.
Qed.

(** X22.  [completionPercentage] lies between 0 and 100 and is 0 for an
    empty meal.  It is 100 when every entry is ready or served out; for
    a meal of fewer than 200 entries it is 100 only then. *)
Theorem completionPercentage_bounds :
  ∀ menuItems : list Entry,
    (0 ≤ completionPercentage menuItems ≤ num 100)%Qc ∧
    (menuItems = [] → completionPercentage menuItems = 0%Qc) ∧
    (menuItems ≠ [] → (∀ e, e ∈ menuItems → isDone e = true) →
     completionPercentage menuItems = num 100) ∧
    (completionPercentage menuItems = num 100 →
     (length menuItems < 200)%nat →
     ∀ e, e ∈ menuItems → isDone e = true).
Proof.
  intros l. unfold completionPercentage.
  pose proof (List.filter_length_le isDone l) as Hle.
  destruct l as [|e0 l0] eqn:Hl.
  { simpl. split; [|split; [done|split; [done|]]].
    - split; [done|]. rewrite <- num_0. by apply (proj1 (num_le 0 100)).
    - intros _ _ e He. by apply elem_of_nil in He. }
  rewrite <- Hl in *. rewrite bool_decide_eq_false_2 by (by rewrite Hl).
  assert (Hlen : (0 < length l)%nat) by (rewrite Hl; simpl; lia).
  set (r := Z.of_nat (length (List.filter isDone l))) in *.
  set (n := Z.of_nat (length l)) in *.
  split; [|split; [by rewrite Hl|split]].
  - replace n with (r + (n - r)) by lia.
    rewrite <- num_0 at 1. apply Math_round_range.
    + rewrite num_0. apply score_range; lia.
    + apply score_range; lia.
  - intros _ Hall. subst r n. rewrite (filter_all_length _ _ Hall).
    unfold Math_round.
    replace (num (Z.of_nat (length l)) / num (Z.of_nat (length l)) * num 100
             + num 1 / num 2)%Qc with (num 100 + num 1 / num 2)%Qc.
    + reflexivity.
    + assert (num (Z.of_nat (length l)) ≠ 0%Qc)
        by (apply num_nonzero; lia).
      by field.
  - intros Hround Hsmall. apply filter_length_all.
    pose proof (round_100 r n ltac:(lia) Hround). lia.
Qed.

Lemma completionPercentage_bounds_witness :
  isDone (mkEntry 1 true None None None None Scheduling.served_out None 1000)
  = true.
Proof.
  destruct (completionPercentage_bounds
              [mkEntry 1 true None None None None Scheduling.served_out None
                 1000]) as (_ & _ & _ & H).
  apply H.
  - apply Qc_is_canon. reflexivity.
  - simpl. lia.
  - apply list_elem_of_here.
Defined.

End PreparationProperties.

(** ** Availability of a menu item *)

Section AvailabilityProperties.
Import Availability.

(** X23.  [checkAvailability] answers [true] exactly for an active item
    that is available or whose announced time of return has come; it
    then leaves the item marked available.  Once the time has come the
    answer stays: a later call finds what a single call at the later
    time would have found. *)
Theorem checkAvailability_settles :
  ∀ (now : Z) (isActive : bool) (a : Availability),
    (fst (checkAvailability now isActive a) = true ↔
     isActive = true ∧
     (isAvailable a = true ∨
      ∃ t, estimatedAvailableAt a = Some t ∧ t ≤ now)) ∧
    (fst (checkAvailability now isActive a) = true →
     isAvailable (snd (checkAvailability now isActive a)) = true) ∧
    (fst (checkAvailability now isActive a) = false →
     snd (checkAvailability now isActive a) = a) ∧
    ∀ later, now ≤ later →
      checkAvailability later isActive (snd (checkAvailability now isActive a))
      = checkAvailability later isActive a.
Proof.
  intros now active a. unfold checkAvailability.
  destruct active; cbn [negb].
  2: { split; [|by split]. split; [done|]. by intros [? _]. }
  destruct a as [av reason est]. cbn [isAvailable estimatedAvailableAt].
  destruct av; cbn [negb fst snd isAvailable estimatedAvailableAt].
  { split; [|by split]. split; [|done]. intros _. split; [done|]. by left. }
  destruct est as [t|].
  - case_bool_decide as Ht;
      cbn [negb fst snd isAvailable estimatedAvailableAt].
    + split; [|split; [done|split; [done|]]].
      * split; [|done]. intros _. split; [done|]. right. by exists t.
      * intros later Hlater. by rewrite bool_decide_eq_true_2 by lia.
    + split; [|split; [done|split; [done|done]]].
      split; [done|]. intros [_ [?|(t' & [= <-] & ?)]]; done.
  - split; [|split; [done|split; [done|done]]].
    split; [done|]. intros [_ [?|(t' & ? & ?)]]; done.
Qed.

(** Out of stock until 12:00; asked at 12:30 and again at 13:00. *)
Lemma checkAvailability_settles_witness :
  checkAvailability 46800000 true
    (snd (checkAvailability 45000000 true
            (mkAvailability false (Some "out_of_stock") (Some 43200000))))
  = (true, mkAvailability true None None).
Proof.
  destruct (checkAvailability_settles 45000000 true
              (mkAvailability false (Some "out_of_stock") (Some 43200000)))
    as (_ & _ & _ & Hlater).
  rewrite (Hlater 46800000); [reflexivity|]. vm_compute. discriminate.
Defined.

End AvailabilityProperties.

(** ** Signing in *)

Section LoginProperties.
Import Login.

Lemma findByEmail_store users e a a' :
  findByEmail users e = Some a → _id a' = _id a → email a' = email a →
  findByEmail (store a' users) e = Some a'.
Proof.
  intros Hf Hid Hem. unfold findByEmail, store.
  apply (find_map_replace _ (fun x => bool_decide (_id x = _id a')) _ a).
  - exact Hf.
  - by apply bool_decide_eq_true_2.
  - rewrite Hem. exact (find_some_pred _ _ _ Hf).
Qed.

(** A wrong password for an account that is active and not locked when
    [login] tests the lock. *)
Lemma login_wrong_password (bcrypt_compare : string → string → bool) c
    body users user :
  c_email body ≠ "" → c_password body ≠ "" →
  findByEmail users (c_email body) = Some user →
  isLocked (atLockTest c) user = false → isActive user = true →
  comparePassword bcrypt_compare user (c_password body) = false →
  login bcrypt_compare c body users =
    (InvalidCredentials, store (incLoginAttempts c user) users) ∧
  findByEmail (store (incLoginAttempts c user) users) (c_email body) =
    Some (incLoginAttempts c user).
Proof.
  intros He Hp Hf Hl Ha Hc. split.
  - unfold login.
    rewrite (bool_decide_eq_false_2 _ He), (bool_decide_eq_false_2 _ Hp).
    cbn [orb]. by rewrite Hf, Hl, Ha, Hc.
  - apply (findByEmail_store _ _ user); [done| |];
      unfold incLoginAttempts; by case_match.
Qed.

Lemma incLoginAttempts_unlocked c a :
  lockUntil a = None →
  incLoginAttempts c a =
    mkAccount (_id a) (email a) (password a) (isActive a)
      (loginAttempts a + 1)
      (if bool_decide (5 ≤ loginAttempts a + 1)
       then Some (atLockStart c + 7200000) else None)
      (lastLogin a).
Proof.
  intros Hl. unfold incLoginAttempts, isLocked. rewrite Hl.
  cbn [negb]. rewrite andb_true_r. done.
Qed.

(** Wrong passwords below the limit only count. *)
Lemma failures_below_the_limit (bcrypt_compare : string → string → bool)
    body (clocks : list Clock) :
  c_email body ≠ "" → c_password body ≠ "" →
  ∀ users user,
    findByEmail users (c_email body) = Some user →
    isActive user = true → lockUntil user = None →
    comparePassword bcrypt_compare user (c_password body) = false →
    loginAttempts user + Z.of_nat (length clocks) < 5 →
    ∃ users' user',
      loginAll bcrypt_compare (List.map (fun c => (c, body)) clocks) users =
        (List.map (fun _ => InvalidCredentials) clocks, users') ∧
      findByEmail users' (c_email body) = Some user' ∧
      isActive user' = true ∧ lockUntil user' = None ∧
      password user' = password user ∧
      loginAttempts user' = loginAttempts user + Z.of_nat (length clocks).
Proof.
  intros He Hp.
  induction clocks as [|c clocks IH]; intros users user Hf Ha Hl Hc Hn.
  - exists users, user. simpl. split_and!; try done. lia.
  - simpl length in Hn.
    destruct (login_wrong_password bcrypt_compare c body users user He Hp Hf)
      as [Hrun Hf1]; [by unfold isLocked; rewrite Hl|done|done|].
    rewrite incLoginAttempts_unlocked in Hrun, Hf1 by done.
    rewrite bool_decide_eq_false_2 in Hrun, Hf1 by lia.
    destruct (IH _ _ Hf1) as (users' & user' & Hrest & Hf' & Ha' & Hl' & Hpw & Hn');
      [done|done|done|cbn [loginAttempts]; lia|].
    exists users', user'. cbn [List.map loginAll]. rewrite Hrun, Hrest.
    split_and!; try done. cbn [loginAttempts] in Hn'. simpl length. lia.
Qed.

(** X24.  The fifth wrong password in a row locks the account for two
    hours, counted from the clock reading [incLoginAttempts] takes when it
    sets the lock.  Until then every sign-in to the account is answered
    with 423 and changes nothing, the right password included.  Every
    call has clock readings of its own, and nothing is assumed about
    them. *)
Theorem five_failures_lock_the_account :
  ∀ (bcrypt_compare : string → string → bool)
    (body : Credentials) (clocks : list Clock) (last : Clock)
    (users : list Account) (user : Account),
    c_email body ≠ "" → c_password body ≠ "" →
    findByEmail users (c_email body) = Some user →
    isActive user = true → lockUntil user = None →
    comparePassword bcrypt_compare user (c_password body) = false →
    loginAttempts user + Z.of_nat (length clocks) = 4 →
    ∃ users' user',
      loginAll bcrypt_compare
        (List.map (fun c => (c, body)) (clocks ++ [last])) users =
        (List.map (fun _ => InvalidCredentials) (clocks ++ [last]), users') ∧
      findByEmail users' (c_email body) = Some user' ∧
      loginAttempts user' = 5 ∧
      lockUntil user' = Some (atLockStart last + 7200000) ∧
      ∀ (c : Clock) (attempt : Credentials),
        c_email attempt = c_email body → c_password attempt ≠ "" →
        atLockTest c < atLockStart last + 7200000 →
        login bcrypt_compare c attempt users' = (AccountLocked, users').
Proof.
  intros bcrypt_compare body clocks last users user He Hp Hf Ha Hl Hc Hn.
  destruct (failures_below_the_limit bcrypt_compare body clocks He Hp users
              user Hf Ha Hl Hc)
    as (users1 & user1 & Hrun1 & Hf1 & Ha1 & Hl1 & Hpw1 & Hn1); [lia|].
  assert (Hc1 : comparePassword bcrypt_compare user1 (c_password body)
                = false).
  { unfold comparePassword in *. by rewrite Hpw1. }
  destruct (login_wrong_password bcrypt_compare last body users1 user1 He Hp
              Hf1)
    as [Hrun2 Hf2]; [by unfold isLocked; rewrite Hl1|done|done|].
  rewrite incLoginAttempts_unlocked in Hrun2, Hf2 by done.
  rewrite bool_decide_eq_true_2 in Hrun2, Hf2 by lia.
  eexists _, _. split; [|split; [exact Hf2|split; [|split; [done|]]]].
  - rewrite !map_app. cbn [List.map].
    assert (Happ : ∀ l1 l2 us rs1 us1 rs2 us2,
              loginAll bcrypt_compare l1 us = (rs1, us1) →
              loginAll bcrypt_compare l2 us1 = (rs2, us2) →
              loginAll bcrypt_compare (l1 ++ l2) us = (rs1 ++ rs2, us2)).
    { induction l1 as [|[t b] l1 IH]; intros l2 us rs1 us1 rs2 us2 H1 H2.
      - by injection H1 as <- <-.
      - cbn [loginAll app] in *.
        destruct (login bcrypt_compare t b us) as [r us'].
        destruct (loginAll bcrypt_compare l1 us') as [rs us''] eqn:Hrest.
        injection H1 as <- <-.
        by rewrite (IH _ _ _ _ _ _ Hrest H2). }
    apply (Happ _ _ _ _ _ _ _ Hrun1). cbn [loginAll]. by rewrite Hrun2.
  - cbn [loginAttempts]. lia.
  - intros c attempt Hemail Hpass Hnow. unfold login.
    rewrite Hemail, (bool_decide_eq_false_2 _ He),
      (bool_decide_eq_false_2 _ Hpass).
    cbn [orb]. rewrite Hf2. unfold isLocked. cbn [lockUntil].
    by rewrite bool_decide_eq_true_2.
Qed.

(** X25.  What ends a lock.  The account is not locked any more when
    [login] tests the lock, and the later clock readings of the call are
    not earlier than that one.  A wrong password starts the count again
    at one and removes the lock as soon as [incLoginAttempts] reads the
    clock after the lock's end; this is also what happens when [login]
    tested the lock in its last millisecond and the password check took
    longer than that.  Only when [incLoginAttempts] still reads the very
    millisecond of the lock's end does a wrong password count on and
    renew the lock for two hours.  The right password signs in, clears
    the count and the lock, and records the time read for [lastLogin]. *)
Theorem after_the_lock :
  ∀ (bcrypt_compare : string → string → bool)
    (c : Clock) (expiry : Z) (body : Credentials) (users : list Account)
    (user : Account),
    c_email body ≠ "" → c_password body ≠ "" →
    findByEmail users (c_email body) = Some user →
    isActive user = true → lockUntil user = Some expiry →
    inOrder c → expiry ≤ atLockTest c →
    (comparePassword bcrypt_compare user (c_password body) = false →
     expiry < atExpiryTest c →
     ∃ user',
       login bcrypt_compare c body users =
         (InvalidCredentials, store user' users) ∧
       findByEmail (store user' users) (c_email body) = Some user' ∧
       loginAttempts user' = 1 ∧ lockUntil user' = None) ∧
    (comparePassword bcrypt_compare user (c_password body) = false →
     atExpiryTest c = expiry → 4 ≤ loginAttempts user →
     ∃ user',
       login bcrypt_compare c body users =
         (InvalidCredentials, store user' users) ∧
       findByEmail (store user' users) (c_email body) = Some user' ∧
       loginAttempts user' = loginAttempts user + 1 ∧
       lockUntil user' = Some (atLockStart c + 7200000)) ∧
    (comparePassword bcrypt_compare user (c_password body) = true →
     0 < loginAttempts user →
     ∃ user',
       login bcrypt_compare c body users =
         (LoginSuccessful, store user' users) ∧
       findByEmail (store user' users) (c_email body) = Some user' ∧
       loginAttempts user' = 0 ∧ lockUntil user' = None ∧
       lastLogin user' = Some (atSignIn c)).
Proof.
  intros bcrypt_compare c expiry body users user He Hp Hf Ha Hl
    (Hc1 & Hc2 & Hc3 & Hc4) Hexp.
  assert (Hunlocked : isLocked (atLockTest c) user = false).
  { unfold isLocked. rewrite Hl. apply bool_decide_eq_false_2. lia. }
  split; [|split].
  - intros Hc Hlt.
    destruct (login_wrong_password bcrypt_compare c body users user He Hp
                Hf Hunlocked Ha Hc) as [Hrun Hf'].
    exists (incLoginAttempts c user). split; [done|]. split; [done|].
    unfold incLoginAttempts. rewrite Hl.
    by rewrite bool_decide_eq_true_2.
  - intros Hc Heq Hfour.
    destruct (login_wrong_password bcrypt_compare c body users user He Hp
                Hf Hunlocked Ha Hc) as [Hrun Hf'].
    exists (incLoginAttempts c user). split; [done|]. split; [done|].
    unfold incLoginAttempts, isLocked. rewrite Hl.
    rewrite (bool_decide_eq_false_2 (expiry < atExpiryTest c)) by lia.
    rewrite (bool_decide_eq_false_2 (atRelockTest c < expiry)) by lia.
    cbn [loginAttempts lockUntil negb]. rewrite andb_true_r.
    by rewrite bool_decide_eq_true_2 by lia.
  - intros Hc Hpos.
    exists (set_lastLogin (atSignIn c) (resetLoginAttempts user)).
    split; [|split; [|done]].
    + unfold login.
      rewrite (bool_decide_eq_false_2 _ He), (bool_decide_eq_false_2 _ Hp).
      cbn [orb]. rewrite Hf, Hunlocked, Ha, Hc. cbn [negb].
      by rewrite bool_decide_eq_true_2.
    + by apply (findByEmail_store _ _ user).
Qed.

End LoginProperties.

Section LoginExamples.
Import Login.

(** Four wrong guesses and a fifth whose lock starts at 10:00:00.000 lock
    Asha out until 12:00; the right password at 11:00 is answered with
    423.  The password check of the fifth guess took 90 ms. *)
Lemma five_failures_lock_the_account_witness :
  ∃ users',
    snd (loginAll LoginExample.plain
           (List.map (fun c => (c, LoginExample.wrong))
              [instant 1000; instant 2000; instant 3000; instant 4000;
               mkClock 35999910 36000000 36000000 36000000 36000000])
           [LoginExample.asha]) = users' ∧
    login LoginExample.plain (instant 39600000) LoginExample.right users'
      = (AccountLocked, users').
Proof.
  destruct (five_failures_lock_the_account LoginExample.plain
              LoginExample.wrong
              [instant 1000; instant 2000; instant 3000; instant 4000]
              (mkClock 35999910 36000000 36000000 36000000 36000000)
              [LoginExample.asha] LoginExample.asha)
    as (users' & user' & Hrun & _ & _ & _ & Hlocked);
    try reflexivity; try discriminate.
  exists users'. split.
  - change ([instant 1000; instant 2000; instant 3000; instant 4000;
             mkClock 35999910 36000000 36000000 36000000 36000000])
      with ([instant 1000; instant 2000; instant 3000; instant 4000] ++
            [mkClock 35999910 36000000 36000000 36000000 36000000]).
    by rewrite Hrun.
  - apply Hlocked; [reflexivity|discriminate|reflexivity].
Defined.

(** Locked until 12:00:00.000 after five failures.  A wrong password
    arrives in that very millisecond, so [login] finds the lock run out;
    the password check takes 85 ms, and [incLoginAttempts] starts the
    count again at one and removes the lock. *)
Lemma after_the_lock_witness :
  ∃ user',
    login LoginExample.plain
      (mkClock 43200000 43200085 43200085 43200085 43200085)
      LoginExample.wrong
      [mkAccount 1 "asha@example.org" "correct horse" true 5 (Some 43200000)
         None]
    = (InvalidCredentials,
       store user'
         [mkAccount 1 "asha@example.org" "correct horse" true 5
            (Some 43200000) None]) ∧
    loginAttempts user' = 1 ∧ lockUntil user' = None.
Proof.
  destruct (after_the_lock LoginExample.plain
              (mkClock 43200000 43200085 43200085 43200085 43200085)
              43200000 LoginExample.wrong
              [mkAccount 1 "asha@example.org" "correct horse" true 5
                 (Some 43200000) None]
              (mkAccount 1 "asha@example.org" "correct horse" true 5
                 (Some 43200000) None))
    as (Hwrong & _ & _); try reflexivity; try discriminate.
  { unfold inOrder. cbn. lia. }
  destruct Hwrong as (user' & Hrun & _ & Hn & Hl);
    [reflexivity|reflexivity|].
  exists user'. split; [exact Hrun|]. split; [exact Hn|exact Hl].
Defined.

End LoginExamples.

(** ** Editing a daily menu *)

Section MenuUpdateProperties.
Import JS Identity Scheduling MenuUpdates.

(** X26.  [updateDailyMenu] sets whatever status the body names: on a
    menu of the admin's own mess it never refuses a status.  It
    publishes a menu without entries, which [publishDailyMenu] refuses,
    and it takes a completed menu back to draft. *)
Theorem updateDailyMenu_sets_any_status :
  ∀ (user : User) (id : ObjectId) (menus : gmap ObjectId DailyMenu)
    (m : DailyMenu) (s : Status),
    findOne menus id (req_facilityId user) (req_messType user) = Some m →
    (∃ m',
       updateDailyMenu user id (setStatus s) menus =
         (MenuUpdated m', <[id := m']> menus) ∧
       status m' = s ∧ menuItems m' = menuItems m ∧
       ratingStats m' = ratingStats m ∧
       lastModifiedBy m' = Some (Identity.id user)) ∧
    (menuItems m = [] → status m = draft →
     publishDailyMenu user id menus = (CannotPublishWithoutItems, menus) ∧
     ∃ m',
       updateDailyMenu user id (setStatus published) menus =
         (MenuUpdated m', <[id := m']> menus) ∧
       status m' = published ∧ menuItems m' = [] ∧ totalItems m' = 0).
Proof.
  intros user id menus m s Hfind. split.
  - unfold updateDailyMenu. rewrite Hfind. cbn [validUpdate setStatus
      ub_expectedStudents negb].
    eexists. split; [reflexivity|]. by split_and!.
  - intros Hitems Hdraft. split.
    + rewrite publishDailyMenu_cases, Hfind, Hdraft, Hitems.
      rewrite bool_decide_eq_false_2 by (by intros [?|?]).
      by rewrite bool_decide_eq_true_2.
    + unfold updateDailyMenu. rewrite Hfind. cbn [validUpdate setStatus
        ub_expectedStudents negb].
      eexists. split; [reflexivity|].
      cbn [preSave applyUpdates status menuItems totalItems ub_menuItems
           ub_status default].
      rewrite Hitems. by split_and!.
Qed.

(** The lunch menu, still a draft and without entries. *)
Lemma updateDailyMenu_sets_any_status_witness :
  publishDailyMenu Example.admin 7%N
    {[ 7%N := Example.lunchMenuIn draft [] ]}
  = (CannotPublishWithoutItems, {[ 7%N := Example.lunchMenuIn draft [] ]}) ∧
  ∃ m',
    fst (updateDailyMenu Example.admin 7%N (setStatus published)
           {[ 7%N := Example.lunchMenuIn draft [] ]}) = MenuUpdated m' ∧
    status m' = published ∧ menuItems m' = [].
Proof.
  destruct (updateDailyMenu_sets_any_status Example.admin 7%N
              {[ 7%N := Example.lunchMenuIn draft [] ]}
              (Example.lunchMenuIn draft []) published) as [_ H].
  - reflexivity.
  - destruct (H eq_refl eq_refl) as (Hpub & m' & Hupd & Hs & Hi & _).
    split; [exact Hpub|]. exists m'. rewrite Hupd. by split_and!.
Defined.

End MenuUpdateProperties.

(** ** Statistics of a facility *)

Section FacilityStatistics.
Import JS Identity Feedback FacilityStats.

(** X27.  The statistics a mess admin of a college sees are computed
    over ratings stored as "college_mess", and a rating submitted by a
    user whose admin facility is not a college (every student) is stored
    as "hostel_mess": no such submission ever changes the summary of
    [getFacilityStats] for a college admin, whatever the date range. *)
Theorem college_statistics_miss_student_ratings :
  ∀ (env : Env) (u : User) (b : SubmitBody) (db db' : Db) (r : Rating)
    (admin : User) (start end_ : Z),
    submitRating env u b db = (Created r, db') →
    facilityType_of (adminFacility u) ≠ Some college →
    facilityType_of (adminFacility admin) = Some college →
    r ∈ ratings db' ∧
    (r ∉ matched db'
           (truthy (facilityId_of (adminFacility admin)) ∪
            facilityId_of (selectedFacility admin))
           (resolveMessType admin) start end_) ∧
    getFacilityStats admin start end_ db' =
      getFacilityStats admin start end_ db.
Proof.
  intros env u b db db' r admin start end_ Hs Hu Hadmin.
  destruct (submitRating_inv _ _ _ _ _ _ Hs)
    as [[Hno _]|(m & dm & [= ->] & _ & _ & _ & _ & Hr & _)]; [done|].
  assert (Hmt : messType (ratingDocument env u b) ≠ resolveMessType admin).
  { cbn [ratingDocument messType]. unfold resolveMessType.
    rewrite decide_False by done. by rewrite decide_True. }
  assert (Hm : ∀ fid,
            matched db' fid (resolveMessType admin) start end_ =
            matched db fid (resolveMessType admin) start end_).
  { intros fid. unfold matched. rewrite Hr, List.filter_app.
    cbn [List.filter]. rewrite (bool_decide_eq_false_2 _ Hmt).
    rewrite andb_false_r. cbn [andb]. by rewrite app_nil_r. }
  split; [|split].
  - rewrite Hr. apply elem_of_app. right. apply list_elem_of_here.
  - intros Hin. apply list_elem_of_In, filter_In in Hin as [_ Hp].
    rewrite (bool_decide_eq_false_2 _ Hmt) in Hp.
    by rewrite andb_false_r in Hp.
  - unfold getFacilityStats, statics_getFacilityStats. by rewrite Hm.
Qed.

Lemma college_statistics_miss_student_ratings_witness :
  Example.firstRating ∈ ratings Example.db1 ∧
  getFacilityStats Example.admin 0 86400000 Example.db1 = [].
Proof.
  destruct (college_statistics_miss_student_ratings (Example.at1300 1000)
              Example.alice Example.first Example.db0 Example.db1
              Example.firstRating Example.admin 0 86400000)
    as (Hin & _ & Hsame).
  - reflexivity.
  - discriminate.
  - reflexivity.
  - split; [exact Hin|]. rewrite Hsame. reflexivity.
Defined.

End FacilityStatistics.

(** ** Menus of other messes *)

Section MenuScope.
Import JS Identity Scheduling MenuUpdates.

(** X28.  A daily menu is out of reach of every user whose session does
    not carry the menu's facility id and mess type: publishing it and
    editing it are both answered with 404 and change nothing. *)
Theorem menus_of_other_messes_are_out_of_reach :
  ∀ (user : User) (id : ObjectId) (body : UpdateBody)
    (menus : gmap ObjectId DailyMenu) (m : DailyMenu),
    menus !! id = Some m →
    req_facilityId user ≠ Some (facilityId m) ∨
    req_messType user ≠ messType m →
    publishDailyMenu user id menus = (DailyMenuNotFound, menus) ∧
    updateDailyMenu user id body menus = (MenuNotFound, menus).
Proof.
  intros user id body menus m Hm Hother.
  assert (Hfind : findOne menus id (req_facilityId user) (req_messType user)
                  = None).
  { unfold findOne. rewrite Hm.
    destruct Hother as [Hf|Ht].
    - by rewrite (bool_decide_eq_false_2 _ Hf).
    - rewrite (bool_decide_eq_false_2 (messType m = req_messType user))
        by (by intros E). by rewrite andb_false_r. }
  split.
  - by rewrite publishDailyMenu_cases, Hfind.
  - unfold updateDailyMenu. by rewrite Hfind.
Qed.

(** The admin of another facility asks for the lunch menu of SJ Hall. *)
Lemma menus_of_other_messes_are_out_of_reach_witness :
  publishDailyMenu (mkUser 2 mess_admin None
                      (Some (mkFacilityRef (Some "north") (Some college))))
    7%N {[ 7%N := Example.draftMenu ]}
  = (DailyMenuNotFound, {[ 7%N := Example.draftMenu ]}).
Proof.
  apply (menus_of_other_messes_are_out_of_reach
           (mkUser 2 mess_admin None
              (Some (mkFacilityRef (Some "north") (Some college))))
           7%N (setStatus published) {[ 7%N := Example.draftMenu ]}
           Example.draftMenu).
  - reflexivity.
  - left. discriminate.
Defined.

End MenuScope.
